(** * flipper-api: the refresh/cache pipeline and the scoring engine

    A shallow embedding of [core/recommender.py], [core/data_client.py],
    [core/cache_manager.py] and the refresh loop of [api/app.py].

    Numbers are IEEE-754 binary64 values (Rocq's primitive floats), so
    not-a-number and the infinities behave as they do in Python and numpy.
    Exceptions are values of [exn]; a function that may raise returns a
    [result].  Code that talks to the network, sleeps, logs or writes a
    cache runs in the monad [M] over an explicit [State]: the answers of
    the network, the clock, the trace of events and the three caches. *)

From stdpp Require Import base option list strings gmap.
From Stdlib Require Import ZArith Floats Lia.

Set Warnings "-inexact-float".

Local Open Scope Z_scope.

(* ===================================================================== *)
(** ** Exceptions and results *)
(* ===================================================================== *)

(** The part of Python's [Exception] hierarchy the sources can meet.
    Task cancellation is a [BaseException]; it is not an [Exception] and is
    outside this type. *)
Inductive exn : Type :=
| KeyError (key : string)
| IndexError
| ValueError
| OverflowError
| ZeroDivisionError
| TypeError
| UnboundLocalError
| HTTPStatusError (status_code : Z)
| TransportError.

Inductive result (A : Type) : Type :=
| Ok (a : A)
| Raise (e : exn).
Arguments Ok {A} a.
Arguments Raise {A} e.

#[global] Instance result_ret : MRet result := fun _ a => Ok a.
#[global] Instance result_bind : MBind result := fun _ _ k r =>
  match r with
  | Ok a => k a
  | Raise e => Raise e
  end.

Fixpoint rmapM {A B} (f : A -> result B) (l : list A) : result (list B) :=
  match l with
  | [] => Ok []
  | x :: l' => y ← f x; ys ← rmapM f l'; Ok (y :: ys)
  end.

(* ===================================================================== *)
(** ** Python, numpy and pandas primitives *)
(* ===================================================================== *)

Module Py.

(** [float(n)] for a Python int: the nearest binary64 value. *)
Definition of_Z (z : Z) : float :=
  SF2Prim (binary_normalize prec emax z 0 false).

(** [int(x)] for a Python float: truncation toward zero; [int(nan)] is a
    [ValueError], [int(inf)] an [OverflowError]. *)
Definition int (x : float) : result Z :=
  match Prim2SF x with
  | S754_nan => Raise ValueError
  | S754_infinity _ => Raise OverflowError
  | S754_zero _ => Ok 0
  | S754_finite s m e =>
      let a := if 0 <=? e then Z.shiftl (Z.pos m) e
               else Z.shiftr (Z.pos m) (- e) in
      Ok (if s then - a else a)
  end.

(** [max(a, b)] keeps its first argument unless the second compares
    greater. *)
Definition max (a b : float) : float :=
  if PrimFloat.ltb a b then b else a.

(** [x != y] on floats. *)
Definition neb (x y : float) : bool := negb (PrimFloat.eqb x y).

(** [Series.dropna()]. *)
Definition dropna (col : list float) : list float :=
  List.filter (fun x => negb (PrimFloat.is_nan x)) col.

(** A sum of floats, added from left to right starting at 0.  (numpy adds
    fewer than eight entries in this order and longer columns in blocks;
    the two agree wherever every partial sum is exact.) *)
Definition fsum (col : list float) : float :=
  fold_left PrimFloat.add col 0%float.

(** [Series.sum()]: not-a-number entries are skipped, the empty sum is 0. *)

Definition sum (col : list float) : float := fsum (dropna col).

(** [Series.mean()]: the sum of the entries that are not NaN over their
    count; NaN when there is none. *)
Definition mean (col : list float) : float :=
  match dropna col with
  | [] => nan
  | v => PrimFloat.div (fsum v) (of_Z (Z.of_nat (length v)))
  end.

(** [Series.tail(n)]. *)
Definition tail {A} (n : Z) (l : list A) : list A :=
  if n =? 0 then []
  else if 0 <? n then drop (length l - Z.to_nat n)%nat l
  else drop (Z.to_nat (- n)) l.

(** [Series.iloc[pos]]: negative positions count from the end, a position
    outside the series is an [IndexError]. *)
Definition iloc {A} (l : list A) (pos : Z) : result A :=
  let n := Z.of_nat (length l) in
  let i := if pos <? 0 then pos + n else pos in
  if (0 <=? i) && (i <? n)
  then match l !! Z.to_nat i with
       | Some x => Ok x
       | None => Raise IndexError
       end
  else Raise IndexError.

(** [Series.diff()]: the first entry has no predecessor. *)
Fixpoint diff_from (prev : float) (col : list float) : list float :=
  match col with
  | [] => []
  | x :: col' => PrimFloat.sub x prev :: diff_from x col'
  end.

Definition diff (col : list float) : list float :=
  match col with
  | [] => []
  | x :: col' => nan :: diff_from x col'
  end.

(** [Series.ffill()]: a NaN entry takes the last value seen before it. *)
Fixpoint ffill_from (last : float) (col : list float) : list float :=
  match col with
  | [] => []
  | x :: col' =>
      let y := if PrimFloat.is_nan x then last else x in
      y :: ffill_from y col'
  end.

Definition ffill (col : list float) : list float := ffill_from nan col.

(** [sort_values]: a stable insertion sort on a key; rows that compare
    equal keep their order. *)
Section Sort.
Context {A : Type} (le : A -> A -> bool).

Fixpoint insert_sorted (x : A) (l : list A) : list A :=
  match l with
  | [] => [x]
  | y :: l' => if le x y then x :: l else y :: insert_sorted x l'
  end.

Definition sort_values (l : list A) : list A :=
  foldr insert_sorted [] l.
End Sort.

(** Order of float keys in [sort_values]: NaN keys go last in both
    directions. *)
Definition float_le (ascending : bool) (a b : float) : bool :=
  if PrimFloat.is_nan b then true
  else if PrimFloat.is_nan a then false
  else if ascending then PrimFloat.leb a b else PrimFloat.leb b a.

(** [Series.nlargest(n)]: the [n] largest entries that are not NaN, the
    largest first. *)
Definition nlargest (n : Z) (col : list float) : list float :=
  if n <=? 0 then []
  else take (Z.to_nat n) (sort_values (float_le false) (dropna col)).

(** [np.average(a, weights=w)]. *)
Fixpoint mul_zip (a w : list float) : result (list float) :=
  match a, w with
  | [], [] => Ok []
  | x :: a', y :: w' =>
      r ← mul_zip a' w'; Ok (PrimFloat.mul x y :: r)
  | _, _ => Raise TypeError
  end.

Definition average (a w : list float) : result float :=
  p ← mul_zip a w;
  let scl := fsum w in
  if PrimFloat.eqb scl 0%float then Raise ZeroDivisionError
  else Ok (PrimFloat.div (fsum p) scl).

End Py.

(* ===================================================================== *)
(** ** core/recommender.py *)
(* ===================================================================== *)

(** A row of the hourly history as the history service returns it.
    Timestamps are whole seconds; a missing number is NaN. *)
Record RawRow : Type := {
  r_timestamp : Z;
  r_buy : float;
  r_sell : float;
  r_buyVolume : float;
  r_sellVolume : float;
  r_buyMovingWeek : float;
  r_sellMovingWeek : float
}.

(** The raw history frame: the columns that are present and the rows. *)
Record RawHistory : Type := {
  columns : list string;
  rows : list RawRow
}.

(** A row of the derived history ([transformed_past_hour]'s result). *)
Record DerivedRow : Type := {
  buy_order_price : float;
  sell_order_price : float;
  buy_order_volume : float;
  sell_order_volume : float;
  insta_buy_volume : float;
  insta_sell_volume : float;
  insta_buy_volume_week : float;
  insta_sell_volume_week : float;
  margin : float;
  timestamp : Z
}.

Inductive Column : Type :=
| col_buy_order_price | col_sell_order_price
| col_buy_order_volume | col_sell_order_volume
| col_insta_buy_volume | col_insta_sell_volume
| col_insta_buy_volume_week | col_insta_sell_volume_week
| col_margin.

Definition get_col (c : Column) (r : DerivedRow) : float :=
  match c with
  | col_buy_order_price => buy_order_price r
  | col_sell_order_price => sell_order_price r
  | col_buy_order_volume => buy_order_volume r
  | col_sell_order_volume => sell_order_volume r
  | col_insta_buy_volume => insta_buy_volume r
  | col_insta_sell_volume => insta_sell_volume r
  | col_insta_buy_volume_week => insta_buy_volume_week r
  | col_insta_sell_volume_week => insta_sell_volume_week r
  | col_margin => margin r
  end.

(** [df[column]]. *)
Definition column (c : Column) (df : list DerivedRow) : list float :=
  map (get_col c) df.

Definition tax_rate : float := 0.01125%float.

Definition fill_cols : list string :=
  ["buy"; "sell"; "buyVolume"; "sellVolume"; "buyMovingWeek"; "sellMovingWeek"]%string.

(** [df[cols]] raises a [KeyError] at the first column that is absent. *)
Fixpoint require_columns (have want : list string) : result unit :=
  match want with
  | [] => Ok tt
  | c :: want' =>
      if bool_decide (c ∈ have) then require_columns have want'
      else Raise (KeyError c)
  end.

(** [df[fill_cols] = df[fill_cols].ffill()], row by row: [last] is the
    previous row after filling. *)
Definition fill_one (last x : float) : float :=
  if PrimFloat.is_nan x then last else x.

Definition fill_row (last : RawRow) (r : RawRow) : RawRow :=
  {| r_timestamp := r_timestamp r;
     r_buy := fill_one (r_buy last) (r_buy r);
     r_sell := fill_one (r_sell last) (r_sell r);
     r_buyVolume := fill_one (r_buyVolume last) (r_buyVolume r);
     r_sellVolume := fill_one (r_sellVolume last) (r_sellVolume r);
     r_buyMovingWeek := fill_one (r_buyMovingWeek last) (r_buyMovingWeek r);
     r_sellMovingWeek := fill_one (r_sellMovingWeek last) (r_sellMovingWeek r) |}.

Fixpoint ffill_rows (last : RawRow) (l : list RawRow) : list RawRow :=
  match l with
  | [] => []
  | r :: l' => let r' := fill_row last r in r' :: ffill_rows r' l'
  end.

Definition no_row : RawRow :=
  {| r_timestamp := 0; r_buy := nan; r_sell := nan; r_buyVolume := nan;
     r_sellVolume := nan; r_buyMovingWeek := nan; r_sellMovingWeek := nan |}.

(** The rename, the margin and the interval volumes of one row; [prev] is
    the (filled) row before it, if any.  The service's "buy" is the
    trader's sell order and the other way round. *)
Definition derive_row (prev : option RawRow) (r : RawRow) : DerivedRow :=
  let sell_order_price := r_buy r in
  let buy_order_price := r_sell r in
  let insta_buy_volume_week := r_buyMovingWeek r in
  let insta_sell_volume_week := r_sellMovingWeek r in
  {| buy_order_price := buy_order_price;
     sell_order_price := sell_order_price;
     buy_order_volume := r_sellVolume r;
     sell_order_volume := r_buyVolume r;
     insta_buy_volume :=
       match prev with
       | None => nan
       | Some p => PrimFloat.abs (insta_buy_volume_week - r_buyMovingWeek p)
       end;
     insta_sell_volume :=
       match prev with
       | None => nan
       | Some p => PrimFloat.abs (insta_sell_volume_week - r_sellMovingWeek p)
       end;
     insta_buy_volume_week := insta_buy_volume_week;
     insta_sell_volume_week := insta_sell_volume_week;
     margin := ((sell_order_price - buy_order_price) * (1 - tax_rate))%float;
     timestamp := r_timestamp r |}.

Fixpoint derive_rows (prev : option RawRow) (l : list RawRow) : list DerivedRow :=
  match l with
  | [] => []
  | r :: l' => derive_row prev r :: derive_rows (Some r) l'
  end.

Definition by_timestamp (a b : RawRow) : bool := r_timestamp a <=? r_timestamp b.

Definition transformed_past_hour (df : RawHistory) : result (list DerivedRow) :=
  _ ← require_columns (columns df) ["timestamp"%string];
  let sorted := Py.sort_values by_timestamp (rows df) in
  _ ← require_columns (columns df) fill_cols;
  let filled := ffill_rows no_row sorted in
  Ok (derive_rows None filled).

(** An order-book row of the market snapshot, and the same row with its
    out-bid amount. *)
Record OrderRow : Type := {
  amount : Z;
  pricePerUnit : float;
  orders : Z
}.

Record OutBidRow : Type := {
  ob_row : OrderRow;
  out_bid_price : float
}.

Definition by_price (ascending : bool) (a b : OrderRow) : bool :=
  Py.float_le ascending (pricePerUnit a) (pricePerUnit b).

Definition with_out_bid (l : list OrderRow) : list OutBidRow :=
  zip_with (fun r d => {| ob_row := r; out_bid_price := d |})
           l (Py.diff (map pricePerUnit l)).

Definition transformed_order_book (df : list OrderRow) : list OutBidRow :=
  if (0 <? Z.of_nat (length df))
  then with_out_bid (Py.sort_values (by_price true) df)
  else [].

(** Default arguments of [weighted_rate_of_change]. *)
Definition positions_pct_default : list float := [0.01; 0.5; 0.75]%float.
Definition weights_default : list float := [0.2; 0.3; 0.5]%float.
Definition recent_window_default : Z := 6.

(** One turn of the loop over [positions]. *)
Definition rate_at (df : list DerivedRow) (c : Column)
    (recent_value : float) (pos : Z) : result float :=
  value_at_pos ← Py.iloc (column c df) pos;
  let value_diff := (recent_value - value_at_pos)%float in
  t_last ← Py.iloc (map timestamp df) (-1);
  t_pos ← Py.iloc (map timestamp df) pos;
  let minutes_diff := (Py.of_Z (t_last - t_pos) / 60)%float in
  if (0 <? value_at_pos)%float && (0 <? minutes_diff)%float
  then Ok (value_diff / (value_at_pos * minutes_diff))%float
  else Ok 0%float.

(** [positions = [int(n * pct) for pct in positions_pct]]. *)
Definition positions_of (n : Z) (positions_pct : list float) : result (list Z) :=
  rmapM (fun pct => Py.int (Py.of_Z n * pct)%float) positions_pct.

(** The [for pos in positions] loop: the list [rates]. *)
Definition rates_of (df : list DerivedRow) (c : Column)
    (positions_pct : list float) (recent_window : Z) : result (list float) :=
  let n := Z.of_nat (length df) in
  positions ← positions_of n positions_pct;
  let recent_value := Py.mean (Py.tail recent_window (column c df)) in
  rmapM (rate_at df c recent_value) positions.

Definition nonzero_rates (rates : list float) : list float :=
  List.filter (fun r => Py.neb r 0%float) rates.

Definition weighted_rate_of_change (df : list DerivedRow) (c : Column)
    (positions_pct weights : list float) (recent_window : Z) : result float :=
  rates ← rates_of df c positions_pct recent_window;
  if (length (nonzero_rates rates) =? 0)%nat
  then Ok nan
  else Py.average rates weights.

Definition by_row_price (ascending : bool) (a b : OutBidRow) : bool :=
  by_price ascending (ob_row a) (ob_row b).

Definition base_out_bid : float := 0.1%float.

Definition out_bid_factor (df : list OutBidRow) (ascending : bool) : result float :=
  let df := Py.sort_values (by_row_price ascending) df in
  top ← Py.int (Py.of_Z (Z.of_nat (length df)) * 0.2)%float;
  let top := if top =? 0 then 1 else top in
  let avg_out_bid := Py.mean (Py.nlargest top (map out_bid_price df)) in
  Ok (avg_out_bid / base_out_bid)%float.

(** [class Recommender]: the constructor's fields.  The derived scalars are
    cached properties: functions of the fields, computed on first use. *)
Record Recommender : Type := {
  _item_id : string;
  _past_hour : list DerivedRow;
  _buy_ob : list OutBidRow;
  _sell_ob : list OutBidRow
}.

Module Recommender_.

Definition __init__ (item_id : string) (past_hour : RawHistory)
    (buy_order_book sell_order_book : list OrderRow) : result Recommender :=
  ph ← transformed_past_hour past_hour;
  Ok {| _item_id := item_id;
        _past_hour := ph;
        _buy_ob := transformed_order_book buy_order_book;
        _sell_ob := transformed_order_book sell_order_book |}.

Definition item_id (self : Recommender) : string := _item_id self.
Definition past_hour (self : Recommender) : list DerivedRow := _past_hour self.
Definition buy_orderbook (self : Recommender) : list OutBidRow := _buy_ob self.
Definition sell_orderbook (self : Recommender) : list OutBidRow := _sell_ob self.

(** The sums and quotients here are numpy float64 operations: a division
    by zero yields an infinity or NaN, it does not raise. *)
Definition wait_mins (fill_hr : float) : float :=
  if Py.neb fill_hr 0%float then (60 / fill_hr)%float else infinity.

Definition minutes_per_flip (self : Recommender) : float :=
  let df := past_hour self in
  let fill_bo_hr := Py.sum (column col_insta_sell_volume df) in
  let fill_so_hr := Py.sum (column col_insta_buy_volume df) in
  let fill_bo_wait_mins := wait_mins fill_bo_hr in
  let fill_so_wait_mins := wait_mins fill_so_hr in
  (fill_bo_wait_mins + fill_so_wait_mins)%float.

Definition profit_per_hour (self : Recommender) : float :=
  let df := past_hour self in
  let flip_wait_mins := minutes_per_flip self in
  let num_flips_hr := (60 / flip_wait_mins)%float in
  let margin_recent := Py.mean (Py.tail 6 (column col_margin df)) in
  (margin_recent * num_flips_hr)%float.

(** [-0.5 / avg_roc_per_minute] divides two Python floats, which raises
    on a zero divisor. *)
Definition truediv (a b : float) : result float :=
  if PrimFloat.eqb b 0%float then Raise ZeroDivisionError
  else Ok (a / b)%float.

Definition profit_half_life (self : Recommender) : result float :=
  let df := past_hour self in
  avg_roc_per_minute ←
    weighted_rate_of_change df col_margin positions_pct_default
      weights_default recent_window_default;
  if (0 <=? avg_roc_per_minute)%float then Ok infinity
  else
    minutes_to_half ← truediv (-0.5)%float avg_roc_per_minute;
    Ok (Py.max 0%float minutes_to_half).

Definition competitiveness (self : Recommender) : result float :=
  bo_ob_factor ←
    (if (length (_buy_ob self) =? 0)%nat then Ok 0%float
     else out_bid_factor (buy_orderbook self) false);
  so_ob_factor ←
    (if (length (_sell_ob self) =? 0)%nat then Ok 0%float
     else out_bid_factor (sell_orderbook self) true);
  Ok ((bo_ob_factor + so_ob_factor) / 2)%float.

(** The scalars that reach [score] are of two types: Python's own [float]
    and numpy's [float64], a subclass of it.  A division with a [float64]
    operand is numpy's and yields an infinity or NaN on a zero divisor; a
    division of two Python floats raises.  The functions below tell of
    each scalar whether it is a [float64]; an operation yields a [float64]
    as soon as one operand is one. *)

(** [Series.mean()] of a selection without any number is [np.nan], a
    Python float; every other mean is a [float64]. *)
Definition mean_is_float64 (col : list float) : bool :=
  negb (length (Py.dropna col) =? 0)%nat.

(** [60 / fill_hr if fill_hr != 0 else float('inf')], where [fill_hr] is
    the [float64] sum of a column. *)
Definition wait_mins_is_float64 (fill_hr : float) : bool :=
  Py.neb fill_hr 0%float.

Definition minutes_per_flip_is_float64 (self : Recommender) : bool :=
  let df := past_hour self in
  let fill_bo_hr := Py.sum (column col_insta_sell_volume df) in
  let fill_so_hr := Py.sum (column col_insta_buy_volume df) in
  wait_mins_is_float64 fill_bo_hr || wait_mins_is_float64 fill_so_hr.

(** [margin_recent * num_flips_hr], where [num_flips_hr], 60 over
    [flip_wait_mins], has the type of [flip_wait_mins]. *)
Definition profit_per_hour_is_float64 (self : Recommender) : bool :=
  let df := past_hour self in
  mean_is_float64 (Py.tail 6 (column col_margin df)) ||
  minutes_per_flip_is_float64 self.

(** [avg_out_bid / base_out_bid] has the type of [avg_out_bid], a mean. *)
Definition out_bid_factor_is_float64 (df : list OutBidRow) (ascending : bool) : bool :=
  let df := Py.sort_values (by_row_price ascending) df in
  match Py.int (Py.of_Z (Z.of_nat (length df)) * 0.2)%float with
  | Ok top =>
      let top := if top =? 0 then 1 else top in
      mean_is_float64 (Py.nlargest top (map out_bid_price df))
  | Raise _ => false
  end.

(** [(bo_ob_factor + so_ob_factor) / 2], where the factor of an empty side
    is the Python integer 0. *)
Definition competitiveness_is_float64 (self : Recommender) : bool :=
  (if (length (_buy_ob self) =? 0)%nat then false
   else out_bid_factor_is_float64 (buy_orderbook self) false) ||
  (if (length (_sell_ob self) =? 0)%nat then false
   else out_bid_factor_is_float64 (sell_orderbook self) true).

Definition competitiveness_factor : float := 0.1%float.

(** [self.profit_per_hour / (self.competitiveness * competitiveness_factor)]:
    numpy's division when one of the two is a [float64], Python's, which
    raises on a zero divisor, when both are Python floats. *)
Definition score (self : Recommender) : result float :=
  let profit_per_hour := profit_per_hour self in
  c ← competitiveness self;
  let divisor := (c * competitiveness_factor)%float in
  if profit_per_hour_is_float64 self || competitiveness_is_float64 self
  then Ok (profit_per_hour / divisor)%float
  else truediv profit_per_hour divisor.

(** The latest snapshot: the last row of the derived history.  On a
    history without rows [.iloc[-1]] raises an [IndexError]. *)
Definition buy_order_price (self : Recommender) : result float :=
  Py.iloc (column col_buy_order_price (past_hour self)) (-1).

Definition sell_order_price (self : Recommender) : result float :=
  Py.iloc (column col_sell_order_price (past_hour self)) (-1).

Definition buy_order_volume (self : Recommender) : result float :=
  Py.iloc (column col_buy_order_volume (past_hour self)) (-1).

Definition sell_order_volume (self : Recommender) : result float :=
  Py.iloc (column col_sell_order_volume (past_hour self)) (-1).

(** The weekly volumes as hourly averages. *)
Definition insta_buy_volume (self : Recommender) : float :=
  (Py.mean (column col_insta_buy_volume_week (past_hour self)) / 7 / 24)%float.

Definition insta_sell_volume (self : Recommender) : float :=
  (Py.mean (column col_insta_sell_volume_week (past_hour self)) / 7 / 24)%float.

Definition margin (self : Recommender) : result float :=
  Py.iloc (column col_margin (past_hour self)) (-1).

Definition timestamp (self : Recommender) : result Z :=
  Py.iloc (map timestamp (past_hour self)) (-1).

End Recommender_.


(* ===================================================================== *)
(** ** The world around the core: network, clock, trace and caches *)
(* ===================================================================== *)

(** A [retry-after] header value, as Python's [int()] reads it: text that
    denotes an integer, or text [int()] rejects with a [ValueError]. *)
Inductive HeaderText : Type :=
| IntText (n : Z)
| OtherText (s : string).

Definition int_of_text (t : HeaderText) : result Z :=
  match t with
  | IntText n => Ok n
  | OtherText _ => Raise ValueError
  end.

Record QuickStatus : Type := {
  sellPrice : float;
  buyPrice : float;
  buyMovingWeek : Z;
  sellMovingWeek : Z
}.

Record Product : Type := {
  quick_status : QuickStatus;
  sell_summary : list OrderRow;
  buy_summary : list OrderRow
}.

(** What [res.json()] yields: the hourly history of one item, the market
    snapshot (the items of its ["products"] dict, in order), or no JSON. *)
Inductive Body : Type :=
| JsonHistory (h : RawHistory)
| JsonBazaar (products : list (string * Product))
| NotJson.

Record Response : Type := {
  status_code : Z;
  retry_after : option HeaderText;
  body : Body
}.

(** The answer to one request: the time it took and a response, or a
    transport failure. *)
Record Reply : Type := {
  elapsed : Z;
  outcome : result Response
}.

Inductive LogLevel : Type := DEBUG | INFO | WARNING | ERROR | CRITICAL.

Inductive LogRecord : Type :=
| LogGet (url : string)
| LogRateLimited (url : string) (wait_time : Z)
| LogNotInOrderbooks (item_id : string)
| LogNotEnoughData (item_id : string)
| LogFailedHTTP (item_id : string) (status : Z)
| LogFailedUnknown (item_id : string) (e : exn)
| LogRefreshError (e : exn).

(** The steps of a refresh cycle (spec, section 4.4). *)
Inductive Phase : Type :=
| IDLE | FETCH_ELIGIBLE | FETCH_SNAPSHOT | REFRESH_ITEMS | SLEEP.

(** What the code does to the outside, in order.  [EvPhase] is a ghost
    event: it marks the step of the cycle the code has reached. *)
Inductive Event : Type :=
| EvAcquire
| EvRelease
| EvGet (url : string)
| EvSleep (seconds : Z)
| EvLog (level : LogLevel) (record : LogRecord)
| EvPhase (p : Phase).

(** [cachetools.TTLCache]: the links in order of use, the least recently
    used first, each with the time it expires at.  A link is used when its
    key is read with [cache[key]] or written; [key in cache] uses none. *)
Module TTLCache.

Record link (V : Type) : Type := Link {
  key : string;
  value : V;
  expires : Z
}.
Arguments Link {V} key value expires.
Arguments key {V} l.
Arguments value {V} l.
Arguments expires {V} l.

Definition t (V : Type) : Type := list (link V).

Section Ops.
Context {V : Type}.

Definition find (c : t V) (k : string) : option (link V) :=
  List.find (fun l => bool_decide (key l = k)) c.

(** [key in cache]: present and not expired; nothing is removed. *)
Definition contains (c : t V) (now : Z) (k : string) : bool :=
  match find c k with
  | Some l => now <? expires l
  | None => false
  end.

Definition remove (c : t V) (k : string) : t V :=
  List.filter (fun l => negb (bool_decide (key l = k))) c.

(** [__getlink(key)]: the link of the key becomes the most recently used
    one. *)
Definition touch (c : t V) (k : string) : t V :=
  match find c k with
  | Some l => remove c k ++ [l]
  | None => c
  end.

(** [cache[key]]: the value of a live link or a [KeyError], and the cache
    as the read leaves it. *)
Definition getitem (c : t V) (now : Z) (k : string) : result V * t V :=
  (match find c k with
   | Some l => if now <? expires l then Ok (value l) else Raise (KeyError k)
   | None => Raise (KeyError k)
   end,
   touch c k).

(** [expire(time)]: drop the links that are no longer live. *)
Definition expire (c : t V) (now : Z) : t V :=
  List.filter (fun l => now <? expires l) c.

(** [popitem()] until one more entry fits: the least recently used links
    go first. *)
Definition make_room (maxsize : nat) (c : t V) : t V :=
  drop (length c + 1 - maxsize)%nat c.

(** [cache[key] = value] for a cache of [maxsize] entries of size 1 and
    time-to-live [ttl]. *)
Definition setitem (maxsize : nat) (ttl : Z) (c : t V) (now : Z)
    (k : string) (v : V) : result (t V) :=
  let live := expire c now in
  if (maxsize <? 1)%nat then Raise ValueError
  else
    let kept :=
      match find live k with
      | Some _ => remove live k
      | None => make_room maxsize live
      end in
    Ok (kept ++ [Link k v (now + ttl)]).
End Ops.

End TTLCache.

Abbreviation ItemOrderbookDict := (gmap string (list OrderRow * list OrderRow)).

Record State : Type := {
  network : nat -> string -> Reply;
  requests : nat;
  clock : Z;
  trace : list Event;
  recommender_cache : TTLCache.t Recommender;
  orderbook_cache : TTLCache.t ItemOrderbookDict;
  good_products_cache : TTLCache.t (list string)
}.

(** Effectful code: a state transformer that returns or raises.  The state
    is kept when an exception is raised. *)
Definition M (A : Type) : Type := State -> result A * State.

#[global] Instance M_ret : MRet M := fun _ a s => (Ok a, s).
#[global] Instance M_bind : MBind M := fun _ _ k m s =>
  match m s with
  | (Ok a, s') => k a s'
  | (Raise e, s') => (Raise e, s')
  end.

Definition lift {A} (r : result A) : M A := fun s => (r, s).
Definition raise {A} (e : exn) : M A := lift (Raise e).
Definition gets {A} (f : State -> A) : M A := fun s => (Ok (f s), s).
Definition modify (f : State -> State) : M unit := fun s => (Ok tt, f s).

(** [try: body except Exception as e: handler(e)]. *)
Definition try_except {A} (body : M A) (handler : exn -> M A) : M A := fun s =>
  match body s with
  | (Ok a, s') => (Ok a, s')
  | (Raise e, s') => handler e s'
  end.

Definition emit (ev : Event) : M unit := modify (fun s =>
  {| network := network s; requests := requests s; clock := clock s;
     trace := trace s ++ [ev];
     recommender_cache := recommender_cache s;
     orderbook_cache := orderbook_cache s;
     good_products_cache := good_products_cache s |}).

Definition advance (dt : Z) : M unit := modify (fun s =>
  {| network := network s; requests := requests s; clock := clock s + dt;
     trace := trace s;
     recommender_cache := recommender_cache s;
     orderbook_cache := orderbook_cache s;
     good_products_cache := good_products_cache s |}).

Definition log (level : LogLevel) (r : LogRecord) : M unit := emit (EvLog level r).
Definition phase (p : Phase) : M unit := emit (EvPhase p).

(** [await asyncio.sleep(seconds)]. *)
Definition sleep (seconds : Z) : M unit :=
  _ ← emit (EvSleep seconds); advance seconds.

(** [async with self.semaphore: body]: the slot is released however the
    body ends. *)
Definition with_semaphore {A} (body : M A) : M A := fun s =>
  match emit EvAcquire s with
  | (_, s1) =>
      match body s1 with
      | (r, s2) => (r, snd (emit EvRelease s2))
      end
  end.

(** [await self.req_client.get(url)]: the world answers the request. *)
Definition http_get (url : string) : M Response := fun s =>
  let reply := network s (requests s) url in
  let s' :=
    {| network := network s; requests := S (requests s);
       clock := clock s + elapsed reply;
       trace := trace s ++ [EvGet url];
       recommender_cache := recommender_cache s;
       orderbook_cache := orderbook_cache s;
       good_products_cache := good_products_cache s |} in
  (outcome reply, s').

(** [res.raise_for_status()]: any status outside 2xx raises. *)
Definition raise_for_status (res : Response) : M unit :=
  if (200 <=? status_code res) && (status_code res <? 300) then mret tt
  else raise (HTTPStatusError (status_code res)).

(* ===================================================================== *)
(** ** core/data_client.py *)
(* ===================================================================== *)

Module DataClient.

Definition RATE_LIMIT : Z := 429.

Definition bazaar_url : string := "https://api.hypixel.net/v2/skyblock/bazaar".

Definition history_url (item_id : string) : string :=
  ("https://sky.coflnet.com/api/bazaar/" +:+ item_id +:+ "/history/hour")%string.

(** First part of [_get]: the request made while holding the slot.  The
    second component is [wait_time], bound only after a 429. *)
Definition first_attempt (url : string) : M (Response * option Z) :=
  with_semaphore (
    res ← http_get url;
    if status_code res =? RATE_LIMIT then
      let header := default (IntText 5) (retry_after res) in
      n ← lift (int_of_text header);
      let wait_time := Z.max n 5 in
      _ ← log WARNING (LogRateLimited url wait_time);
      mret (res, Some wait_time)
    else mret (res, None)).

Definition _get (url : string) : M Response :=
  _ ← log DEBUG (LogGet url);
  '(res, wait_time) ← first_attempt url;
  if status_code res =? RATE_LIMIT then
    wait_time ← lift (match wait_time with
                      | Some w => Ok w
                      | None => Raise UnboundLocalError
                      end);
    _ ← sleep wait_time;
    with_semaphore (
      res ← http_get url;
      _ ← raise_for_status res;
      mret res)
  else
    _ ← raise_for_status res;
    mret res.

Definition is_good (status : QuickStatus) : bool :=
  (1000 <=? sellPrice status)%float && (1000 <=? buyPrice status)%float &&
  (10000 <=? buyPrice status - sellPrice status)%float &&
  (200 <=? buyMovingWeek status) && (200 <=? sellMovingWeek status).

(** [data['products']] of a decoded body. *)
Definition products_of (b : Body) : result (list (string * Product)) :=
  match b with
  | JsonBazaar products => Ok products
  | JsonHistory _ => Raise TypeError
  | NotJson => Raise ValueError
  end.

Definition get_good_products : M (list string) :=
  res ← _get bazaar_url;
  products ← lift (products_of (body res));
  mret (map fst (List.filter (fun p => is_good (quick_status (snd p))) products)).

(** [pd.DataFrame(res.json())]: a snapshot body makes a frame without a
    history column. *)
Definition frame_of (b : Body) : result RawHistory :=
  match b with
  | JsonHistory h => Ok h
  | JsonBazaar _ =>
      Ok {| columns := ["success"; "lastUpdated"; "products"]%string; rows := [] |}
  | NotJson => Raise ValueError
  end.

Definition get_past_hour (item_id : string) : M RawHistory :=
  res ← _get (history_url item_id);
  lift (frame_of (body res)).

Definition get_orderbooks : M ItemOrderbookDict :=
  res ← _get bazaar_url;
  products ← lift (products_of (body res));
  mret (foldl (fun (orderbooks : ItemOrderbookDict) (p : string * Product) =>
                 let buy_orderbook := sell_summary (snd p) in
                 let sell_orderbook := buy_summary (snd p) in
                 <[fst p := (buy_orderbook, sell_orderbook)]> orderbooks)
              ∅ products).

Definition get_recommender (item_id : string) (orderbooks : ItemOrderbookDict)
    : M (option Recommender) :=
  match orderbooks !! item_id with
  | None =>
      _ ← log WARNING (LogNotInOrderbooks item_id);
      mret None
  | Some order_book =>
      try_except
        (past_hour ← get_past_hour item_id;
         recommender ← lift (Recommender_.__init__ item_id past_hour
                               (fst order_book) (snd order_book));
         mret (Some recommender))
        (fun e =>
           match e with
           | KeyError _ =>
               _ ← log WARNING (LogNotEnoughData item_id); mret None
           | HTTPStatusError status =>
               _ ← log ERROR (LogFailedHTTP item_id status); mret None
           | _ =>
               _ ← log ERROR (LogFailedUnknown item_id e); mret None
           end)
  end.

End DataClient.

(* ===================================================================== *)
(** ** core/cache_manager.py *)
(* ===================================================================== *)

Definition set_recommender_cache (c : TTLCache.t Recommender) : M unit :=
  modify (fun s =>
    {| network := network s; requests := requests s; clock := clock s;
       trace := trace s;
       recommender_cache := c;
       orderbook_cache := orderbook_cache s;
       good_products_cache := good_products_cache s |}).

Definition set_orderbook_cache (c : TTLCache.t ItemOrderbookDict) : M unit :=
  modify (fun s =>
    {| network := network s; requests := requests s; clock := clock s;
       trace := trace s;
       recommender_cache := recommender_cache s;
       orderbook_cache := c;
       good_products_cache := good_products_cache s |}).

Definition set_good_products_cache (c : TTLCache.t (list string)) : M unit :=
  modify (fun s =>
    {| network := network s; requests := requests s; clock := clock s;
       trace := trace s;
       recommender_cache := recommender_cache s;
       orderbook_cache := orderbook_cache s;
       good_products_cache := c |}).

Module RecommenderCache.

(** [TTLCache(maxsize=2000, ttl=60 * 5)]. *)
Definition maxsize : nat := 2000.
Definition ttl : Z := 60 * 5.

Definition get (item_id : string) (orderbooks : ItemOrderbookDict)
    : M (option Recommender) :=
  cache ← gets recommender_cache;
  now ← gets clock;
  if TTLCache.contains cache now item_id then
    let read := TTLCache.getitem cache now item_id in
    _ ← set_recommender_cache (snd read);
    r ← lift (fst read);
    mret (Some r)
  else
    recommender ← DataClient.get_recommender item_id orderbooks;
    _ ← match recommender with
        | Some r =>
            cache ← gets recommender_cache;
            now ← gets clock;
            cache' ← lift (TTLCache.setitem maxsize ttl cache now item_id r);
            set_recommender_cache cache'
        | None => mret tt
        end;
    mret recommender.

End RecommenderCache.

Module OrderbookCache.

(** [TTLCache(maxsize=1, ttl=60)]. *)
Definition maxsize : nat := 1.
Definition ttl : Z := 60.

Definition get : M ItemOrderbookDict :=
  cache ← gets orderbook_cache;
  now ← gets clock;
  if TTLCache.contains cache now "_" then
    let read := TTLCache.getitem cache now "_" in
    _ ← set_orderbook_cache (snd read);
    lift (fst read)
  else
    orderbooks ← DataClient.get_orderbooks;
    cache ← gets orderbook_cache;
    now ← gets clock;
    cache' ← lift (TTLCache.setitem maxsize ttl cache now "_" orderbooks);
    _ ← set_orderbook_cache cache';
    mret orderbooks.

End OrderbookCache.

Module GoodProductsCache.

(** [TTLCache(maxsize=1, ttl=60)]. *)
Definition maxsize : nat := 1.
Definition ttl : Z := 60.

Definition get : M (list string) :=
  cache ← gets good_products_cache;
  now ← gets clock;
  if TTLCache.contains cache now "_" then
    let read := TTLCache.getitem cache now "_" in
    _ ← set_good_products_cache (snd read);
    lift (fst read)
  else
    items ← DataClient.get_good_products;
    cache ← gets good_products_cache;
    now ← gets clock;
    cache' ← lift (TTLCache.setitem maxsize ttl cache now "_" items);
    _ ← set_good_products_cache cache';
    mret items.

End GoodProductsCache.

Module CacheManager.

(** [for item_id in item_ids: await self.recommender_cache.get(...)]. *)
Fixpoint refresh_items (item_ids : list string) (orderbooks : ItemOrderbookDict)
    : M unit :=
  match item_ids with
  | [] => mret tt
  | item_id :: rest =>
      _ ← RecommenderCache.get item_id orderbooks;
      refresh_items rest orderbooks
  end.

Definition refresh : M unit :=
  _ ← phase FETCH_ELIGIBLE;
  item_ids ← GoodProductsCache.get;
  _ ← phase FETCH_SNAPSHOT;
  orderbooks ← OrderbookCache.get;
  _ ← phase REFRESH_ITEMS;
  refresh_items item_ids orderbooks.

(** [get_recommender]: the cached recommender of an item, if there is a
    live one; nothing is fetched, the link read becomes the most recently
    used. *)
Definition get_recommender (item_id : string) : M (option Recommender) :=
  cache ← gets recommender_cache;
  now ← gets clock;
  if negb (TTLCache.contains cache now item_id) then mret None
  else
    let read := TTLCache.getitem cache now item_id in
    _ ← set_recommender_cache (snd read);
    r ← lift (fst read);
    mret (Some r).

(** [for item_id in item_ids: if item_id in cache:
    recommenders.append(cache[item_id])]. *)
Fixpoint cached_recommenders (item_ids : list string)
    (recommenders : list Recommender) : M (list Recommender) :=
  match item_ids with
  | [] => mret recommenders
  | item_id :: rest =>
      cache ← gets recommender_cache;
      now ← gets clock;
      if TTLCache.contains cache now item_id then
        let read := TTLCache.getitem cache now item_id in
        _ ← set_recommender_cache (snd read);
        r ← lift (fst read);
        cached_recommenders rest (recommenders ++ [r])
      else cached_recommenders rest recommenders
  end.

Definition get_recommenders : M (list Recommender) :=
  item_ids ← GoodProductsCache.get;
  cached_recommenders item_ids [].

End CacheManager.

(* ===================================================================== *)
(** ** api/app.py: the refresh loop *)
(* ===================================================================== *)

(** One turn of [while True]. *)
Definition refresh_loop_body : M unit :=
  _ ← phase IDLE;
  try_except CacheManager.refresh
    (fun e =>
       _ ← log CRITICAL (LogRefreshError e);
       _ ← phase SLEEP;
       sleep 5).

(** The first [turns] turns of [refresh_loop]. *)
Fixpoint refresh_loop (turns : nat) : M unit :=
  match turns with
  | O => mret tt
  | S k => _ ← refresh_loop_body; refresh_loop k
  end.

(* ===================================================================== *)
(** ** Definitions that follow the spec's words, and sample inputs *)
(* ===================================================================== *)

(** Spec, section 4.5, [minutes_per_flip]: the volume of one instant side
    summed over the full history window (a row without a value adds
    nothing), and the average wait it converts to. *)
Definition window_volume (volume : DerivedRow -> float) (df : list DerivedRow) : float :=
  fold_left (fun acc r => if PrimFloat.is_nan (volume r) then acc
                          else (acc + volume r)%float) df 0%float.

Definition wait_time (volume_sum : float) : float :=
  if PrimFloat.eqb volume_sum 0%float then infinity else (60 / volume_sum)%float.

Definition minutes_per_flip_spec (df : list DerivedRow) : float :=
  (wait_time (window_volume insta_sell_volume df) +
   wait_time (window_volume insta_buy_volume df))%float.

(** [top = int(len(df) * 0.2)], and 1 when that is 0. *)
Definition top_count (n : nat) : result Z :=
  top ← Py.int (Py.of_Z (Z.of_nat n) * 0.2)%float;
  Ok (if top =? 0 then 1 else top).

(** Spec, section 4.5, [competitiveness], as it is worded: each side is
    sorted toward its best price first (buy side descending, sell side
    ascending); the out-bid amount of a row is the distance between its
    price and the price of the row before it in that order (the first row
    has none); the side's factor is the mean of the top 20% largest
    amounts, at least one row, over 0.1; an empty side counts 0. *)
Definition out_bid_amounts (prices : list float) : list float :=
  map PrimFloat.abs (Py.diff prices).

Definition side_factor_spec (ascending : bool) (book : list OrderRow) : result float :=
  match book with
  | [] => Ok 0%float
  | _ =>
      let sorted := Py.sort_values (by_price ascending) book in
      let amounts := out_bid_amounts (map pricePerUnit sorted) in
      top ← top_count (length book);
      Ok (Py.mean (Py.nlargest top amounts) / 0.1)%float
  end.

Definition competitiveness_spec (buy_book sell_book : list OrderRow) : result float :=
  bo ← side_factor_spec false buy_book;
  so ← side_factor_spec true sell_book;
  Ok ((bo + so) / 2)%float.

(** What the code computes for one side: the deltas are taken once, with
    the prices in ascending order, and stay with their rows when the rows
    are sorted again for the side. *)
Definition side_factor_ascending_deltas (ascending : bool) (book : list OrderRow)
    : result float :=
  match book with
  | [] => Ok 0%float
  | _ =>
      let by_ascending_price := Py.sort_values (by_price true) book in
      let rows := with_out_bid by_ascending_price in
      let reordered := Py.sort_values (by_row_price ascending) rows in
      top ← top_count (length book);
      Ok (Py.mean (Py.nlargest top (map out_bid_price reordered)) / 0.1)%float
  end.

Definition competitiveness_ascending_deltas (buy_book sell_book : list OrderRow)
    : result float :=
  bo ← side_factor_ascending_deltas false buy_book;
  so ← side_factor_ascending_deltas true sell_book;
  Ok ((bo + so) / 2)%float.

(** A synthetic hourly history: [n] rows, 20 seconds apart, with the same
    prices and the same weekly volumes in every row. *)
Definition history_columns : list string := ("timestamp" :: fill_cols)%string.

Definition flat_row (buy sell week : float) (i : nat) : RawRow :=
  {| r_timestamp := 20 * Z.of_nat i;
     r_buy := buy; r_sell := sell;
     r_buyVolume := 1%float; r_sellVolume := 1%float;
     r_buyMovingWeek := week; r_sellMovingWeek := week |}.

Definition flat_history (n : nat) (buy sell week : float) : RawHistory :=
  {| columns := history_columns;
     rows := map (flat_row buy sell week) (seq 0 n) |}.

Definition order (price : float) : OrderRow :=
  {| amount := 1; pricePerUnit := price; orders := 1 |}.

(** Rows in range of the default positions of [weighted_rate_of_change]. *)
Definition in_range (n p : Z) : bool := (0 <=? p) && (p <? n).

(** The integer part of [a * 2^j]. *)
Definition scaled (a j : Z) : Z :=
  if 0 <=? j then a * 2 ^ j else a / 2 ^ (- j).

(** Floats that are a zero or not-a-number. *)
Inductive zero_or_nan (x : float) : Prop :=
| is_pos_zero : x = 0%float -> zero_or_nan x
| is_neg_zero : x = (-0)%float -> zero_or_nan x
| is_a_nan : x = nan -> zero_or_nan x.

(** An interval volume that records no trade: no value (first row) or 0. *)
Definition no_volume (x : float) : bool :=
  PrimFloat.is_nan x || PrimFloat.eqb x 0%float.

(** The claims' 60-row history: sell orders at 1800, buy orders at 1000, so
    a margin of 800 * (1 - 0.01125) = 791 in every row, and weekly volumes
    that do not move. *)
Definition steady_history : RawHistory := flat_history 60 1800 1000 5000.

(** The [retry-after] hint of a rate-limited response, when the header is
    absent (the default, 5) or holds an integer. *)
Definition hint_of (header : option HeaderText) : option Z :=
  match header with
  | None => Some 5
  | Some (IntText n) => Some n
  | Some (OtherText _) => None
  end.

(** What a response becomes once [raise_for_status] has looked at it. *)
Definition checked (reply : Reply) : result Response :=
  match outcome reply with
  | Ok res =>
      if (200 <=? status_code res) && (status_code res <? 300) then Ok res
      else Raise (HTTPStatusError (status_code res))
  | Raise e => Raise e
  end.

(** The ghost steps among some events, and the sleeps. *)
Definition phases_of (evs : list Event) : list Phase :=
  omap (fun ev => match ev with EvPhase p => Some p | _ => None end) evs.

Definition sleeps_of (evs : list Event) : list Z :=
  omap (fun ev => match ev with EvSleep n => Some n | _ => None end) evs.

(** The three caches of two states hold the same links. *)
Definition same_caches (s s' : State) : Prop :=
  recommender_cache s' = recommender_cache s /\
  orderbook_cache s' = orderbook_cache s /\
  good_products_cache s' = good_products_cache s.

(** The second state continues the first: its trace extends the first
    one's by events that mark no step of the cycle. *)
Definition quiet_step (s s' : State) : Prop :=
  exists evs, trace s' = trace s ++ evs /\ phases_of evs = [].

(** A sample world: the snapshot lists one eligible item, every request is
    answered at once with status 200. *)
Definition sample_product : Product :=
  {| quick_status := {| sellPrice := 1000; buyPrice := 20000;
                        buyMovingWeek := 500; sellMovingWeek := 500 |};
     sell_summary := [order 100; order 101];
     buy_summary := [order 103; order 105] |}.

Definition respond (status : Z) (header : option HeaderText) (b : Body) : Reply :=
  {| elapsed := 1;
     outcome := Ok {| status_code := status; retry_after := header; body := b |} |}.

Definition body_for (url : string) : Body :=
  if String.eqb url DataClient.bazaar_url
  then JsonBazaar [("ENCHANTED_DIAMOND"%string, sample_product)]
  else JsonHistory steady_history.

Definition calm_network (n : nat) (url : string) : Reply :=
  respond 200 None (body_for url).

(** The same world, but the first two requests are rate-limited (the first
    with [retry-after: 2]). *)
Definition limited_network (n : nat) (url : string) : Reply :=
  match n with
  | O => respond 429 (Some (IntText 2)) NotJson
  | S O => respond 429 None NotJson
  | _ => respond 200 None (body_for url)
  end.

(** The same world, but every request fails with status 500. *)
Definition failing_network (n : nat) (url : string) : Reply :=
  respond 500 None NotJson.

Definition start (net : nat -> string -> Reply) : State :=
  {| network := net; requests := 0; clock := 0; trace := [];
     recommender_cache := []; orderbook_cache := []; good_products_cache := [] |}.

(** The state after [n] more requests, [dt] more time and the events
    [evs]; the caches are those of [s]. *)
Definition after (s : State) (n : nat) (dt : Z) (evs : list Event) : State :=
  {| network := network s; requests := requests s + n;
     clock := clock s + dt;
     trace := trace s ++ evs;
     recommender_cache := recommender_cache s;
     orderbook_cache := orderbook_cache s;
     good_products_cache := good_products_cache s |}.

(** The state once a key of a cache has been read there: its link is the
    most recently used one. *)
Definition touch_recommender (s : State) (item_id : string) : State :=
  {| network := network s; requests := requests s; clock := clock s;
     trace := trace s;
     recommender_cache := TTLCache.touch (recommender_cache s) item_id;
     orderbook_cache := orderbook_cache s;
     good_products_cache := good_products_cache s |}.

Definition touch_orderbooks (s : State) : State :=
  {| network := network s; requests := requests s; clock := clock s;
     trace := trace s;
     recommender_cache := recommender_cache s;
     orderbook_cache := TTLCache.touch (orderbook_cache s) "_";
     good_products_cache := good_products_cache s |}.

Definition touch_good_products (s : State) : State :=
  {| network := network s; requests := requests s; clock := clock s;
     trace := trace s;
     recommender_cache := recommender_cache s;
     orderbook_cache := orderbook_cache s;
     good_products_cache := TTLCache.touch (good_products_cache s) "_" |}.

(** What constructing the item yields in state [s]: the recommender when
    the item has order books, its history is fetched and [__init__]
    returns; nothing otherwise. *)
Definition construction (item_id : string) (orderbooks : ItemOrderbookDict)
    (s : State) : option Recommender :=
  match orderbooks !! item_id with
  | None => None
  | Some order_book =>
      match DataClient.get_past_hour item_id s with
      | (Ok past_hour, _) =>
          match Recommender_.__init__ item_id past_hour
                  (fst order_book) (snd order_book) with
          | Ok r => Some r
          | Raise _ => None
          end
      | (Raise _, _) => None
      end
  end.

(** The live entries of a cache under one key. *)
Definition entries_of {V} (c : TTLCache.t V) (k : string) : list (TTLCache.link V) :=
  List.filter (fun l => bool_decide (TTLCache.key l = k)) c.

(** The cycle as the spec draws it: every turn ends in SLEEP. *)
Definition claimed_cycle : list Phase :=
  [IDLE; FETCH_ELIGIBLE; FETCH_SNAPSHOT; REFRESH_ITEMS; SLEEP].

(** The steps of a turn that completes, and of a turn that an exception
    cuts short while the eligible items or the snapshot are fetched. *)
Definition completed_cycle : list Phase :=
  [IDLE; FETCH_ELIGIBLE; FETCH_SNAPSHOT; REFRESH_ITEMS].

Definition aborted_cycle (ps : list Phase) : Prop :=
  ps = [IDLE; FETCH_ELIGIBLE; SLEEP] \/
  ps = [IDLE; FETCH_ELIGIBLE; FETCH_SNAPSHOT; SLEEP].

Definition is_idle (p : Phase) : bool :=
  match p with IDLE => true | _ => false end.

(** [m] takes every state to one related to it by [R]. *)
Definition respects (R : State -> State -> Prop) {A} (m : M A) : Prop :=
  forall s, R s (snd (m s)).

Definition not_phase (ev : Event) : Prop :=
  match ev with EvPhase _ => False | _ => True end.

(* ===================================================================== *)
(** ** What the properties of the remaining code are stated with *)
(* ===================================================================== *)

(** A status that [raise_for_status] lets through. *)
Definition is_success (status : Z) : bool :=
  (200 <=? status) && (status <? 300).

(** The request slot along some events: [held] before them, the result
    after them; [None] when a slot is taken twice or released while free,
    a request is made without the slot, or a sleep starts with it. *)
Fixpoint slot_after (held : bool) (evs : list Event) : option bool :=
  match evs with
  | [] => Some held
  | EvAcquire :: evs' => if held then None else slot_after true evs'
  | EvRelease :: evs' => if held then slot_after false evs' else None
  | EvGet _ :: evs' => if held then slot_after held evs' else None
  | EvSleep _ :: evs' => if held then None else slot_after held evs'
  | _ :: evs' => slot_after held evs'
  end.

(** The second state continues the first by events that use the slot
    properly and leave it free. *)
Definition slot_discipline (s s' : State) : Prop :=
  exists evs, trace s' = trace s ++ evs /\ slot_after false evs = Some false.

(** The value a cache serves under a key at a time, if any. *)
Definition live {V} (c : TTLCache.t V) (now : Z) (k : string) : option V :=
  match TTLCache.find c k with
  | Some l => if now <? TTLCache.expires l then Some (TTLCache.value l) else None
  | None => None
  end.

Definition keys_of {V} (c : TTLCache.t V) : list string := TTLCache.key <$> c.

(** No cache holds more entries than its [maxsize], nor two under a key. *)
Definition within_capacity (s : State) : Prop :=
  (length (recommender_cache s) <= RecommenderCache.maxsize)%nat /\
  (length (orderbook_cache s) <= OrderbookCache.maxsize)%nat /\
  (length (good_products_cache s) <= GoodProductsCache.maxsize)%nat /\
  NoDup (keys_of (recommender_cache s)) /\
  NoDup (keys_of (orderbook_cache s)) /\
  NoDup (keys_of (good_products_cache s)).

(** Every cached recommender sits under the identifier it was built for. *)
Definition keyed_by_item (s : State) : Prop :=
  Forall (fun l => Recommender_.item_id (TTLCache.value l) = TTLCache.key l)
         (recommender_cache s).

(** Signs of floats: at least zero, and that or not-a-number. *)
Definition not_negative (x : float) : bool := (0 <=? x)%float.

Definition nan_or_not_negative (x : float) : bool :=
  PrimFloat.is_nan x || not_negative x.

(** The service's field behind each forward-filled column (the rename of
    [transformed_past_hour]). *)
Definition raw_of (c : Column) : option (RawRow -> float) :=
  match c with
  | col_buy_order_price => Some r_sell
  | col_sell_order_price => Some r_buy
  | col_buy_order_volume => Some r_sellVolume
  | col_sell_order_volume => Some r_buyVolume
  | col_insta_buy_volume_week => Some r_buyMovingWeek
  | col_insta_sell_volume_week => Some r_sellMovingWeek
  | _ => None
  end.

(** Floats that denote the same number: the same float, or two zeros of
    either sign; as a test on floats and on their IEEE-754 forms. *)
Definition same_number (x y : float) : bool :=
  (PrimFloat.is_nan x && PrimFloat.is_nan y) || PrimFloat.eqb x y.

Definition SF_same (a b : spec_float) : Prop :=
  a = b \/ exists s s', a = S754_zero s /\ b = S754_zero s'.

(** The differences between consecutive entries of a column. *)
Definition gaps (col : list float) : list float :=
  match col with
  | [] => []
  | x :: col' => Py.diff_from x col'
  end.

(** How many entries of a list are equivalent to [z]. *)
Definition count_of {A} (eqv : A -> A -> bool) (z : A) (l : list A) : nat :=
  length (List.filter (eqv z) l).

(** Each element is related to the next one. *)
Fixpoint chained {A} (le : A -> A -> bool) (l : list A) : bool :=
  match l with
  | a :: (b :: _) as l' => le a b && chained le l'
  | _ => true
  end.

(** Three rows of a history, latest first, the middle one without prices. *)
Definition shuffled_history : RawHistory :=
  {| columns := history_columns;
     rows := [ {| r_timestamp := 40; r_buy := 1810; r_sell := 1000;
                  r_buyVolume := 7; r_sellVolume := 9;
                  r_buyMovingWeek := 5030; r_sellMovingWeek := 6010 |};
               {| r_timestamp := 20; r_buy := nan; r_sell := nan;
                  r_buyVolume := nan; r_sellVolume := nan;
                  r_buyMovingWeek := nan; r_sellMovingWeek := nan |};
               {| r_timestamp := 0; r_buy := 1800; r_sell := 990;
                  r_buyVolume := 5; r_sellVolume := 8;
                  r_buyMovingWeek := 5000; r_sellMovingWeek := 6000 |} ] |}.

(** [s'] has the property [I] if [s] has it. *)
Definition keeps (I : State -> Prop) (s s' : State) : Prop := I s -> I s'.

(** Warm caches: the eligible items and the order books are cached, and so
    is the recommender of every eligible item. *)
Definition warm (s : State) : Prop :=
  exists item_ids orderbooks,
    live (good_products_cache s) (clock s) "_" = Some item_ids /\
    live (orderbook_cache s) (clock s) "_" = Some orderbooks /\
    Forall (fun item_id => is_Some (live (recommender_cache s) (clock s) item_id))
           item_ids.

(** The state once the items have been looked up in turn in the item
    cache: each one that has a live recommender is read. *)
Definition read_recommenders (s : State) (item_ids : list string) : State :=
  foldl (fun s item_id =>
           if TTLCache.contains (recommender_cache s) (clock s) item_id
           then touch_recommender s item_id else s)
        s item_ids.

(** The caches of the second state serve what those of the first serve,
    whatever the key and the time. *)
Definition serves_same (s s' : State) : Prop :=
  (forall now k, live (recommender_cache s') now k = live (recommender_cache s) now k) /\
  (forall now k, live (orderbook_cache s') now k = live (orderbook_cache s) now k) /\
  (forall now k, live (good_products_cache s') now k = live (good_products_cache s) now k).

(** The ghost steps of a turn that completes, as events. *)
Definition completed_turn : list Event := map EvPhase completed_cycle.

(** Floats that are at least zero, read off their IEEE-754 form: a zero
    of either sign, a finite number or the infinity with the sign bit
    clear. *)
Inductive SF_not_negative : spec_float -> Prop :=
| nn_zero (s : bool) : SF_not_negative (S754_zero s)
| nn_finite (m : positive) (e : Z) : SF_not_negative (S754_finite false m e)
| nn_infinity : SF_not_negative (S754_infinity false).

(** A rounded value carries the sign it was given. *)
Inductive SF_signed (s : bool) : spec_float -> Prop :=
| signed_zero : SF_signed s (S754_zero s)
| signed_finite (m : positive) (e : Z) : SF_signed s (S754_finite s m e)
| signed_infinity : SF_signed s (S754_infinity s).

(* ===================================================================== *)
(** ** Results and the monads *)
(* ===================================================================== *)

Lemma result_bind_Ok {A B} (r : result A) (k : A -> result B) (b : B) :
  r ≫= k = Ok b -> exists a, r = Ok a /\ k a = Ok b.
Proof. destruct r as [a | e]; cbn; [eauto | discriminate]. Qed.

(* ===================================================================== *)
(** ** Floats: zeros and not-a-number *)
(* ===================================================================== *)

Lemma SF_zero_or_nan (x : float) :
  (Prim2SF x = S754_nan \/ exists s, Prim2SF x = S754_zero s) -> zero_or_nan x.
Proof.
  intros H. rewrite <- (SF2Prim_Prim2SF x).
  destruct H as [-> | [[] ->]]; cbn.
  - by apply is_a_nan.
  - by apply is_neg_zero.
  - by apply is_pos_zero.
Qed.

Lemma sub_self (m : float) : zero_or_nan (m - m)%float.
Proof.
  apply SF_zero_or_nan. rewrite sub_spec.
  destruct (Prim2SF m) as [[] | [] | | s mm e]; cbn; eauto.
  right. unfold SF64sub, SFsub. rewrite Z.sub_diag. cbn. eauto.
Qed.

Lemma zero_or_nan_div (z y : float) : zero_or_nan z -> zero_or_nan (z / y)%float.
Proof.
  intros Hz. apply SF_zero_or_nan. rewrite div_spec.
  destruct Hz as [-> | -> | ->]; cbn;
    destruct (Prim2SF y) as [[] | [] | | [] mm e]; cbn; eauto.
Qed.

Lemma finite_SF (m : float) :
  PrimFloat.is_finite m = true ->
  (exists s, Prim2SF m = S754_zero s) \/
  (exists s mm e, Prim2SF m = S754_finite s mm e).
Proof.
  unfold PrimFloat.is_finite, Prim2SF. intros H.
  destruct (PrimFloat.is_nan m); [done |].
  destruct (PrimFloat.is_infinity m); [done |].
  destruct (PrimFloat.is_zero m); [eauto |].
  destruct (Z.frexp m) as [r ex].
  destruct (shr_fexp _ _ _ _ _) as [sh e'].
  destruct (shr_m sh); eauto 6.
Qed.

Lemma finite_mul_zero (m : float) :
  PrimFloat.is_finite m = true -> PrimFloat.eqb (m * 0)%float 0%float = true.
Proof.
  intros H. rewrite eqb_spec, mul_spec.
  destruct (finite_SF m H) as [[s ->] | (s & mm & e & ->)]; reflexivity.
Qed.

(* ===================================================================== *)
(** ** Floats: rounding of products, and positions in range *)
(* ===================================================================== *)

(** Digits of a positive number. *)
Lemma digits2_pos_bounds (p : positive) :
  2 ^ (Z.pos (digits2_pos p) - 1) <= Z.pos p < 2 ^ Z.pos (digits2_pos p).
Proof.
  induction p as [p IH | p IH |]; cbn [digits2_pos].
  - rewrite Pos2Z.inj_succ.
    replace (Z.succ (Z.pos (digits2_pos p)) - 1) with (Z.succ (Z.pos (digits2_pos p) - 1)) by lia.
    rewrite !Z.pow_succ_r by lia. lia.
  - rewrite Pos2Z.inj_succ.
    replace (Z.succ (Z.pos (digits2_pos p)) - 1) with (Z.succ (Z.pos (digits2_pos p) - 1)) by lia.
    rewrite !Z.pow_succ_r by lia. lia.
  - cbn. lia.
Qed.

Lemma digits2_pos_unique (p : positive) (d : Z) :
  2 ^ (d - 1) <= Z.pos p < 2 ^ d -> Z.pos (digits2_pos p) = d.
Proof.
  intros [Hlo Hhi]. pose proof (digits2_pos_bounds p) as [Blo Bhi].
  assert (0 < d) as Hd.
  { destruct (Z.le_gt_cases d 0) as [H | H]; [| exact H].
    assert (2 ^ d <= 2 ^ 0) by (apply Z.pow_le_mono_r; lia). cbn in *. lia. }
  destruct (Z.lt_trichotomy (Z.pos (digits2_pos p)) d) as [H | [H | H]]; [| exact H |].
  - assert (2 ^ Z.pos (digits2_pos p) <= 2 ^ (d - 1)) by (apply Z.pow_le_mono_r; lia). lia.
  - assert (2 ^ d <= 2 ^ (Z.pos (digits2_pos p) - 1)) by (apply Z.pow_le_mono_r; lia). lia.
Qed.

(** Halving a shift record. *)
Lemma shr_1_m (mrs : shr_record) :
  0 <= shr_m mrs -> shr_m (shr_1 mrs) = shr_m mrs / 2.
Proof.
  destruct mrs as [m r s]. cbn [shr_m]. intros H.
  destruct m as [| [p | p |] | p]; cbn [shr_1 shr_m]; try lia.
  - reflexivity.
  - apply Z.div_unique with 1; lia.
  - apply Z.div_unique with 0; lia.
  - reflexivity.
Qed.

Lemma pow2_xO (p : positive) : 2 ^ Z.pos p~0 = 2 ^ Z.pos p * 2 ^ Z.pos p.
Proof. rewrite <- Z.pow_add_r by lia. f_equal. lia. Qed.

Lemma pow2_xI (p : positive) : 2 ^ Z.pos p~1 = 2 * (2 ^ Z.pos p * 2 ^ Z.pos p).
Proof.
  rewrite <- Z.pow_add_r, <- Z.pow_succ_r by lia. f_equal. lia.
Qed.

Lemma iter_pos_shr_1_m (p : positive) (mrs : shr_record) :
  0 <= shr_m mrs ->
  shr_m (iter_pos shr_1 p mrs) = shr_m mrs / 2 ^ Z.pos p.
Proof.
  revert mrs. induction p as [p IH | p IH |]; intros mrs H; cbn [iter_pos].
  - assert (0 < 2 ^ Z.pos p) as Hp by (apply Z.pow_pos_nonneg; lia).
    assert (0 <= shr_m (shr_1 mrs)) as H1
      by (rewrite shr_1_m by exact H; apply Z.div_pos; lia).
    assert (0 <= shr_m (iter_pos shr_1 p (shr_1 mrs))) as H2
      by (rewrite IH by exact H1; apply Z.div_pos; lia).
    rewrite IH by exact H2. rewrite IH by exact H1. rewrite shr_1_m by exact H.
    rewrite !Z.div_div by lia. f_equal. rewrite pow2_xI. lia.
  - assert (0 < 2 ^ Z.pos p) as Hp by (apply Z.pow_pos_nonneg; lia).
    assert (0 <= shr_m (iter_pos shr_1 p mrs)) as H2
      by (rewrite IH by exact H; apply Z.div_pos; lia).
    rewrite IH by exact H2. rewrite IH by exact H.
    rewrite !Z.div_div by lia. f_equal. by rewrite pow2_xO.
  - rewrite shr_1_m by exact H. reflexivity.
Qed.

Lemma round_nearest_even_bounds (m : Z) (l : location) :
  m <= round_nearest_even m l <= m + 1.
Proof.
  destruct l as [| []]; cbn; try lia. destruct (Z.even m); lia.
Qed.

(** Rounding a long positive mantissa to 53 bits: the result is finite,
    and at most one unit in the last place above the exact value. *)
Lemma binary_round_aux_long (mx : positive) (ex : Z) (k : positive) :
  Z.pos (digits2_pos mx) = 53 + Z.pos k ->
  -1074 <= ex + Z.pos k -> ex + Z.pos k + 1 <= 971 ->
  exists m e,
    binary_round_aux prec emax false (Z.pos mx) ex loc_Exact = S754_finite false m e /\
    ((e = ex + Z.pos k /\ Z.pos m <= Z.pos mx / 2 ^ Z.pos k + 1) \/
     (e = ex + Z.pos k + 1 /\ 2 * Z.pos m <= Z.pos mx / 2 ^ Z.pos k + 1)).
Proof.
  intros Hd Hlo Hhi.
  pose proof (digits2_pos_bounds mx) as [Blo Bhi]. rewrite Hd in Blo, Bhi.
  assert (0 < 2 ^ Z.pos k) as Hk by (apply Z.pow_pos_nonneg; lia).
  set (q := Z.pos mx / 2 ^ Z.pos k).
  assert (2 ^ 52 <= q < 2 ^ 53) as Hq.
  { unfold q. split.
    - apply Z.div_le_lower_bound; [lia |].
      replace (53 + Z.pos k - 1) with (Z.pos k + 52) in Blo by lia.
      rewrite Z.pow_add_r in Blo by lia. lia.
    - apply Z.div_lt_upper_bound; [lia |].
      replace (53 + Z.pos k) with (Z.pos k + 53) in Bhi by lia.
      rewrite Z.pow_add_r in Bhi by lia. lia. }
  unfold binary_round_aux.
  (* first shift *)
  assert (shr_fexp prec emax (Z.pos mx) ex loc_Exact
          = (iter_pos shr_1 k (Build_shr_record (Z.pos mx) false false),
             ex + Z.pos k)) as ->.
  { unfold shr_fexp, shr_record_of_loc, fexp, emin, Zdigits2. rewrite Hd.
    replace (Z.max (53 + Z.pos k + ex - prec) (3 - emax - prec) - ex)
      with (Z.pos k) by (unfold prec, emax; lia).
    reflexivity. }
  set (mrs := iter_pos shr_1 k _).
  assert (shr_m mrs = q) as Hm
    by (unfold mrs; rewrite iter_pos_shr_1_m by (cbn; lia); reflexivity).
  pose proof (round_nearest_even_bounds (shr_m mrs) (loc_of_shr_record mrs)) as Hr.
  set (m' := round_nearest_even (shr_m mrs) (loc_of_shr_record mrs)) in *.
  rewrite Hm in Hr.
  destruct m' as [| pm | pm] eqn:Em; try lia.
  destruct (Z.eq_dec (Z.pos pm) (2 ^ 53)) as [Hc | Hc].
  - (* the rounding carried into a 54th bit *)
    assert (Z.pos (digits2_pos pm) = 54) as Hd'
      by (apply digits2_pos_unique; rewrite Hc; cbn; lia).
    assert (shr_fexp prec emax (Z.pos pm) (ex + Z.pos k) loc_Exact
            = (shr_1 (Build_shr_record (Z.pos pm) false false),
               ex + Z.pos k + 1)) as ->.
    { unfold shr_fexp, shr_record_of_loc, fexp, emin, Zdigits2. rewrite Hd'.
      replace (Z.max (54 + (ex + Z.pos k) - prec) (3 - emax - prec) - (ex + Z.pos k))
        with 1 by (unfold prec, emax; lia).
      reflexivity. }
    rewrite shr_1_m by (cbn; lia). cbn [shr_m]. rewrite Hc.
    change (2 ^ 53 / 2) with (Z.pos 4503599627370496).
    destruct (ex + Z.pos k + 1 <=? emax - prec) eqn:E;
      [| apply Z.leb_gt in E; unfold emax, prec in E; lia].
    eexists _, _. split; [reflexivity |]. right. split; [done |]. fold q. lia.
  - assert (Z.pos (digits2_pos pm) = 53) as Hd'
      by (apply digits2_pos_unique; cbn in *; lia).
    assert (shr_fexp prec emax (Z.pos pm) (ex + Z.pos k) loc_Exact
            = (Build_shr_record (Z.pos pm) false false, ex + Z.pos k)) as ->.
    { unfold shr_fexp, shr_record_of_loc, fexp, emin, Zdigits2. rewrite Hd'.
      replace (Z.max (53 + (ex + Z.pos k) - prec) (3 - emax - prec) - (ex + Z.pos k))
        with 0 by (unfold prec, emax; lia).
      reflexivity. }
    cbn [shr_m].
    destruct (ex + Z.pos k <=? emax - prec) eqn:E;
      [| apply Z.leb_gt in E; unfold emax, prec in E; lia].
    eexists _, _. split; [reflexivity |]. left. split; [done |]. fold q. lia.
Qed.

Lemma iter_xO_value (p : positive) (d : positive) :
  Z.pos (Pos.iter xO p d) = Z.pos p * 2 ^ Z.pos d.
Proof.
  revert p. induction d as [d IH | d IH |]; intros p; cbn [Pos.iter].
  - rewrite Pos2Z.inj_xO, !IH, pow2_xI. lia.
  - rewrite !IH, pow2_xO. lia.
  - rewrite Pos2Z.inj_xO. lia.
Qed.

(** A mantissa of exactly 53 bits with a small exponent is kept as it is. *)
Lemma binary_round_aux_exact (m : positive) (e : Z) :
  Z.pos (digits2_pos m) = 53 -> -1074 <= e <= 971 ->
  binary_round_aux prec emax false (Z.pos m) e loc_Exact = S754_finite false m e.
Proof.
  intros Hd He. unfold binary_round_aux.
  assert (shr_fexp prec emax (Z.pos m) e loc_Exact
          = (Build_shr_record (Z.pos m) false false, e)) as Hs.
  { unfold shr_fexp, shr_record_of_loc, fexp, emin, Zdigits2. rewrite Hd.
    replace (Z.max (53 + e - prec) (3 - emax - prec) - e)
      with 0 by (unfold prec, emax; lia).
    reflexivity. }
  rewrite Hs. cbn [shr_m loc_of_shr_record round_nearest_even]. rewrite Hs.
  cbn [shr_m].
  destruct (e <=? emax - prec) eqn:E;
    [done | apply Z.leb_gt in E; unfold emax, prec in E; lia].
Qed.

(** [float(n)] is exact below 2^53: a 53-bit mantissa [n * 2^t] with
    exponent [-t]. *)
Lemma of_Z_exact (n : Z) :
  1 <= n < 2 ^ 53 ->
  exists (m : positive) (t : Z),
    Prim2SF (Py.of_Z n) = S754_finite false m (- t) /\
    0 <= t <= 52 /\ Z.pos m = n * 2 ^ t /\ 2 ^ 52 <= Z.pos m < 2 ^ 53.
Proof.
  intros Hn. destruct n as [| pn | pn]; try lia.
  pose proof (digits2_pos_bounds pn) as [Blo Bhi].
  set (d := Z.pos (digits2_pos pn)) in *.
  assert (1 <= d <= 53) as Hd.
  { split; [unfold d; lia |].
    destruct (Z.le_gt_cases d 53) as [H | H]; [exact H |].
    assert (2 ^ 53 <= 2 ^ (d - 1)) by (apply Z.pow_le_mono_r; lia). lia. }
  assert (exists m t,
            binary_normalize prec emax (Z.pos pn) 0 false = S754_finite false m (- t) /\
            0 <= t <= 52 /\ Z.pos m = Z.pos pn * 2 ^ t /\
            Z.pos (digits2_pos m) = 53) as (m & t & Hb & Ht & Hm & Hdm).
  { unfold binary_normalize, binary_round, shl_align, fexp, emin.
    rewrite Z.add_0_r. fold d.
    replace (Z.max (d - prec) (3 - emax - prec) - 0) with (d - 53)
      by (unfold prec, emax; lia).
    replace (Z.max (d - prec) (3 - emax - prec)) with (d - 53)
      by (unfold prec, emax; lia).
    destruct (d - 53) as [| pd | pd] eqn:Ed; try lia.
    - exists pn, 0. rewrite binary_round_aux_exact by (fold d; lia).
      repeat split; try lia; fold d; lia.
    - assert (Z.pos (digits2_pos (Pos.iter xO pn pd)) = 53) as Hd'.
      { apply digits2_pos_unique. rewrite iter_xO_value.
        replace 53 with (d + Z.pos pd) by lia.
        replace (d + Z.pos pd - 1) with (d - 1 + Z.pos pd) by lia.
        rewrite !Z.pow_add_r by lia.
        assert (0 < 2 ^ Z.pos pd) by (apply Z.pow_pos_nonneg; lia). nia. }
      exists (Pos.iter xO pn pd), (Z.pos pd).
      replace (Z.neg pd) with (- Z.pos pd) by lia.
      rewrite binary_round_aux_exact by (try exact Hd'; lia).
      repeat split; try lia; first [apply iter_xO_value | exact Hd']. }
  exists m, t. split; [| split; [exact Ht | split; [exact Hm |]]].
  - unfold Py.of_Z. rewrite Hb. apply Prim2SF_SF2Prim.
    cbn [valid_binary]. unfold bounded, canonical_mantissa, fexp, emin.
    rewrite Hdm. apply andb_true_iff. split.
    + apply Z.eqb_eq. unfold prec, emax. lia.
    + apply Z.leb_le. unfold prec, emax. lia.
  - pose proof (digits2_pos_bounds m) as Bm. rewrite Hdm in Bm. cbn in Bm. cbn. lia.
Qed.

(** [int(x)] for a positive finite [x = m * 2^(j - t)]. *)
Lemma int_of_finite (x : float) (m : positive) (j t : Z) :
  Prim2SF x = S754_finite false m (j - t) -> 0 <= t ->
  Py.int x = Ok (scaled (Z.pos m) j / 2 ^ t).
Proof.
  intros Hx Ht. unfold Py.int. rewrite Hx. f_equal. unfold scaled.
  assert (0 < 2 ^ t) as HT by (apply Z.pow_pos_nonneg; lia).
  destruct (0 <=? j - t) eqn:E.
  - apply Z.leb_le in E. rewrite Z.shiftl_mul_pow2 by lia.
    destruct (0 <=? j) eqn:Ej; [| apply Z.leb_gt in Ej; lia].
    replace j with (j - t + t) at 2 by lia.
    rewrite Z.pow_add_r, Z.mul_assoc, Z.div_mul by lia. reflexivity.
  - apply Z.leb_gt in E. rewrite Z.shiftr_div_pow2 by lia.
    destruct (0 <=? j) eqn:Ej.
    + apply Z.leb_le in Ej.
      replace t with (t - j + j) at 2 by lia.
      rewrite Z.pow_add_r by lia.
      rewrite Z.div_mul_cancel_r
        by (apply Z.neq_sym, Z.lt_neq, Z.pow_pos_nonneg; lia).
      f_equal. f_equal. lia.
    + apply Z.leb_gt in Ej.
      rewrite Z.div_div by (try apply Z.pow_pos_nonneg; lia).
      rewrite <- Z.pow_add_r by lia. f_equal. f_equal. lia.
Qed.

Lemma digits_105 (m mc : positive) :
  2 ^ 104 <= Z.pos (m * mc) < 2 ^ 105 -> Z.pos (digits2_pos (m * mc)) = 53 + 52.
Proof. intros H. by apply digits2_pos_unique. Qed.

Lemma digits_106 (m mc : positive) :
  2 ^ 105 <= Z.pos (m * mc) < 2 ^ 106 -> Z.pos (digits2_pos (m * mc)) = 53 + 53.
Proof. intros H. by apply digits2_pos_unique. Qed.

Lemma scaled_nonneg (a j : Z) : 0 <= a -> 0 <= scaled a j.
Proof.
  intros Ha. unfold scaled. destruct (0 <=? j) eqn:E.
  - apply Z.leb_le in E. apply Z.mul_nonneg_nonneg; [lia |].
    apply Z.pow_nonneg. lia.
  - apply Z.leb_gt in E. apply Z.div_pos; [lia |].
    apply Z.pow_pos_nonneg; lia.
Qed.

(** Evaluate [scaled a j] for a numeral [j]. *)
Ltac eval_scaled :=
  unfold scaled;
  match goal with
  | |- context [0 <=? ?j] =>
      let b := eval vm_compute in (0 <=? j) in change (0 <=? j) with b
  end;
  cbv iota;
  match goal with
  | |- context [2 ^ ?k] =>
      let v := eval vm_compute in (2 ^ k) in change (2 ^ k) with v
  end.

(** [int(float(n) * c)] lies in [0, n) for a constant [c], of mantissa
    [mc] and exponent [ec], between 0.01 and 0.75. *)
Ltac position_below mc ec :=
  let m := fresh "m" in let t := fresh "t" in
  let Hp := fresh "Hp" in let Ht := fresh "Ht" in
  let Hm := fresh "Hm" in let Hb := fresh "Hb" in
  let m2 := fresh "m2" in let e2 := fresh "e2" in
  let Hr := fresh "Hr" in let Hc := fresh "Hc" in
  let Hx := fresh "Hx" in let HT := fresh "HT" in
  let Hcase := fresh "Hcase" in let He := fresh "He" in
  let Hle := fresh "Hle" in
  match goal with
  | Hn : 1 <= ?n < 2 ^ 53 |- exists p, Py.int (Py.of_Z ?n * ?c)%float = Ok p /\ _ =>
      destruct (of_Z_exact n Hn) as (m & t & Hp & Ht & Hm & Hb);
      assert (0 < 2 ^ t) as HT by (apply Z.pow_pos_nonneg; lia);
      assert (Prim2SF (Py.of_Z n * c)%float =
              binary_round_aux prec emax false (Z.pos (m * mc)) (- t + ec) loc_Exact)
        as Hx by (rewrite mul_spec, Hp; reflexivity);
      change (2 ^ 52) with 4503599627370496 in Hb;
      change (2 ^ 53) with 9007199254740992 in Hb;
      destruct (Z_lt_le_dec (Z.pos (m * mc)) (2 ^ 105)) as [Hc | Hc];
      [ destruct (binary_round_aux_long (m * mc) (- t + ec) 52)
          as (m2 & e2 & Hr & Hcase);
        [ apply digits_105;
          change (2 ^ 104) with 20282409603651670423947251286016;
          change (2 ^ 105) with 40564819207303340847894502572032 in *; lia
        | lia | lia | ]
      | destruct (binary_round_aux_long (m * mc) (- t + ec) 53)
          as (m2 & e2 & Hr & Hcase);
        [ apply digits_106;
          change (2 ^ 105) with 40564819207303340847894502572032 in *;
          change (2 ^ 106) with 81129638414606681695789005144064; lia
        | lia | lia | ] ];
      rewrite Hr in Hx;
      change (2 ^ 105) with 40564819207303340847894502572032 in Hc;
      change (2 ^ 52) with 4503599627370496 in Hcase;
      change (2 ^ 53) with 9007199254740992 in Hcase;
      rewrite Pos2Z.inj_mul in Hcase, Hc;
      destruct Hcase as [[He Hle] | [He Hle]];
      match type of He with
      | _ = - _ + ?a + ?b + ?c =>
          let j := eval vm_compute in (a + b + c) in
          replace e2 with (j - t) in Hx by lia
      | _ = - _ + ?a + ?b =>
          let j := eval vm_compute in (a + b) in
          replace e2 with (j - t) in Hx by lia
      end;
      rewrite (int_of_finite _ _ _ _ Hx) by lia;
      (eexists; split; [reflexivity |]);
      (split;
       [ apply Z.div_pos; [apply scaled_nonneg; lia | lia]
       | apply Z.div_lt_upper_bound; [lia |];
         rewrite Z.mul_comm, <- Hm; eval_scaled;
         Z.div_mod_to_equations; lia ])
  end.

Lemma position_001 (n : Z) :
  1 <= n < 2 ^ 53 -> exists p, Py.int (Py.of_Z n * 0.01)%float = Ok p /\ 0 <= p < n.
Proof. intros Hn. position_below 5764607523034235%positive (-59). Qed.

Lemma position_050 (n : Z) :
  1 <= n < 2 ^ 53 -> exists p, Py.int (Py.of_Z n * 0.5)%float = Ok p /\ 0 <= p < n.
Proof. intros Hn. position_below 4503599627370496%positive (-53). Qed.

Lemma position_075 (n : Z) :
  1 <= n < 2 ^ 53 -> exists p, Py.int (Py.of_Z n * 0.75)%float = Ok p /\ 0 <= p < n.
Proof. intros Hn. position_below 6755399441055744%positive (-53). Qed.

(* ===================================================================== *)
(** ** The derived history *)
(* ===================================================================== *)

Lemma transformed_past_hour_Ok (df : RawHistory) (d : list DerivedRow) :
  transformed_past_hour df = Ok d ->
  d = derive_rows None (ffill_rows no_row (Py.sort_values by_timestamp (rows df))).
Proof.
  unfold transformed_past_hour. intros H.
  apply result_bind_Ok in H as ([] & _ & H).
  apply result_bind_Ok in H as ([] & _ & H).
  by inversion H.
Qed.

Lemma derive_rows_margin (prev : option RawRow) (l : list RawRow) :
  Forall (fun r => margin r =
            ((sell_order_price r - buy_order_price r) * (1 - 0.01125))%float)
         (derive_rows prev l).
Proof.
  revert prev. induction l as [| r l IH]; intros prev; cbn.
  - constructor.
  - constructor; [reflexivity | apply IH].
Qed.

Lemma derive_rows_sell_order_price (prev : option RawRow) (l : list RawRow) :
  column col_sell_order_price (derive_rows prev l) = map r_buy l.
Proof.
  revert prev. induction l as [| r l IH]; intros prev; cbn; [done |].
  f_equal. apply IH.
Qed.

Lemma derive_rows_buy_order_price (prev : option RawRow) (l : list RawRow) :
  column col_buy_order_price (derive_rows prev l) = map r_sell l.
Proof.
  revert prev. induction l as [| r l IH]; intros prev; cbn; [done |].
  f_equal. apply IH.
Qed.

Lemma ffill_rows_buy (last : RawRow) (l : list RawRow) :
  map r_buy (ffill_rows last l) = Py.ffill_from (r_buy last) (map r_buy l).
Proof.
  revert last. induction l as [| r l IH]; intros last; cbn; [done |].
  f_equal. apply IH.
Qed.

Lemma ffill_rows_sell (last : RawRow) (l : list RawRow) :
  map r_sell (ffill_rows last l) = Py.ffill_from (r_sell last) (map r_sell l).
Proof.
  revert last. induction l as [| r l IH]; intros last; cbn; [done |].
  f_equal. apply IH.
Qed.

(** C7. Every row of the derived history has
    margin = (sell_order_price - buy_order_price) * (1 - 0.01125), computed
    on the columns after the rename (sell_order_price is the service's
    forward-filled "buy", buy_order_price its "sell"); a row with
    buy_order_price 10 and sell_order_price 12 has margin exactly 1.9775. *)
Theorem margin_after_rename (df : RawHistory) (d : list DerivedRow) :
  transformed_past_hour df = Ok d ->
  let sorted := Py.sort_values by_timestamp (rows df) in
  column col_sell_order_price d = Py.ffill (map r_buy sorted) /\
  column col_buy_order_price d = Py.ffill (map r_sell sorted) /\
  Forall (fun r =>
            margin r = ((sell_order_price r - buy_order_price r) * (1 - 0.01125))%float /\
            (buy_order_price r = 10%float -> sell_order_price r = 12%float ->
             margin r = 1.9775%float)) d.
Proof.
  intros H sorted. apply transformed_past_hour_Ok in H. subst d.
  split; [| split].
  - by rewrite derive_rows_sell_order_price, ffill_rows_buy.
  - by rewrite derive_rows_buy_order_price, ffill_rows_sell.
  - eapply Forall_impl; [apply derive_rows_margin |].
    intros r Hr. split; [exact Hr |].
    intros Hb Hs. rewrite Hr, Hb, Hs. reflexivity.
Qed.

(** C7 at work: two rows with the service's "buy" at 12 and "sell" at 10. *)
Lemma margin_after_rename_witness :
  exists d,
    transformed_past_hour (flat_history 2 12 10 5000) = Ok d /\
    Forall (fun r =>
              margin r = ((sell_order_price r - buy_order_price r) * (1 - 0.01125))%float /\
              (buy_order_price r = 10%float -> sell_order_price r = 12%float ->
               margin r = 1.9775%float)) d.
Proof.
  eexists. split; [reflexivity |].
  apply (margin_after_rename (flat_history 2 12 10 5000)). reflexivity.
Defined.

(* ===================================================================== *)
(** ** Minutes per flip *)
(* ===================================================================== *)

Lemma fold_sum_skipna (volume : DerivedRow -> float) (df : list DerivedRow) (acc : float) :
  fold_left PrimFloat.add (Py.dropna (map volume df)) acc =
  fold_left (fun acc r => if PrimFloat.is_nan (volume r) then acc
                          else (acc + volume r)%float) df acc.
Proof.
  revert acc. induction df as [| r df IH]; intros acc; cbn; [done |].
  destruct (PrimFloat.is_nan (volume r)); cbn; apply IH.
Qed.

Lemma sum_window_volume (c : Column) (df : list DerivedRow) :
  Py.sum (column c df) = window_volume (get_col c) df.
Proof. apply fold_sum_skipna. Qed.

Lemma wait_mins_wait_time (x : float) : Recommender_.wait_mins x = wait_time x.
Proof.
  unfold Recommender_.wait_mins, wait_time, Py.neb.
  by destruct (PrimFloat.eqb x 0).
Qed.

Lemma minutes_per_flip_eq_spec (self : Recommender) :
  Recommender_.minutes_per_flip self = minutes_per_flip_spec (Recommender_.past_hour self).
Proof.
  unfold Recommender_.minutes_per_flip, minutes_per_flip_spec.
  by rewrite !wait_mins_wait_time, !sum_window_volume.
Qed.

(** C6. [minutes_per_flip] is the sum of the two wait times, each 60 over
    the volume of one instant side summed over the full window, infinite
    when that sum is zero; when both sums are zero it is infinite. *)
Theorem minutes_per_flip_wait_times (self : Recommender) :
  let df := Recommender_.past_hour self in
  Recommender_.minutes_per_flip self = minutes_per_flip_spec df /\
  (PrimFloat.eqb (window_volume insta_sell_volume df) 0 = true ->
   PrimFloat.eqb (window_volume insta_buy_volume df) 0 = true ->
   Recommender_.minutes_per_flip self = infinity).
Proof.
  intros df.
  split; [apply minutes_per_flip_eq_spec |].
  intros Hs Hb. rewrite minutes_per_flip_eq_spec.
  unfold minutes_per_flip_spec, wait_time. fold df.
  by rewrite Hs, Hb.
Qed.

(** C6 at work: the steady history has no interval volume on either side. *)
Lemma minutes_per_flip_wait_times_witness :
  exists self,
    Recommender_.__init__ "ITEM" (flat_history 60 1800 1000 5000) [] [] = Ok self /\
    Recommender_.minutes_per_flip self = infinity.
Proof.
  eexists. split; [reflexivity |].
  apply minutes_per_flip_wait_times; vm_compute; reflexivity.
Defined.

(* ===================================================================== *)
(** ** Profit half-life *)
(* ===================================================================== *)

Lemma half_life_of_nan_rate (self : Recommender) :
  weighted_rate_of_change (Recommender_.past_hour self) col_margin
    positions_pct_default weights_default recent_window_default = Ok nan ->
  Recommender_.profit_half_life self = Ok 0%float.
Proof. unfold Recommender_.profit_half_life. intros ->. reflexivity. Qed.

(** C9. When the weighted rate of change of the margin is not-a-number,
    [profit_half_life] returns 0.0: NaN fails the test [>= 0], so the
    infinite branch is not taken; -0.5 / NaN is NaN; max(0.0, NaN) is 0.0. *)
Theorem profit_half_life_nan_rate (self : Recommender) :
  weighted_rate_of_change (Recommender_.past_hour self) col_margin
    positions_pct_default weights_default recent_window_default = Ok nan ->
  (0 <=? nan)%float = false /\
  Recommender_.truediv (-0.5)%float nan = Ok nan /\
  Py.max 0%float nan = 0%float /\
  Recommender_.profit_half_life self = Ok 0%float.
Proof.
  intros H. repeat split; try reflexivity.
  by apply half_life_of_nan_rate.
Qed.

(** C9 at work: every rate of the steady history is zero. *)
Lemma profit_half_life_nan_rate_witness :
  exists self,
    Recommender_.__init__ "ITEM" (flat_history 60 1800 1000 5000) [] [] = Ok self /\
    Recommender_.profit_half_life self = Ok 0%float.
Proof.
  eexists. split; [reflexivity |].
  apply profit_half_life_nan_rate. vm_compute. reflexivity.
Defined.

(* ===================================================================== *)
(** ** Weighted rate of change *)
(* ===================================================================== *)

Lemma iloc_in_range {A} (l : list A) (pos : Z) :
  in_range (Z.of_nat (length l)) pos = true -> exists x, Py.iloc l pos = Ok x.
Proof.
  unfold in_range, Py.iloc. intros H.
  apply andb_true_iff in H as [H0 H1].
  apply Z.leb_le in H0. apply Z.ltb_lt in H1.
  destruct (pos <? 0) eqn:E; [apply Z.ltb_lt in E; lia |].
  rewrite (proj2 (Z.leb_le 0 pos) H0), (proj2 (Z.ltb_lt _ _) H1). cbn.
  destruct (lookup_lt_is_Some_2 l (Z.to_nat pos)) as [x ->]; [lia | eauto].
Qed.

Lemma iloc_last {A} (l : list A) :
  l <> [] -> exists x, Py.iloc l (-1) = Ok x.
Proof.
  intros Hl. unfold Py.iloc. cbn [Z.ltb Z.compare].
  assert (0 < length l)%nat as Hn by (destruct l; [done | cbn; lia]).
  destruct (0 <=? -1 + Z.of_nat (length l)) eqn:E0; [| apply Z.leb_gt in E0; lia].
  destruct (-1 + Z.of_nat (length l) <? Z.of_nat (length l)) eqn:E1;
    [| apply Z.ltb_ge in E1; lia].
  cbn.
  destruct (lookup_lt_is_Some_2 l (Z.to_nat (-1 + Z.of_nat (length l))))
    as [x ->]; [lia | eauto].
Qed.

Lemma iloc_replicate {A} (n : nat) (x : A) (pos : Z) :
  in_range (Z.of_nat n) pos = true -> Py.iloc (replicate n x) pos = Ok x.
Proof.
  intros H.
  destruct (iloc_in_range (replicate n x) pos) as [y Hy];
    [by rewrite length_replicate |].
  rewrite Hy. f_equal.
  unfold Py.iloc in Hy.
  destruct ((0 <=? _) && _); [| discriminate].
  destruct (replicate n x !! _) as [z |] eqn:E; [| discriminate].
  apply lookup_replicate in E as [-> _]. by inversion Hy.
Qed.

Lemma column_constant (c : Column) (df : list DerivedRow) (m : float) :
  Forall (fun r => get_col c r = m) df ->
  column c df = replicate (length df) m.
Proof.
  unfold column. induction 1 as [| r df Hr _ IH]; cbn; [done |].
  by rewrite Hr, IH.
Qed.

(** A rate taken where the value equals the recent mean is a zero or NaN. *)
Lemma rate_at_constant (df : list DerivedRow) (c : Column) (m : float) (pos : Z) :
  column c df = replicate (length df) m ->
  in_range (Z.of_nat (length df)) pos = true ->
  exists r, rate_at df c m pos = Ok r /\ zero_or_nan r.
Proof.
  intros Hc Hpos. unfold rate_at.
  rewrite Hc, (iloc_replicate _ _ _ Hpos). cbn.
  assert (df <> []) as Hne.
  { intros ->. cbn in Hpos. unfold in_range in Hpos.
    apply andb_true_iff in Hpos as [H0 H1].
    apply Z.leb_le in H0. apply Z.ltb_lt in H1. lia. }
  destruct (iloc_last (map timestamp df)) as [t1 ->];
    [by destruct df |]. cbn.
  destruct (iloc_in_range (map timestamp df) pos) as [t0 ->];
    [by rewrite length_map |]. cbn.
  destruct (_ && _).
  - eexists. split; [reflexivity |]. apply zero_or_nan_div, sub_self.
  - eexists. split; [reflexivity |]. by apply is_pos_zero.
Qed.

(** Three rates that are zeros or NaN never average to a number. *)
Lemma zero_or_nan_rates (r0 r1 r2 : float) :
  zero_or_nan r0 -> zero_or_nan r1 -> zero_or_nan r2 ->
  (if (length (nonzero_rates [r0; r1; r2]) =? 0)%nat then Ok nan
   else Py.average [r0; r1; r2] weights_default) = Ok nan.
Proof.
  intros [-> | -> | ->] [-> | -> | ->] [-> | -> | ->]; reflexivity.
Qed.

Lemma tail_replicate {A} (k n : nat) (x : A) :
  (0 < k <= n)%nat -> Py.tail (Z.of_nat k) (replicate n x) = replicate k x.
Proof.
  intros H. unfold Py.tail.
  destruct (Z.of_nat k =? 0) eqn:E0; [apply Z.eqb_eq in E0; lia |].
  destruct (0 <? Z.of_nat k) eqn:E1; [| apply Z.ltb_ge in E1; lia].
  rewrite length_replicate, Nat2Z.id, drop_replicate. f_equal. lia.
Qed.

Lemma eqb_zero_cases (x : float) :
  PrimFloat.eqb x 0%float = true -> x = 0%float \/ x = (-0)%float.
Proof.
  rewrite eqb_spec. intros H. rewrite <- (SF2Prim_Prim2SF x).
  destruct (Prim2SF x) as [[] | [] | | [] mm e]; try discriminate; cbn; eauto.
Qed.

Lemma window_volume_none (volume : DerivedRow -> float) (df : list DerivedRow) :
  Forall (fun r => no_volume (volume r) = true) df ->
  window_volume volume df = 0%float.
Proof.
  unfold window_volume. induction 1 as [| r df Hr _ IH]; cbn; [done |].
  unfold no_volume in Hr.
  destruct (PrimFloat.is_nan (volume r)); [exact IH |].
  cbn in Hr. apply eqb_zero_cases in Hr as [-> | ->]; exact IH.
Qed.

Lemma steady_positions : positions_of 60 positions_pct_default = Ok [0; 30; 45].
Proof. reflexivity. Qed.

Lemma weighted_rate_of_constant (df : list DerivedRow) (c : Column) (m : float) :
  length df = 60%nat ->
  Forall (fun r => get_col c r = m) df ->
  Py.mean (replicate 6 m) = m ->
  weighted_rate_of_change df c positions_pct_default weights_default
    recent_window_default = Ok nan.
Proof.
  intros Hlen Hm Hmean.
  apply column_constant in Hm.
  unfold weighted_rate_of_change, rates_of.
  rewrite Hlen. change (Z.of_nat 60) with 60. rewrite steady_positions. cbn [mbind result_bind].
  rewrite Hm, Hlen.
  change recent_window_default with (Z.of_nat 6).
  rewrite tail_replicate by lia. rewrite Hmean.
  destruct (rate_at_constant df c m 0 Hm) as (r0 & E0 & Z0); [by rewrite Hlen |].
  destruct (rate_at_constant df c m 30 Hm) as (r1 & E1 & Z1); [by rewrite Hlen |].
  destruct (rate_at_constant df c m 45 Hm) as (r2 & E2 & Z2); [by rewrite Hlen |].
  cbn [rmapM mbind result_bind]. rewrite E0, E1, E2. cbn [mbind result_bind].
  by apply zero_or_nan_rates.
Qed.

(** The mean of six equal floats need not be that float: summing rounds. *)
Lemma mean_of_six_rounds :
  Py.mean (replicate 6 1.9775%float) = 1.9774999999999998%float.
Proof. reflexivity. Qed.

(** C1 (amended). For a 60-row history with a constant finite margin and no
    interval volume, [minutes_per_flip] is infinite and [profit_per_hour] is
    zero; when the mean of the last six margins is the margin itself, every
    rate is zero, [weighted_rate_of_change] returns NaN and
    [profit_half_life] is 0.0. *)
Theorem steady_history_scores (self : Recommender) (m : float) :
  let df := Recommender_.past_hour self in
  length df = 60%nat ->
  Forall (fun r => margin r = m) df ->
  Forall (fun r => no_volume (insta_buy_volume r) = true) df ->
  Forall (fun r => no_volume (insta_sell_volume r) = true) df ->
  PrimFloat.is_finite m = true ->
  Py.mean (replicate 6 m) = m ->
  Recommender_.minutes_per_flip self = infinity /\
  PrimFloat.eqb (Recommender_.profit_per_hour self) 0%float = true /\
  weighted_rate_of_change df col_margin positions_pct_default weights_default
    recent_window_default = Ok nan /\
  Recommender_.profit_half_life self = Ok 0%float.
Proof.
  intros df Hlen Hm Hbuy Hsell Hfin Hmean.
  assert (Recommender_.minutes_per_flip self = infinity) as Hmpf.
  { rewrite minutes_per_flip_eq_spec. unfold minutes_per_flip_spec. fold df.
    by rewrite !window_volume_none. }
  assert (weighted_rate_of_change df col_margin positions_pct_default
            weights_default recent_window_default = Ok nan) as Hroc
    by (by apply (weighted_rate_of_constant df col_margin m)).
  repeat split; [exact Hmpf | | exact Hroc | by apply half_life_of_nan_rate].
  unfold Recommender_.profit_per_hour. rewrite Hmpf. fold df.
  rewrite (column_constant col_margin df m Hm), Hlen.
  change 6 with (Z.of_nat 6). rewrite tail_replicate by lia. rewrite Hmean.
  change (60 / infinity)%float with 0%float.
  by apply finite_mul_zero.
Qed.

(** C1 (amended) at work: the steady history, whose margin is 791. *)
Lemma steady_history_scores_witness :
  exists self,
    Recommender_.__init__ "ITEM" steady_history [] [] = Ok self /\
    Recommender_.minutes_per_flip self = infinity /\
    PrimFloat.eqb (Recommender_.profit_per_hour self) 0%float = true /\
    weighted_rate_of_change (Recommender_.past_hour self) col_margin
      positions_pct_default weights_default recent_window_default = Ok nan /\
    Recommender_.profit_half_life self = Ok 0%float.
Proof.
  eexists. split; [reflexivity |].
  apply (steady_history_scores _ 791%float);
    try (vm_compute; reflexivity); vm_compute; repeat constructor.
Defined.

(** C1 (as stated, refuted). The 60-row history with margin 791 in every
    row and weekly volumes that do not move has an infinite
    [minutes_per_flip] and a zero [profit_per_hour], but its
    [profit_half_life] is 0.0, not infinite. *)
Lemma steady_history_half_life_not_infinite :
  exists self,
    Recommender_.__init__ "ITEM" steady_history [] [] = Ok self /\
    length (Recommender_.past_hour self) = 60%nat /\
    Forall (fun r => margin r = 791%float) (Recommender_.past_hour self) /\
    Forall (fun r => no_volume (insta_buy_volume r) = true /\
                     no_volume (insta_sell_volume r) = true)
           (Recommender_.past_hour self) /\
    Recommender_.minutes_per_flip self = infinity /\
    Recommender_.profit_per_hour self = 0%float /\
    Recommender_.profit_half_life self = Ok 0%float /\
    Recommender_.profit_half_life self <> Ok infinity.
Proof.
  eexists. split; [reflexivity |].
  split; [vm_compute; reflexivity |].
  split; [vm_compute; repeat constructor |].
  split; [vm_compute; repeat constructor |].
  split; [vm_compute; reflexivity |].
  split; [vm_compute; reflexivity |].
  split; [vm_compute; reflexivity |].
  vm_compute. intros H.
  apply (f_equal (fun r => match r with
                           | Ok x => PrimFloat.is_infinity x
                           | Raise _ => false
                           end)) in H.
  vm_compute in H. discriminate.
Qed.

(** The default positions of a history of [n] rows lie inside it. *)
Lemma positions_in_range (n : Z) :
  1 <= n < 2 ^ 53 ->
  exists p0 p1 p2,
    positions_of n positions_pct_default = Ok [p0; p1; p2] /\
    in_range n p0 = true /\ in_range n p1 = true /\ in_range n p2 = true.
Proof.
  intros Hn.
  destruct (position_001 n Hn) as (p0 & E0 & H0).
  destruct (position_050 n Hn) as (p1 & E1 & H1).
  destruct (position_075 n Hn) as (p2 & E2 & H2).
  exists p0, p1, p2. split.
  - unfold positions_of, positions_pct_default. cbn [rmapM].
    rewrite E0, E1, E2. reflexivity.
  - unfold in_range.
    rewrite !andb_true_iff, !Z.leb_le, !Z.ltb_lt. lia.
Qed.

Lemma rate_at_in_range (df : list DerivedRow) (c : Column) (recent : float) (pos : Z) :
  in_range (Z.of_nat (length df)) pos = true ->
  exists r, rate_at df c recent pos = Ok r.
Proof.
  intros Hpos. unfold rate_at.
  destruct (iloc_in_range (column c df) pos) as [v ->];
    [by unfold column; rewrite length_map |]. cbn.
  assert (df <> []) as Hne.
  { intros ->. cbn in Hpos. unfold in_range in Hpos.
    apply andb_true_iff in Hpos as [H0 H1].
    apply Z.leb_le in H0. apply Z.ltb_lt in H1. lia. }
  destruct (iloc_last (map timestamp df)) as [t1 ->];
    [by destruct df |]. cbn.
  destruct (iloc_in_range (map timestamp df) pos) as [t0 ->];
    [by rewrite length_map |]. cbn.
  destruct (_ && _); eauto.
Qed.

Lemma rate_at_single_row (r : DerivedRow) (c : Column) (recent : float) :
  rate_at [r] c recent 0 = Ok 0%float.
Proof.
  unfold rate_at.
  change (Py.iloc (column c [r]) 0) with (Ok (get_col c r)).
  change (Py.iloc (map timestamp [r]) (-1)) with (Ok (timestamp r)).
  change (Py.iloc (map timestamp [r]) 0) with (Ok (timestamp r)).
  cbn [mbind result_bind]. rewrite Z.sub_diag.
  change (0 <? Py.of_Z 0 / 60)%float with false.
  by rewrite andb_false_r.
Qed.

Lemma nonzero_rates_none (rates : list float) :
  Forall (fun r => PrimFloat.eqb r 0%float = true) rates ->
  nonzero_rates rates = [].
Proof.
  unfold nonzero_rates, Py.neb.
  induction 1 as [| r rates Hr _ IH]; cbn; [done |]. by rewrite Hr.
Qed.

(** C4 (as stated, refuted). On the empty history
    [weighted_rate_of_change] raises: position 0 is outside the column. *)
Lemma weighted_rate_of_change_empty_raises :
  weighted_rate_of_change [] col_margin positions_pct_default weights_default
    recent_window_default = Raise IndexError.
Proof. reflexivity. Qed.

(** C4 (amended). On every history of at least one row (and fewer than
    2^53 rows, so that the row count is a float) [weighted_rate_of_change]
    returns a float and does not raise; the float is NaN when the history
    has a single row and whenever every rate is zero. *)
Theorem weighted_rate_of_change_returns (df : list DerivedRow) (c : Column) :
  df <> [] ->
  Z.of_nat (length df) < 2 ^ 53 ->
  exists rates v,
    rates_of df c positions_pct_default recent_window_default = Ok rates /\
    weighted_rate_of_change df c positions_pct_default weights_default
      recent_window_default = Ok v /\
    (length df = 1%nat -> v = nan) /\
    (Forall (fun r => PrimFloat.eqb r 0%float = true) rates -> v = nan).
Proof.
  intros Hne Hmax.
  assert (1 <= Z.of_nat (length df) < 2 ^ 53) as Hn.
  { assert (0 < length df)%nat by (destruct df; [done | cbn [length]; lia]).
    lia. }
  destruct (positions_in_range _ Hn) as (p0 & p1 & p2 & Hp & H0 & H1 & H2).
  set (recent := Py.mean (Py.tail recent_window_default (column c df))).
  destruct (rate_at_in_range df c recent p0 H0) as [r0 E0].
  destruct (rate_at_in_range df c recent p1 H1) as [r1 E1].
  destruct (rate_at_in_range df c recent p2 H2) as [r2 E2].
  assert (rates_of df c positions_pct_default recent_window_default
          = Ok [r0; r1; r2]) as Hrates.
  { unfold rates_of. rewrite Hp. cbn [mbind result_bind rmapM].
    fold recent. by rewrite E0, E1, E2. }
  exists [r0; r1; r2].
  unfold weighted_rate_of_change. rewrite Hrates. cbn [mbind result_bind].
  destruct (length (nonzero_rates [r0; r1; r2]) =? 0)%nat eqn:Hz.
  - exists nan. repeat split; done.
  - eexists. split; [reflexivity |]. split; [reflexivity |]. split.
    + intros Hone. destruct df as [| r [| ? ?]]; try discriminate Hone.
      exfalso.
      change (positions_of 1 positions_pct_default = Ok [p0; p1; p2]) in Hp.
      inversion Hp; subst p0 p1 p2.
      rewrite rate_at_single_row in E0, E1, E2.
      inversion E0; inversion E1; inversion E2; subst.
      discriminate Hz.
    + intros Hall. apply nonzero_rates_none in Hall.
      rewrite Hall in Hz. discriminate Hz.
Qed.

(** C4 (amended) at work: a history of one row. *)
Lemma weighted_rate_of_change_returns_witness :
  exists self rates v,
    Recommender_.__init__ "ITEM" (flat_history 1 1800 1000 5000) [] [] = Ok self /\
    rates_of (Recommender_.past_hour self) col_margin positions_pct_default
      recent_window_default = Ok rates /\
    weighted_rate_of_change (Recommender_.past_hour self) col_margin
      positions_pct_default weights_default recent_window_default = Ok v /\
    v = nan.
Proof.
  eexists.
  destruct (weighted_rate_of_change_returns
              (derive_rows None (ffill_rows no_row
                 (Py.sort_values by_timestamp (rows (flat_history 1 1800 1000 5000)))))
              col_margin)
    as (rates & v & Hr & Hv & Hone & _).
  - discriminate.
  - reflexivity.
  - exists rates, v. split; [reflexivity |]. split; [exact Hr |].
    split; [exact Hv |]. apply Hone. reflexivity.
Defined.

(* ===================================================================== *)
(** ** Competitiveness *)
(* ===================================================================== *)

Lemma insert_sorted_perm {A} (le : A -> A -> bool) (x : A) (l : list A) :
  Py.insert_sorted le x l ≡ₚ x :: l.
Proof.
  induction l as [| y l IH]; cbn; [done |].
  destruct (le x y); [done |]. rewrite IH. apply Permutation_swap.
Qed.

Lemma sort_values_perm {A} (le : A -> A -> bool) (l : list A) :
  Py.sort_values le l ≡ₚ l.
Proof.
  induction l as [| x l IH]; cbn; [done |].
  rewrite insert_sorted_perm. by rewrite IH.
Qed.

Lemma sort_values_length {A} (le : A -> A -> bool) (l : list A) :
  length (Py.sort_values le l) = length l.
Proof. apply Permutation_length, sort_values_perm. Qed.

Lemma diff_from_length (prev : float) (col : list float) :
  length (Py.diff_from prev col) = length col.
Proof.
  revert prev. induction col as [| x col IH]; intros prev; cbn; [done |].
  by rewrite IH.
Qed.

Lemma diff_length (col : list float) : length (Py.diff col) = length col.
Proof. destruct col; cbn; [done |]. by rewrite diff_from_length. Qed.

Lemma out_bid_of_zip (l : list OrderRow) (ds : list float) :
  length ds = length l ->
  map out_bid_price
      (zip_with (fun r d => {| ob_row := r; out_bid_price := d |}) l ds) = ds.
Proof.
  revert ds. induction l as [| r l IH]; intros [| d ds] H; cbn in *;
    try done. f_equal. apply IH. lia.
Qed.

Lemma with_out_bid_deltas (l : list OrderRow) :
  map out_bid_price (with_out_bid l) = Py.diff (map pricePerUnit l).
Proof.
  unfold with_out_bid. apply out_bid_of_zip.
  by rewrite diff_length, length_map.
Qed.

Lemma with_out_bid_length (l : list OrderRow) :
  length (with_out_bid l) = length l.
Proof.
  rewrite <- (length_map out_bid_price), with_out_bid_deltas, diff_length.
  apply length_map.
Qed.

Lemma transformed_order_book_sorted (book : list OrderRow) :
  transformed_order_book book = with_out_bid (Py.sort_values (by_price true) book).
Proof. unfold transformed_order_book. by destruct book. Qed.

Lemma transformed_order_book_length (book : list OrderRow) :
  length (transformed_order_book book) = length book.
Proof.
  by rewrite transformed_order_book_sorted, with_out_bid_length, sort_values_length.
Qed.

Lemma side_factor_of_book (ascending : bool) (book : list OrderRow) :
  (if (length (transformed_order_book book) =? 0)%nat then Ok 0%float
   else out_bid_factor (transformed_order_book book) ascending)
  = side_factor_ascending_deltas ascending book.
Proof.
  rewrite transformed_order_book_length.
  destruct book as [| r book]; [done |].
  change (length (r :: book) =? 0)%nat with false. cbv iota.
  unfold out_bid_factor, side_factor_ascending_deltas, top_count.
  rewrite sort_values_length, transformed_order_book_length.
  rewrite transformed_order_book_sorted.
  destruct (Py.int _) as [top | e]; reflexivity.
Qed.

Lemma position_020 (n : Z) :
  1 <= n < 2 ^ 53 -> exists p, Py.int (Py.of_Z n * 0.2)%float = Ok p /\ 0 <= p < n.
Proof. intros Hn. position_below 7205759403792794%positive (-55). Qed.

Lemma top_count_returns (n : nat) :
  1 <= Z.of_nat n < 2 ^ 53 -> exists top, top_count n = Ok top /\ 1 <= top.
Proof.
  intros Hn. destruct (position_020 _ Hn) as (p & E & Hp).
  unfold top_count. rewrite E. cbn [mbind result_bind].
  eexists. split; [reflexivity |].
  destruct (p =? 0) eqn:E0; [lia | apply Z.eqb_neq in E0; lia].
Qed.

Lemma side_factor_returns (ascending : bool) (book : list OrderRow) :
  Z.of_nat (length book) < 2 ^ 53 ->
  exists v, side_factor_ascending_deltas ascending book = Ok v.
Proof.
  intros Hn. unfold side_factor_ascending_deltas.
  destruct book as [| r book]; [eauto |].
  destruct (top_count_returns (length (r :: book))) as (top & -> & _);
    [cbn [length] in *; lia |].
  cbn [mbind result_bind]. eauto.
Qed.

(* ===================================================================== *)
(** ** Effectful code: what a computation leaves alone *)
(* ===================================================================== *)

Lemma bind_run {A B} (m : M A) (k : A -> M B) (s : State) :
  (m ≫= k) s = match m s with
               | (Ok a, s') => k a s'
               | (Raise e, s') => (Raise e, s')
               end.
Proof. reflexivity. Qed.

Section Respects.
Context (R : State -> State -> Prop) `{!PreOrder R}.
Hypothesis R_emit : forall ev, not_phase ev -> respects R (emit ev).
Hypothesis R_advance : forall dt, respects R (advance dt).
Hypothesis R_http_get : forall url, respects R (http_get url).

Lemma respects_ret {A} (a : A) : respects R (mret a).
Proof. intros s. reflexivity. Qed.

Lemma respects_lift {A} (r : result A) : respects R (lift r).
Proof. intros s. reflexivity. Qed.

Lemma respects_gets {A} (f : State -> A) : respects R (gets f).
Proof. intros s. reflexivity. Qed.

Lemma respects_bind {A B} (m : M A) (k : A -> M B) :
  respects R m -> (forall a, respects R (k a)) -> respects R (m ≫= k).
Proof.
  intros Hm Hk s. rewrite bind_run. specialize (Hm s).
  destruct (m s) as [[a | e] s']; cbn in *; [| exact Hm].
  etransitivity; [exact Hm | apply Hk].
Qed.

Lemma respects_try_except {A} (body : M A) (handler : exn -> M A) :
  respects R body -> (forall e, respects R (handler e)) ->
  respects R (try_except body handler).
Proof.
  intros Hb Hh s. unfold try_except. specialize (Hb s).
  destruct (body s) as [[a | e] s']; cbn in *; [exact Hb |].
  etransitivity; [exact Hb | apply Hh].
Qed.

Lemma respects_with_semaphore {A} (body : M A) :
  respects R body -> respects R (with_semaphore body).
Proof.
  intros Hb s. unfold with_semaphore.
  pose proof (R_emit EvAcquire I s) as H1.
  destruct (emit EvAcquire s) as [r1 s1]; cbn in *.
  specialize (Hb s1). destruct (body s1) as [r2 s2]; cbn in *.
  pose proof (R_emit EvRelease I s2) as H3.
  etransitivity; [exact H1 |]. etransitivity; [exact Hb | exact H3].
Qed.

Lemma respects_log (level : LogLevel) (r : LogRecord) : respects R (log level r).
Proof. by apply R_emit. Qed.

Lemma respects_sleep (seconds : Z) : respects R (sleep seconds).
Proof. apply respects_bind; [by apply R_emit | intros; apply R_advance]. Qed.

Lemma respects_raise_for_status (res : Response) :
  respects R (raise_for_status res).
Proof.
  unfold raise_for_status. destruct (_ && _);
    [apply respects_ret | apply respects_lift].
Qed.

Lemma respects_first_attempt (url : string) :
  respects R (DataClient.first_attempt url).
Proof.
  apply respects_with_semaphore, respects_bind; [apply R_http_get |].
  intros res. destruct (status_code res =? _); [| apply respects_ret].
  apply respects_bind; [apply respects_lift |]. intros n.
  apply respects_bind; [apply respects_log | intros; apply respects_ret].
Qed.

Lemma respects_get (url : string) : respects R (DataClient._get url).
Proof.
  apply respects_bind; [apply respects_log |]. intros _.
  apply respects_bind; [apply respects_first_attempt |]. intros [res w].
  destruct (status_code res =? _).
  - apply respects_bind; [apply respects_lift |]. intros w'.
    apply respects_bind; [apply respects_sleep |]. intros _.
    apply respects_with_semaphore, respects_bind; [apply R_http_get |].
    intros res'.
    apply respects_bind; [apply respects_raise_for_status |].
    intros; apply respects_ret.
  - apply respects_bind; [apply respects_raise_for_status |].
    intros; apply respects_ret.
Qed.

Lemma respects_get_good_products : respects R DataClient.get_good_products.
Proof.
  apply respects_bind; [apply respects_get |]. intros res.
  apply respects_bind; [apply respects_lift | intros; apply respects_ret].
Qed.

Lemma respects_get_orderbooks : respects R DataClient.get_orderbooks.
Proof.
  apply respects_bind; [apply respects_get |]. intros res.
  apply respects_bind; [apply respects_lift | intros; apply respects_ret].
Qed.

Lemma respects_get_past_hour (item_id : string) :
  respects R (DataClient.get_past_hour item_id).
Proof.
  apply respects_bind; [apply respects_get | intros; apply respects_lift].
Qed.

Lemma respects_get_recommender (item_id : string) (orderbooks : ItemOrderbookDict) :
  respects R (DataClient.get_recommender item_id orderbooks).
Proof.
  unfold DataClient.get_recommender. destruct (orderbooks !! item_id).
  - apply respects_try_except.
    + apply respects_bind; [apply respects_get_past_hour |]. intros h.
      apply respects_bind; [apply respects_lift | intros; apply respects_ret].
    + intros e.
      destruct e; (apply respects_bind; [apply respects_log |]);
        intros; apply respects_ret.
  - apply respects_bind; [apply respects_log | intros; apply respects_ret].
Qed.
End Respects.

#[global] Instance same_caches_preorder : PreOrder same_caches.
Proof.
  split.
  - by intros s.
  - intros s1 s2 s3 (H1 & H2 & H3) (H4 & H5 & H6). unfold same_caches.
    by rewrite H4, H5, H6.
Qed.

#[global] Instance quiet_step_preorder : PreOrder quiet_step.
Proof.
  split.
  - intros s. exists []. by rewrite app_nil_r.
  - intros s1 s2 s3 (e1 & H1 & P1) (e2 & H2 & P2). exists (e1 ++ e2).
    split; [by rewrite H2, H1, app_assoc |].
    unfold phases_of in *. by rewrite omap_app, P1, P2.
Qed.

Lemma same_caches_emit (ev : Event) : respects same_caches (emit ev).
Proof. by intros s. Qed.

Lemma same_caches_advance (dt : Z) : respects same_caches (advance dt).
Proof. by intros s. Qed.

Lemma same_caches_http_get (url : string) : respects same_caches (http_get url).
Proof. by intros s. Qed.

Lemma quiet_emit (ev : Event) : not_phase ev -> respects quiet_step (emit ev).
Proof. intros H s. exists [ev]. split; [done |]. by destruct ev. Qed.

Lemma quiet_advance (dt : Z) : respects quiet_step (advance dt).
Proof. intros s. exists []. by rewrite app_nil_r. Qed.

Lemma quiet_http_get (url : string) : respects quiet_step (http_get url).
Proof. intros s. by exists [EvGet url]. Qed.

Lemma get_recommender_same_caches (item_id : string) (orderbooks : ItemOrderbookDict) :
  respects same_caches (DataClient.get_recommender item_id orderbooks).
Proof.
  apply respects_get_recommender; try apply _.
  - intros; apply same_caches_emit.
  - apply same_caches_advance.
  - apply same_caches_http_get.
Qed.

(* ===================================================================== *)
(** ** The fetcher *)
(* ===================================================================== *)

Lemma state_eq (s s' : State) :
  network s = network s' -> requests s = requests s' -> clock s = clock s' ->
  trace s = trace s' ->
  recommender_cache s = recommender_cache s' ->
  orderbook_cache s = orderbook_cache s' ->
  good_products_cache s = good_products_cache s' ->
  s = s'.
Proof. destruct s, s'; cbn; intros; by subst. Qed.

Lemma after_after (s : State) (n n' : nat) (dt dt' : Z) (evs evs' : list Event) :
  after (after s n dt evs) n' dt' evs' = after s (n + n') (dt + dt') (evs ++ evs').
Proof. apply state_eq; cbn; try done; [lia | lia | by rewrite app_assoc]. Qed.

Lemma emit_run (ev : Event) (s : State) : emit ev s = (Ok tt, after s 0 0 [ev]).
Proof.
  unfold emit, modify. f_equal. apply state_eq; cbn; try done; lia.
Qed.

Lemma sleep_run (seconds : Z) (s : State) :
  sleep seconds s = (Ok tt, after s 0 seconds [EvSleep seconds]).
Proof.
  unfold sleep. rewrite bind_run, emit_run. unfold advance, modify. f_equal.
  apply state_eq; cbn; try done; lia.
Qed.

Lemma http_get_run (url : string) (s : State) :
  http_get url s =
    (outcome (network s (requests s) url),
     after s 1 (elapsed (network s (requests s) url)) [EvGet url]).
Proof.
  unfold http_get. f_equal. apply state_eq; cbn; try done; lia.
Qed.

Lemma with_semaphore_run {A} (body : M A) (s : State) :
  with_semaphore body s =
    (fst (body (after s 0 0 [EvAcquire])),
     after (snd (body (after s 0 0 [EvAcquire]))) 0 0 [EvRelease]).
Proof.
  unfold with_semaphore. rewrite emit_run.
  destruct (body _) as [r s2]. by rewrite emit_run.
Qed.

Ltac same_state :=
  f_equal; apply state_eq; cbn; try done; try lia;
  rewrite <- ?app_assoc; try done.

(** The request made while holding the slot, and what follows a 429. *)
Lemma first_attempt_run (url : string) (s : State) (res : Response) :
  outcome (network s (requests s) url) = Ok res ->
  DataClient.first_attempt url s =
    let dt := elapsed (network s (requests s) url) in
    if status_code res =? DataClient.RATE_LIMIT then
      match hint_of (retry_after res) with
      | Some hint =>
          (Ok (res, Some (Z.max hint 5)),
           after s 1 dt [EvAcquire; EvGet url;
                         EvLog WARNING (LogRateLimited url (Z.max hint 5));
                         EvRelease])
      | None => (Raise ValueError, after s 1 dt [EvAcquire; EvGet url; EvRelease])
      end
    else (Ok (res, None), after s 1 dt [EvAcquire; EvGet url; EvRelease]).
Proof.
  intros H. unfold DataClient.first_attempt.
  rewrite with_semaphore_run, bind_run, http_get_run. cbn [after network requests].
  rewrite Nat.add_0_r, H.
  destruct (status_code res =? DataClient.RATE_LIMIT).
  - destruct (retry_after res) as [[n | t] |];
      cbv [hint_of default from_option id int_of_text];
      rewrite bind_run; cbv [lift]; cbv iota beta;
      try (rewrite bind_run; unfold log; rewrite emit_run);
      cbv [mret M_ret fst snd]; rewrite !after_after; same_state.
  - cbn [mret M_ret fst snd]. rewrite !after_after. same_state.
Qed.

Lemma retry_run (url : string) (s : State) :
  with_semaphore (res ← http_get url; _ ← raise_for_status res; mret res) s =
    (checked (network s (requests s) url),
     after s 1 (elapsed (network s (requests s) url))
           [EvAcquire; EvGet url; EvRelease]).
Proof.
  rewrite with_semaphore_run, bind_run, http_get_run. cbn [after network requests].
  rewrite Nat.add_0_r. unfold checked.
  destruct (outcome _) as [res | e]; cbn [fst snd].
  - rewrite bind_run. unfold raise_for_status.
    destruct (_ && _); cbn [mret M_ret raise lift fst snd];
      rewrite !after_after; same_state.
  - rewrite !after_after. same_state.
Qed.

(** C2. A fetch whose first response is a 429 (with no [retry-after]
    header or an integer one) waits max(hint, 5) seconds, the hint being 5
    when the header is absent, with the slot released, and then makes
    exactly one more request; whatever that request yields is the result:
    a second 429 is raised as an HTTP status error with status 429.  A
    first response that is not a 429 is never retried, and an error status
    on it is raised at once with that status. *)
Theorem get_retries_once_after_rate_limit
    (s : State) (url : string) (res : Response) (hint : Z) :
  outcome (network s (requests s) url) = Ok res ->
  hint_of (retry_after res) = Some hint ->
  let first := network s (requests s) url in
  let second := network s (S (requests s)) url in
  let wait := Z.max hint 5 in
  (status_code res = 429 ->
   DataClient._get url s =
     (checked second,
      after s 2 (elapsed first + wait + elapsed second)
        [EvLog DEBUG (LogGet url);
         EvAcquire; EvGet url; EvLog WARNING (LogRateLimited url wait); EvRelease;
         EvSleep wait;
         EvAcquire; EvGet url; EvRelease]) /\
   5 <= wait /\
   (retry_after res = None \/ hint <= 5 -> wait = 5) /\
   (forall res2, outcome second = Ok res2 -> status_code res2 = 429 ->
                 checked second = Raise (HTTPStatusError 429))) /\
  (status_code res <> 429 ->
   DataClient._get url s =
     (checked first,
      after s 1 (elapsed first)
        [EvLog DEBUG (LogGet url); EvAcquire; EvGet url; EvRelease]) /\
   (~ (200 <= status_code res < 300) ->
    checked first = Raise (HTTPStatusError (status_code res)))).
Proof.
  intros Hres Hhint first second wait. split.
  - intros H429. split; [| split; [| split]].
    + unfold DataClient._get. rewrite bind_run. unfold log. rewrite emit_run.
      rewrite bind_run, (first_attempt_run url _ res)
        by (cbn [after network requests]; rewrite Nat.add_0_r; exact Hres).
      cbn [after network requests clock]. rewrite Nat.add_0_r. fold first.
      rewrite H429. change (429 =? DataClient.RATE_LIMIT) with true. cbv iota.
      rewrite Hhint. cbv zeta. cbv iota beta.
      rewrite H429. change (429 =? DataClient.RATE_LIMIT) with true. cbv iota.
      rewrite bind_run. cbn [lift]. rewrite bind_run, sleep_run, retry_run.
      rewrite !after_after. cbn [after network requests].
      rewrite Nat.add_0_r, Nat.add_1_r. fold second wait.
      same_state.
    + lia.
    + intros [Hnone | Hle]; [| lia].
      rewrite Hnone in Hhint. inversion Hhint. lia.
    + intros res2 H2 Hs. unfold checked. rewrite H2, Hs. reflexivity.
  - intros Hne. split.
    + unfold DataClient._get. rewrite bind_run. unfold log. rewrite emit_run.
      rewrite bind_run, (first_attempt_run url _ res)
        by (cbn [after network requests]; rewrite Nat.add_0_r; exact Hres).
      cbn [after network requests clock]. rewrite Nat.add_0_r. fold first.
      destruct (status_code res =? DataClient.RATE_LIMIT) eqn:E;
        [apply Z.eqb_eq in E; done |].
      cbv zeta. cbv iota beta. rewrite E.
      rewrite bind_run. unfold checked, first. rewrite Hres.
      unfold raise_for_status.
      destruct (_ && _); cbn [mret M_ret raise lift];
        rewrite !after_after; same_state.
    + intros Hbad. unfold checked, first. rewrite Hres.
      destruct ((200 <=? status_code res) && (status_code res <? 300)) eqn:E;
        [| done].
      apply andb_true_iff in E as [E1 E2].
      apply Z.leb_le in E1. apply Z.ltb_lt in E2. lia.
Qed.

(** C2 at work: a 429 with [retry-after: 2], then a second 429. *)
Lemma get_retries_once_after_rate_limit_witness :
  DataClient._get "u" (start limited_network) =
    (Raise (HTTPStatusError 429),
     after (start limited_network) 2 (1 + 5 + 1)
       [EvLog DEBUG (LogGet "u");
        EvAcquire; EvGet "u"; EvLog WARNING (LogRateLimited "u" 5); EvRelease;
        EvSleep 5;
        EvAcquire; EvGet "u"; EvRelease]).
Proof.
  destruct (get_retries_once_after_rate_limit (start limited_network) "u"
              {| status_code := 429; retry_after := Some (IntText 2); body := NotJson |}
              2 eq_refl eq_refl) as [H _].
  destruct (H eq_refl) as [E _]. exact E.
Defined.

(* ===================================================================== *)
(** ** Item construction *)
(* ===================================================================== *)

Lemma require_columns_missing (have want : list string) (c : string) :
  c ∈ want -> c ∉ have -> exists c', require_columns have want = Raise (KeyError c').
Proof.
  induction want as [| w want IH]; intros Hin Hnot; [by apply elem_of_nil in Hin |].
  cbn. destruct (bool_decide (w ∈ have)) eqn:E; [| eauto].
  apply bool_decide_eq_true in E.
  apply elem_of_cons in Hin as [-> | Hin]; [done | by apply IH].
Qed.

Lemma init_missing_column (item_id : string) (h : RawHistory)
    (buy sell : list OrderRow) (c : string) :
  c ∈ history_columns -> c ∉ columns h ->
  exists c', Recommender_.__init__ item_id h buy sell = Raise (KeyError c').
Proof.
  intros Hin Hnot. unfold Recommender_.__init__, transformed_past_hour.
  apply elem_of_cons in Hin as [-> | Hin].
  - destruct (require_columns_missing (columns h) ["timestamp"%string] "timestamp")
      as [c' ->]; [by left | done |]. eauto.
  - destruct (require_columns (columns h) ["timestamp"%string]) as [[] | e] eqn:E.
    + destruct (require_columns_missing (columns h) fill_cols c Hin Hnot)
        as [c' ->]. eauto.
    + cbn in E. destruct (bool_decide _); [discriminate |]. inversion E. eauto.
Qed.

(** The handlers of [get_recommender] turn every exception into [None]
    and one log record. *)
Lemma get_recommender_run (item_id : string) (orderbooks : ItemOrderbookDict)
    (s : State) :
  exists s',
    DataClient.get_recommender item_id orderbooks s =
      (Ok (construction item_id orderbooks s), s') /\
    (construction item_id orderbooks s = None ->
     exists level record, last (trace s') = Some (EvLog level record)).
Proof.
  unfold DataClient.get_recommender, construction.
  destruct (orderbooks !! item_id) as [ob |].
  - unfold try_except. rewrite bind_run.
    destruct (DataClient.get_past_hour item_id s) as [[h | e] s1].
    + rewrite bind_run. cbv [lift].
      destruct (Recommender_.__init__ item_id h ob.1 ob.2) as [r | e].
      * eexists. split; [reflexivity | discriminate].
      * destruct e; rewrite bind_run; unfold log; rewrite emit_run;
          (eexists; split; [reflexivity |]); intros _;
          cbn [after trace]; rewrite last_snoc; eauto.
    + destruct e; rewrite bind_run; unfold log; rewrite emit_run;
        (eexists; split; [reflexivity |]); intros _;
        cbn [after trace]; rewrite last_snoc; eauto.
  - rewrite bind_run. unfold log. rewrite emit_run.
    eexists. split; [reflexivity |]. intros _.
    cbn [after trace]. rewrite last_snoc. eauto.
Qed.

(* ===================================================================== *)
(** ** The caches *)
(* ===================================================================== *)

Lemma find_entries {V} (c : TTLCache.t V) (k : string) :
  TTLCache.find c k = head (entries_of c k).
Proof.
  unfold TTLCache.find, entries_of.
  induction c as [| l c IH]; cbn; [done |].
  destruct (bool_decide (TTLCache.key l = k)); [done | exact IH].
Qed.

Lemma entries_of_app {V} (c c' : TTLCache.t V) (k : string) :
  entries_of (c ++ c') k = entries_of c k ++ entries_of c' k.
Proof. apply List.filter_app. Qed.

Lemma entries_of_remove {V} (c : TTLCache.t V) (k : string) :
  entries_of (TTLCache.remove c k) k = [].
Proof.
  unfold entries_of, TTLCache.remove.
  induction c as [| l c IH]; cbn; [done |].
  destruct (bool_decide (TTLCache.key l = k)) eqn:E; cbn; [exact IH |].
  by rewrite E.
Qed.

Lemma entries_of_drop {V} (n : nat) (c : TTLCache.t V) (k : string) :
  entries_of c k = [] -> entries_of (drop n c) k = [].
Proof.
  revert n. induction c as [| l c IH]; intros [| n] H; cbn; try done.
  apply IH. unfold entries_of in *. cbn in H.
  by destruct (bool_decide (TTLCache.key l = k)).
Qed.

(** Writing a key leaves exactly one entry under it: the new one. *)
Lemma setitem_entry {V} (maxsize : nat) (ttl : Z) (c : TTLCache.t V)
    (now : Z) (k : string) (v : V) :
  (1 <= maxsize)%nat ->
  exists c',
    TTLCache.setitem maxsize ttl c now k v = Ok c' /\
    entries_of c' k = [TTLCache.Link k v (now + ttl)].
Proof.
  intros Hmax. unfold TTLCache.setitem.
  destruct (maxsize <? 1)%nat eqn:E; [apply Nat.ltb_lt in E; lia |].
  eexists. split; [reflexivity |].
  rewrite entries_of_app.
  assert (entries_of [TTLCache.Link k v (now + ttl)] k
          = [TTLCache.Link k v (now + ttl)]) as ->.
  { unfold entries_of. cbn. by rewrite bool_decide_eq_true_2. }
  rewrite find_entries.
  destruct (entries_of (TTLCache.expire c now) k) as [| l ls] eqn:El;
    cbn [head].
  - unfold TTLCache.make_room. by rewrite (entries_of_drop _ _ _ El).
  - by rewrite entries_of_remove.
Qed.

Lemma getitem_entry {V} (c : TTLCache.t V) (now : Z) (k : string) (v : V) (e : Z) :
  entries_of c k = [TTLCache.Link k v e] -> now < e ->
  fst (TTLCache.getitem c now k) = Ok v.
Proof.
  intros H Hlt. unfold TTLCache.getitem. cbn [fst]. rewrite find_entries, H. cbn.
  by rewrite (proj2 (Z.ltb_lt _ _) Hlt).
Qed.

Lemma contains_getitem {V} (c : TTLCache.t V) (now : Z) (k : string) :
  TTLCache.contains c now k = true ->
  exists v, TTLCache.getitem c now k = (Ok v, TTLCache.touch c k).
Proof.
  unfold TTLCache.contains, TTLCache.getitem.
  destruct (TTLCache.find c k) as [l |]; [| discriminate].
  intros ->. eauto.
Qed.

Lemma gets_run {A} (f : State -> A) (s : State) : gets f s = (Ok (f s), s).
Proof. reflexivity. Qed.

(** A miss of the item cache: the recommender is written when there is
    one, and only then. *)
Lemma recommender_cache_miss (item_id : string) (orderbooks : ItemOrderbookDict)
    (s : State) :
  TTLCache.contains (recommender_cache s) (clock s) item_id = false ->
  exists s'',
    RecommenderCache.get item_id orderbooks s =
      (Ok (construction item_id orderbooks s), s'') /\
    orderbook_cache s'' = orderbook_cache s /\
    good_products_cache s'' = good_products_cache s /\
    match construction item_id orderbooks s with
    | None => recommender_cache s'' = recommender_cache s
    | Some r =>
        fst (TTLCache.getitem (recommender_cache s'') (clock s'') item_id) = Ok r /\
        entries_of (recommender_cache s'') item_id =
          [TTLCache.Link item_id r (clock s'' + RecommenderCache.ttl)]
    end.
Proof.
  intros Hmiss. unfold RecommenderCache.get.
  rewrite bind_run, gets_run, bind_run, gets_run. cbv iota beta. rewrite Hmiss.
  destruct (get_recommender_run item_id orderbooks s) as (s' & E & _).
  pose proof (get_recommender_same_caches item_id orderbooks s) as (Hr & Ho & Hg).
  rewrite E in Hr, Ho, Hg. cbn [snd] in Hr, Ho, Hg.
  rewrite bind_run, E. cbv iota beta.
  destruct (construction item_id orderbooks s) as [r |].
  - rewrite bind_run, bind_run, gets_run, bind_run, gets_run. cbv iota beta.
    destruct (setitem_entry RecommenderCache.maxsize RecommenderCache.ttl
                (recommender_cache s') (clock s') item_id r)
      as (c' & Hset & Hent); [unfold RecommenderCache.maxsize; lia |].
    rewrite bind_run. cbv [lift]. rewrite Hset. cbv iota beta.
    eexists. split; [reflexivity |]. cbn.
    split; [done |]. split; [done |]. split; [| done].
    apply (getitem_entry _ _ _ _ _ Hent). unfold RecommenderCache.ttl. lia.
  - eexists. split; [reflexivity |]. done.
Qed.

Lemma recommender_cache_hit (item_id : string) (orderbooks : ItemOrderbookDict)
    (s : State) :
  TTLCache.contains (recommender_cache s) (clock s) item_id = true ->
  exists r,
    RecommenderCache.get item_id orderbooks s
      = (Ok (Some r), touch_recommender s item_id) /\
    fst (TTLCache.getitem (recommender_cache s) (clock s) item_id) = Ok r.
Proof.
  intros Hhit. unfold RecommenderCache.get.
  rewrite bind_run, gets_run, bind_run, gets_run. cbv iota beta zeta. rewrite Hhit.
  destruct (contains_getitem _ _ _ Hhit) as [r Hr].
  exists r. rewrite Hr. by split.
Qed.

(** C5. Constructing an item never raises: [get_recommender] returns the
    recommender when the item has order books, its history is fetched and
    the construction returns, and otherwise returns [None] after logging,
    whether the identifier is absent from the order books, the fetch fails
    (HTTP error or any other), the history lacks a required column, or the
    construction raises anything else; it never touches a cache.  A hit
    of the item cache returns the cached recommender and only makes its
    link the most recently used.  On a miss the item cache is written only
    with a constructed recommender, which becomes the one entry under the
    item's key. *)
Theorem construction_never_raises (item_id : string)
    (orderbooks : ItemOrderbookDict) (s : State) :
  let v := construction item_id orderbooks s in
  (exists s',
     DataClient.get_recommender item_id orderbooks s = (Ok v, s') /\
     same_caches s s' /\
     (v = None -> exists level record, last (trace s') = Some (EvLog level record))) /\
  (orderbooks !! item_id = None -> v = None) /\
  (forall e, fst (DataClient.get_past_hour item_id s) = Raise e -> v = None) /\
  (forall h c, fst (DataClient.get_past_hour item_id s) = Ok h ->
               c ∈ history_columns -> c ∉ columns h -> v = None) /\
  (forall h ob e, orderbooks !! item_id = Some ob ->
                  fst (DataClient.get_past_hour item_id s) = Ok h ->
                  Recommender_.__init__ item_id h (fst ob) (snd ob) = Raise e ->
                  v = None) /\
  (TTLCache.contains (recommender_cache s) (clock s) item_id = true ->
   exists r,
     RecommenderCache.get item_id orderbooks s
       = (Ok (Some r), touch_recommender s item_id) /\
     fst (TTLCache.getitem (recommender_cache s) (clock s) item_id) = Ok r) /\
  (TTLCache.contains (recommender_cache s) (clock s) item_id = false ->
   exists s'',
     RecommenderCache.get item_id orderbooks s = (Ok v, s'') /\
     orderbook_cache s'' = orderbook_cache s /\
     good_products_cache s'' = good_products_cache s /\
     match v with
     | None => recommender_cache s'' = recommender_cache s
     | Some r =>
         fst (TTLCache.getitem (recommender_cache s'') (clock s'') item_id) = Ok r /\
         entries_of (recommender_cache s'') item_id =
           [TTLCache.Link item_id r (clock s'' + RecommenderCache.ttl)]
     end).
Proof.
  intros v. split; [| split; [| split; [| split; [| split; [| split]]]]].
  - destruct (get_recommender_run item_id orderbooks s) as (s' & E & Hlog).
    exists s'. split; [exact E |]. split; [| exact Hlog].
    pose proof (get_recommender_same_caches item_id orderbooks s) as H.
    by rewrite E in H.
  - intros H. unfold v, construction. by rewrite H.
  - intros e H. unfold v, construction.
    destruct (orderbooks !! item_id); [| done].
    destruct (DataClient.get_past_hour item_id s) as [[h | e'] s1]; [| done].
    discriminate H.
  - intros h c H Hin Hnot. unfold v, construction.
    destruct (orderbooks !! item_id) as [ob |]; [| done].
    destruct (DataClient.get_past_hour item_id s) as [[h' | e'] s1]; [| done].
    cbn in H. inversion H; subst h'.
    by destruct (init_missing_column item_id h ob.1 ob.2 c Hin Hnot) as [c' ->].
  - intros h ob e Hob H Hinit. unfold v, construction. rewrite Hob.
    destruct (DataClient.get_past_hour item_id s) as [[h' | e'] s1]; [| done].
    cbn in H. inversion H; subst h'. by rewrite Hinit.
  - apply recommender_cache_hit.
  - apply recommender_cache_miss.
Qed.

(** C5 at work: the history request fails with status 500. *)
Lemma construction_never_raises_witness :
  exists s',
    DataClient.get_recommender "ENCHANTED_DIAMOND"
      {[ "ENCHANTED_DIAMOND"%string := ([order 100], [order 103]) ]}
      (start failing_network) = (Ok None, s') /\
    same_caches (start failing_network) s'.
Proof.
  destruct (construction_never_raises "ENCHANTED_DIAMOND"
              {[ "ENCHANTED_DIAMOND"%string := ([order 100], [order 103]) ]}
              (start failing_network)) as [(s' & E & Hs & _) _].
  exists s'. split; [exact E | exact Hs].
Defined.

Lemma get_orderbooks_same_caches : respects same_caches DataClient.get_orderbooks.
Proof.
  apply respects_get_orderbooks; try apply _.
  - intros; apply same_caches_emit.
  - apply same_caches_advance.
  - apply same_caches_http_get.
Qed.

Lemma get_good_products_same_caches :
  respects same_caches DataClient.get_good_products.
Proof.
  apply respects_get_good_products; try apply _.
  - intros; apply same_caches_emit.
  - apply same_caches_advance.
  - apply same_caches_http_get.
Qed.

(** A miss of a singleton cache whose fetch raises: the exception goes to
    the caller and nothing is written. *)
Lemma orderbook_cache_failed_fetch (s : State) (e : exn) :
  TTLCache.contains (orderbook_cache s) (clock s) "_" = false ->
  fst (DataClient.get_orderbooks s) = Raise e ->
  exists s', OrderbookCache.get s = (Raise e, s') /\ same_caches s s'.
Proof.
  intros Hmiss Hfail. unfold OrderbookCache.get.
  rewrite bind_run, gets_run, bind_run, gets_run. cbv iota beta. rewrite Hmiss.
  rewrite bind_run.
  pose proof (get_orderbooks_same_caches s) as Hsame.
  destruct (DataClient.get_orderbooks s) as [r s']. cbn in Hfail, Hsame.
  subst r. by exists s'.
Qed.

Lemma good_products_cache_failed_fetch (s : State) (e : exn) :
  TTLCache.contains (good_products_cache s) (clock s) "_" = false ->
  fst (DataClient.get_good_products s) = Raise e ->
  exists s', GoodProductsCache.get s = (Raise e, s') /\ same_caches s s'.
Proof.
  intros Hmiss Hfail. unfold GoodProductsCache.get.
  rewrite bind_run, gets_run, bind_run, gets_run. cbv iota beta. rewrite Hmiss.
  rewrite bind_run.
  pose proof (get_good_products_same_caches s) as Hsame.
  destruct (DataClient.get_good_products s) as [r s']. cbn in Hfail, Hsame.
  subst r. by exists s'.
Qed.

(** A miss of a singleton cache whose fetch returns: the value is written
    under the key ["_"], after the fetch, and is the one entry there. *)
Lemma orderbook_cache_fetched (s : State) (orderbooks : ItemOrderbookDict) :
  TTLCache.contains (orderbook_cache s) (clock s) "_" = false ->
  fst (DataClient.get_orderbooks s) = Ok orderbooks ->
  exists s',
    OrderbookCache.get s = (Ok orderbooks, s') /\
    trace s' = trace (snd (DataClient.get_orderbooks s)) /\
    recommender_cache s' = recommender_cache s /\
    good_products_cache s' = good_products_cache s /\
    fst (TTLCache.getitem (orderbook_cache s') (clock s') "_") = Ok orderbooks.
Proof.
  intros Hmiss Hok. unfold OrderbookCache.get.
  rewrite bind_run, gets_run, bind_run, gets_run. cbv iota beta. rewrite Hmiss.
  rewrite bind_run.
  pose proof (get_orderbooks_same_caches s) as (Hr & Ho & Hg).
  destruct (DataClient.get_orderbooks s) as [r s1]. cbn in Hok, Hr, Ho, Hg.
  subst r. cbv iota beta.
  rewrite bind_run, gets_run, bind_run, gets_run. cbv iota beta.
  destruct (setitem_entry OrderbookCache.maxsize OrderbookCache.ttl
              (orderbook_cache s1) (clock s1) "_" orderbooks)
    as (c' & Hset & Hent); [unfold OrderbookCache.maxsize; lia |].
  rewrite bind_run. cbv [lift]. rewrite Hset. cbv iota beta.
  eexists. split; [reflexivity |]. cbn.
  split; [done |]. split; [done |]. split; [done |].
  apply (getitem_entry _ _ _ _ _ Hent). unfold OrderbookCache.ttl. lia.
Qed.

Lemma good_products_cache_fetched (s : State) (items : list string) :
  TTLCache.contains (good_products_cache s) (clock s) "_" = false ->
  fst (DataClient.get_good_products s) = Ok items ->
  exists s',
    GoodProductsCache.get s = (Ok items, s') /\
    trace s' = trace (snd (DataClient.get_good_products s)) /\
    recommender_cache s' = recommender_cache s /\
    orderbook_cache s' = orderbook_cache s /\
    fst (TTLCache.getitem (good_products_cache s') (clock s') "_") = Ok items.
Proof.
  intros Hmiss Hok. unfold GoodProductsCache.get.
  rewrite bind_run, gets_run, bind_run, gets_run. cbv iota beta. rewrite Hmiss.
  rewrite bind_run.
  pose proof (get_good_products_same_caches s) as (Hr & Ho & Hg).
  destruct (DataClient.get_good_products s) as [r s1]. cbn in Hok, Hr, Ho, Hg.
  subst r. cbv iota beta.
  rewrite bind_run, gets_run, bind_run, gets_run. cbv iota beta.
  destruct (setitem_entry GoodProductsCache.maxsize GoodProductsCache.ttl
              (good_products_cache s1) (clock s1) "_" items)
    as (c' & Hset & Hent); [unfold GoodProductsCache.maxsize; lia |].
  rewrite bind_run. cbv [lift]. rewrite Hset. cbv iota beta.
  eexists. split; [reflexivity |]. cbn.
  split; [done |]. split; [done |]. split; [done |].
  apply (getitem_entry _ _ _ _ _ Hent). unfold GoodProductsCache.ttl. lia.
Qed.

(** C10. A cache is written only when its population succeeds.  On a miss
    of a singleton cache whose fetch raises, the exception reaches the
    caller and the three caches are as before; when the fetch returns, the
    key is written after it.  On a miss of the item cache whose
    construction yields no recommender, the three caches are as before. *)
Theorem failed_population_keeps_caches (s : State) :
  (forall e,
     TTLCache.contains (orderbook_cache s) (clock s) "_" = false ->
     fst (DataClient.get_orderbooks s) = Raise e ->
     exists s', OrderbookCache.get s = (Raise e, s') /\ same_caches s s') /\
  (forall e,
     TTLCache.contains (good_products_cache s) (clock s) "_" = false ->
     fst (DataClient.get_good_products s) = Raise e ->
     exists s', GoodProductsCache.get s = (Raise e, s') /\ same_caches s s') /\
  (forall item_id orderbooks,
     TTLCache.contains (recommender_cache s) (clock s) item_id = false ->
     construction item_id orderbooks s = None ->
     exists s', RecommenderCache.get item_id orderbooks s = (Ok None, s') /\
                same_caches s s') /\
  (forall orderbooks,
     TTLCache.contains (orderbook_cache s) (clock s) "_" = false ->
     fst (DataClient.get_orderbooks s) = Ok orderbooks ->
     exists s',
       OrderbookCache.get s = (Ok orderbooks, s') /\
       trace s' = trace (snd (DataClient.get_orderbooks s)) /\
       fst (TTLCache.getitem (orderbook_cache s') (clock s') "_") = Ok orderbooks) /\
  (forall items,
     TTLCache.contains (good_products_cache s) (clock s) "_" = false ->
     fst (DataClient.get_good_products s) = Ok items ->
     exists s',
       GoodProductsCache.get s = (Ok items, s') /\
       trace s' = trace (snd (DataClient.get_good_products s)) /\
       fst (TTLCache.getitem (good_products_cache s') (clock s') "_") = Ok items).
Proof.
  split; [| split; [| split; [| split]]].
  - intros e. apply orderbook_cache_failed_fetch.
  - intros e. apply good_products_cache_failed_fetch.
  - intros item_id orderbooks Hmiss Hnone.
    destruct (recommender_cache_miss item_id orderbooks s Hmiss)
      as (s' & E & Ho & Hg & Hr).
    rewrite Hnone in E, Hr. exists s'. split; [exact E | done].
  - intros orderbooks Hmiss Hok.
    destruct (orderbook_cache_fetched s orderbooks Hmiss Hok)
      as (s' & E & Ht & _ & _ & Hget). eauto.
  - intros items Hmiss Hok.
    destruct (good_products_cache_fetched s items Hmiss Hok)
      as (s' & E & Ht & _ & _ & Hget). eauto.
Qed.

(** C10 at work: the snapshot request fails with status 500. *)
Lemma failed_population_keeps_caches_witness :
  exists s',
    OrderbookCache.get (start failing_network) = (Raise (HTTPStatusError 500), s') /\
    same_caches (start failing_network) s'.
Proof.
  destruct (failed_population_keeps_caches (start failing_network)) as [H _].
  apply (H (HTTPStatusError 500)); reflexivity.
Defined.

(* ===================================================================== *)
(** ** The refresh cycle *)
(* ===================================================================== *)

Section Quiet.
Let R := quiet_step.

Lemma quiet_set_recommender_cache (c : TTLCache.t Recommender) :
  respects R (set_recommender_cache c).
Proof. intros s. exists []. by rewrite app_nil_r. Qed.

Lemma quiet_set_orderbook_cache (c : TTLCache.t ItemOrderbookDict) :
  respects R (set_orderbook_cache c).
Proof. intros s. exists []. by rewrite app_nil_r. Qed.

Lemma quiet_set_good_products_cache (c : TTLCache.t (list string)) :
  respects R (set_good_products_cache c).
Proof. intros s. exists []. by rewrite app_nil_r. Qed.

Lemma quiet_recommender_cache_get (item_id : string) (orderbooks : ItemOrderbookDict) :
  respects R (RecommenderCache.get item_id orderbooks).
Proof.
  apply respects_bind; [apply _ | apply respects_gets; apply _ |]. intros cache.
  apply respects_bind; [apply _ | apply respects_gets; apply _ |]. intros now.
  destruct (TTLCache.contains cache now item_id).
  - apply respects_bind; [apply _ | apply quiet_set_recommender_cache |].
    intros _.
    apply respects_bind; [apply _ | apply respects_lift; apply _ |].
    intros; apply respects_ret; apply _.
  - apply respects_bind; [apply _ | |].
    + apply respects_get_recommender;
        [apply _ | apply quiet_emit | apply quiet_advance | apply quiet_http_get].
    + intros [r |].
      * apply respects_bind; [apply _ | | intros; apply respects_ret; apply _].
        apply respects_bind; [apply _ | apply respects_gets; apply _ |]. intros c.
        apply respects_bind; [apply _ | apply respects_gets; apply _ |]. intros t.
        apply respects_bind; [apply _ | apply respects_lift; apply _ |].
        intros c'. apply quiet_set_recommender_cache.
      * apply respects_bind; [apply _ | apply respects_ret; apply _ |].
        intros; apply respects_ret; apply _.
Qed.

Lemma quiet_orderbook_cache_get : respects R OrderbookCache.get.
Proof.
  apply respects_bind; [apply _ | apply respects_gets; apply _ |]. intros cache.
  apply respects_bind; [apply _ | apply respects_gets; apply _ |]. intros now.
  destruct (TTLCache.contains cache now "_").
  { apply respects_bind; [apply _ | apply quiet_set_orderbook_cache |].
    intros _. apply respects_lift; apply _. }
  apply respects_bind; [apply _ | |].
  - apply respects_get_orderbooks;
      [apply _ | apply quiet_emit | apply quiet_advance | apply quiet_http_get].
  - intros obs.
    apply respects_bind; [apply _ | apply respects_gets; apply _ |]. intros c.
    apply respects_bind; [apply _ | apply respects_gets; apply _ |]. intros t.
    apply respects_bind; [apply _ | apply respects_lift; apply _ |]. intros c'.
    apply respects_bind; [apply _ | apply quiet_set_orderbook_cache |].
    intros; apply respects_ret; apply _.
Qed.

Lemma quiet_good_products_cache_get : respects R GoodProductsCache.get.
Proof.
  apply respects_bind; [apply _ | apply respects_gets; apply _ |]. intros cache.
  apply respects_bind; [apply _ | apply respects_gets; apply _ |]. intros now.
  destruct (TTLCache.contains cache now "_").
  { apply respects_bind; [apply _ | apply quiet_set_good_products_cache |].
    intros _. apply respects_lift; apply _. }
  apply respects_bind; [apply _ | |].
  - apply respects_get_good_products;
      [apply _ | apply quiet_emit | apply quiet_advance | apply quiet_http_get].
  - intros items.
    apply respects_bind; [apply _ | apply respects_gets; apply _ |]. intros c.
    apply respects_bind; [apply _ | apply respects_gets; apply _ |]. intros t.
    apply respects_bind; [apply _ | apply respects_lift; apply _ |]. intros c'.
    apply respects_bind; [apply _ | apply quiet_set_good_products_cache |].
    intros; apply respects_ret; apply _.
Qed.

Lemma quiet_refresh_items (item_ids : list string) (orderbooks : ItemOrderbookDict) :
  respects R (CacheManager.refresh_items item_ids orderbooks).
Proof.
  induction item_ids as [| item_id rest IH]; cbn [CacheManager.refresh_items].
  - apply respects_ret; apply _.
  - apply respects_bind; [apply _ | apply quiet_recommender_cache_get |].
    intros _. exact IH.
Qed.
End Quiet.

Lemma recommender_cache_get_returns (item_id : string)
    (orderbooks : ItemOrderbookDict) (s : State) :
  exists v s', RecommenderCache.get item_id orderbooks s = (Ok v, s').
Proof.
  destruct (TTLCache.contains (recommender_cache s) (clock s) item_id) eqn:E.
  - destruct (recommender_cache_hit item_id orderbooks s E) as (r & Hr & _). eauto.
  - destruct (recommender_cache_miss item_id orderbooks s E) as (s' & Hr & _).
    eauto.
Qed.

Lemma refresh_items_returns (item_ids : list string)
    (orderbooks : ItemOrderbookDict) (s : State) :
  fst (CacheManager.refresh_items item_ids orderbooks s) = Ok tt.
Proof.
  revert s. induction item_ids as [| item_id rest IH]; intros s;
    cbn [CacheManager.refresh_items]; [done |].
  rewrite bind_run.
  destruct (recommender_cache_get_returns item_id orderbooks s) as (v & s' & ->).
  apply IH.
Qed.

Lemma phases_of_app (evs evs' : list Event) :
  phases_of (evs ++ evs') = phases_of evs ++ phases_of evs'.
Proof. apply omap_app. Qed.

Lemma phase_run (p : Phase) (s : State) :
  phase p s = (Ok tt, after s 0 0 [EvPhase p]).
Proof. apply emit_run. Qed.

(** One pass of [refresh]: it completes after its three steps, or an
    exception ends it in the first or the second. *)
Lemma refresh_run (s : State) :
  exists evs,
    trace (snd (CacheManager.refresh s)) = trace s ++ evs /\
    ((fst (CacheManager.refresh s) = Ok tt /\
      phases_of evs = [FETCH_ELIGIBLE; FETCH_SNAPSHOT; REFRESH_ITEMS]) \/
     (exists e, fst (CacheManager.refresh s) = Raise e /\
                (phases_of evs = [FETCH_ELIGIBLE] \/
                 phases_of evs = [FETCH_ELIGIBLE; FETCH_SNAPSHOT]))).
Proof.
  unfold CacheManager.refresh. rewrite bind_run, phase_run, bind_run.
  destruct (quiet_good_products_cache_get (after s 0 0 [EvPhase FETCH_ELIGIBLE]))
    as (e1 & T1 & P1).
  destruct (GoodProductsCache.get _) as [[item_ids | e] s1]; cbn [snd] in T1.
  2:{ exists ([EvPhase FETCH_ELIGIBLE] ++ e1). cbn [fst snd].
      split; [rewrite T1; cbn [after trace]; by rewrite <- app_assoc |].
      right. exists e. split; [done |].
      left. by rewrite phases_of_app, P1. }
  rewrite bind_run, phase_run, bind_run.
  destruct (quiet_orderbook_cache_get (after s1 0 0 [EvPhase FETCH_SNAPSHOT]))
    as (e2 & T2 & P2).
  destruct (OrderbookCache.get _) as [[orderbooks | e] s2]; cbn [snd] in T2.
  2:{ exists ([EvPhase FETCH_ELIGIBLE] ++ e1 ++ [EvPhase FETCH_SNAPSHOT] ++ e2).
      cbn [fst snd].
      split; [rewrite T2; cbn [after trace]; rewrite T1; cbn [after trace];
              by rewrite <- !app_assoc |].
      right. exists e. split; [done |]. right.
      by rewrite !phases_of_app, P1, P2. }
  rewrite bind_run, phase_run.
  destruct (quiet_refresh_items item_ids orderbooks
              (after s2 0 0 [EvPhase REFRESH_ITEMS])) as (e3 & T3 & P3).
  pose proof (refresh_items_returns item_ids orderbooks
                (after s2 0 0 [EvPhase REFRESH_ITEMS])) as Hret.
  destruct (CacheManager.refresh_items _ _ _) as [r s3]; cbn [fst snd] in *.
  exists ([EvPhase FETCH_ELIGIBLE] ++ e1 ++ [EvPhase FETCH_SNAPSHOT] ++ e2
          ++ [EvPhase REFRESH_ITEMS] ++ e3).
  split; [rewrite T3; cbn [after trace]; rewrite T2; cbn [after trace];
          rewrite T1; cbn [after trace]; by rewrite <- !app_assoc |].
  left. split; [done |]. by rewrite !phases_of_app, P1, P2, P3.
Qed.

(** One turn of the loop never raises; its steps are those of a completed
    cycle, without SLEEP, or those of an aborted one, which ends with the
    critical log record and the 5-second sleep. *)
Lemma refresh_loop_body_run (s : State) :
  exists s' evs,
    refresh_loop_body s = (Ok tt, s') /\
    trace s' = trace s ++ evs /\
    ((fst (CacheManager.refresh (after s 0 0 [EvPhase IDLE])) = Ok tt /\
      phases_of evs = completed_cycle) \/
     (exists e evs0,
        fst (CacheManager.refresh (after s 0 0 [EvPhase IDLE])) = Raise e /\
        aborted_cycle (phases_of evs) /\
        evs = evs0 ++ [EvLog CRITICAL (LogRefreshError e); EvPhase SLEEP; EvSleep 5])).
Proof.
  unfold refresh_loop_body. rewrite bind_run, phase_run. unfold try_except.
  destruct (refresh_run (after s 0 0 [EvPhase IDLE])) as (evs & T & H).
  destruct (CacheManager.refresh _) as [[[] | e] s1]; cbn [fst snd] in *.
  - exists s1, ([EvPhase IDLE] ++ evs).
    split; [done |].
    split; [rewrite T; cbn [after trace]; by rewrite <- app_assoc |].
    left. split; [done |].
    destruct H as [[_ P] | (e & He & _)]; [| discriminate].
    by rewrite phases_of_app, P.
  - rewrite bind_run. unfold log. rewrite emit_run, bind_run, phase_run, sleep_run.
    rewrite !after_after.
    eexists _, ([EvPhase IDLE] ++ evs ++
                [EvLog CRITICAL (LogRefreshError e); EvPhase SLEEP; EvSleep 5]).
    split; [reflexivity |].
    split; [cbn [after trace]; rewrite T; cbn [after trace];
            by rewrite <- !app_assoc |].
    right. exists e, ([EvPhase IDLE] ++ evs).
    split; [done |]. split; [| by rewrite <- app_assoc].
    destruct H as [[He _] | (e' & _ & [P | P])]; [discriminate | |];
      rewrite !phases_of_app, P; [by left | by right].
Qed.

Lemma idle_once (ps : list Phase) :
  ps = completed_cycle \/ aborted_cycle ps ->
  length (List.filter is_idle ps) = 1%nat.
Proof. by intros [-> | [-> | ->]]. Qed.

Lemma refresh_loop_run (turns : nat) (s : State) :
  exists s' evs,
    refresh_loop turns s = (Ok tt, s') /\
    trace s' = trace s ++ evs /\
    length (List.filter is_idle (phases_of evs)) = turns.
Proof.
  revert s. induction turns as [| turns IH]; intros s; cbn [refresh_loop].
  - exists s, []. by rewrite app_nil_r.
  - rewrite bind_run.
    destruct (refresh_loop_body_run s) as (s1 & evs1 & -> & T1 & H1).
    destruct (IH s1) as (s2 & evs2 & E2 & T2 & H2).
    exists s2, (evs1 ++ evs2). split; [exact E2 |].
    split; [by rewrite T2, T1, app_assoc |].
    rewrite phases_of_app, List.filter_app, length_app, H2.
    rewrite idle_once; [done |].
    destruct H1 as [[_ P] | (e & evs0 & _ & P & _)]; eauto.
Qed.




(* ===================================================================== *)
(** ** The fetcher, in every case *)
(* ===================================================================== *)

(** The first request fails in transport, or its 429 carries a header
    [int()] cannot read: the exception leaves the slot's block. *)
Lemma first_attempt_raises (url : string) (s : State) (e : exn) :
  outcome (network s (requests s) url) = Raise e ->
  DataClient.first_attempt url s =
    (Raise e, after s 1 (elapsed (network s (requests s) url))
                [EvAcquire; EvGet url; EvRelease]).
Proof.
  intros H. unfold DataClient.first_attempt.
  rewrite with_semaphore_run, bind_run, http_get_run. cbn [after network requests].
  rewrite Nat.add_0_r, H. cbn [fst snd]. rewrite !after_after. same_state.
Qed.

(** All the ways a fetch can go. *)
Lemma get_run (url : string) (s : State) :
  let first := network s (requests s) url in
  let second := network s (S (requests s)) url in
  let once := after s 1 (elapsed first)
                [EvLog DEBUG (LogGet url); EvAcquire; EvGet url; EvRelease] in
  match outcome first with
  | Raise e => DataClient._get url s = (Raise e, once)
  | Ok res =>
      if status_code res =? DataClient.RATE_LIMIT then
        match hint_of (retry_after res) with
        | None => DataClient._get url s = (Raise ValueError, once)
        | Some hint =>
            DataClient._get url s =
              (checked second,
               after s 2 (elapsed first + Z.max hint 5 + elapsed second)
                 [EvLog DEBUG (LogGet url);
                  EvAcquire; EvGet url;
                  EvLog WARNING (LogRateLimited url (Z.max hint 5)); EvRelease;
                  EvSleep (Z.max hint 5);
                  EvAcquire; EvGet url; EvRelease])
        end
      else DataClient._get url s = (checked first, once)
  end.
Proof.
  intros first second once.
  destruct (outcome first) as [res | e] eqn:Hres.
  - unfold DataClient._get. rewrite bind_run. unfold log. rewrite emit_run.
    rewrite bind_run, (first_attempt_run url _ res)
      by (cbn [after network requests]; rewrite Nat.add_0_r; exact Hres).
    cbn [after network requests clock]. rewrite Nat.add_0_r. fold first.
    destruct (status_code res =? DataClient.RATE_LIMIT) eqn:E.
    + cbv zeta. cbv iota beta.
      destruct (hint_of (retry_after res)) as [hint |]; cbv iota beta.
      * rewrite E. rewrite bind_run. cbn [lift].
        rewrite bind_run, sleep_run, retry_run.
        rewrite !after_after. cbn [after network requests].
        rewrite Nat.add_0_r, Nat.add_1_r. fold second. same_state.
      * unfold once. rewrite !after_after. same_state.
    + cbv zeta. cbv iota beta. rewrite E.
      rewrite bind_run. unfold checked. fold first. rewrite Hres.
      unfold raise_for_status.
      destruct (_ && _); cbn [mret M_ret raise lift];
        unfold once; rewrite !after_after; same_state.
  - unfold DataClient._get. rewrite bind_run. unfold log. rewrite emit_run.
    rewrite bind_run, (first_attempt_raises url _ e)
      by (cbn [after network requests]; rewrite Nat.add_0_r; exact Hres).
    cbn [after network requests]. rewrite Nat.add_0_r. fold first.
    unfold once. rewrite !after_after. same_state.
Qed.

Lemma checked_cases (reply : Reply) :
  match checked reply with
  | Ok res => outcome reply = Ok res /\ is_success (status_code res) = true
  | Raise e =>
      outcome reply = Raise e \/
      exists res, outcome reply = Ok res /\
                  is_success (status_code res) = false /\
                  e = HTTPStatusError (status_code res)
  end.
Proof.
  unfold checked, is_success. destruct (outcome reply) as [res | e]; [| by left].
  destruct (_ && _) eqn:E; [done |]. right. eauto.
Qed.

(** X1. What a fetch gives back.  A returned response has a 2xx status.
    An exception out of [_get] is one the transport raised on one of the
    (at most two) requests, or the [ValueError] of a [retry-after] header
    that is no integer, or an HTTP status error carrying the status of the
    last response, which is not 2xx.  One request is made, or two; two only
    after a 429. *)
Theorem get_returns_success_or_raises (url : string) (s : State) :
  let first := network s (requests s) url in
  let second := network s (S (requests s)) url in
  let r := DataClient._get url s in
  match fst r with
  | Ok res => is_success (status_code res) = true
  | Raise e =>
      outcome first = Raise e \/ outcome second = Raise e \/
      e = ValueError \/
      exists status, e = HTTPStatusError status /\ is_success status = false
  end /\
  (requests (snd r) = S (requests s) \/
   requests (snd r) = S (S (requests s)) /\
   exists res, outcome first = Ok res /\ status_code res = 429).
Proof.
  intros first second r. subst r.
  pose proof (get_run url s) as H. cbv zeta in H. fold first second in H.
  pose proof (checked_cases first) as C1.
  pose proof (checked_cases second) as C2.
  destruct (outcome first) as [res | e] eqn:Hres.
  - destruct (status_code res =? DataClient.RATE_LIMIT) eqn:E.
    + destruct (hint_of (retry_after res)) as [hint |]; rewrite H; cbn [fst snd].
      * split.
        -- destruct (checked second) as [res2 | e2]; [tauto |].
           destruct C2 as [C2 | (res2 & _ & C2 & ->)]; eauto 6.
        -- right. cbn [after requests]. split; [lia |].
           exists res. split; [done |]. by apply Z.eqb_eq in E.
      * split; [tauto |]. left. cbn [after requests]. lia.
    + rewrite H. cbn [fst snd]. split.
      * destruct (checked first) as [res1 | e1]; [tauto |].
        destruct C1 as [C1 | (res1 & _ & C1 & ->)]; [discriminate | eauto 6].
      * left. cbn [after requests]. lia.
  - rewrite H. cbn [fst snd]. split; [tauto |]. left. cbn [after requests]. lia.
Qed.

(* ===================================================================== *)
(** ** Relations every fetch keeps, carried through the caches and the loop *)
(* ===================================================================== *)

Section Fetches.
Context (R : State -> State -> Prop) `{!PreOrder R}.
Hypothesis R_log : forall level r, respects R (log level r).
Hypothesis R_get : forall url, respects R (DataClient._get url).
Hypothesis R_set_recommender_cache : forall c, respects R (set_recommender_cache c).
Hypothesis R_set_orderbook_cache : forall c, respects R (set_orderbook_cache c).
Hypothesis R_set_good_products_cache : forall c, respects R (set_good_products_cache c).

Local Ltac step :=
  first [ apply respects_ret; apply _
        | apply respects_lift; apply _
        | apply respects_gets; apply _
        | apply R_log | apply R_get
        | apply R_set_recommender_cache
        | apply R_set_orderbook_cache
        | apply R_set_good_products_cache
        | apply respects_bind; [apply _ | | intros ?] ].

Lemma fetches_get_good_products : respects R DataClient.get_good_products.
Proof. unfold DataClient.get_good_products. repeat step. Qed.

Lemma fetches_get_orderbooks : respects R DataClient.get_orderbooks.
Proof. unfold DataClient.get_orderbooks. repeat step. Qed.

Lemma fetches_get_past_hour (item_id : string) :
  respects R (DataClient.get_past_hour item_id).
Proof. unfold DataClient.get_past_hour. repeat step. Qed.

Lemma fetches_get_recommender (item_id : string) (orderbooks : ItemOrderbookDict) :
  respects R (DataClient.get_recommender item_id orderbooks).
Proof.
  unfold DataClient.get_recommender. destruct (orderbooks !! item_id).
  - apply respects_try_except; [apply _ | |].
    + apply respects_bind; [apply _ | apply fetches_get_past_hour |].
      intros h. repeat step.
    + intros e. destruct e; repeat step.
  - repeat step.
Qed.

Lemma fetches_recommender_cache_get (item_id : string) (orderbooks : ItemOrderbookDict) :
  respects R (RecommenderCache.get item_id orderbooks).
Proof.
  apply respects_bind; [apply _ | apply respects_gets; apply _ |]. intros cache.
  apply respects_bind; [apply _ | apply respects_gets; apply _ |]. intros now.
  destruct (TTLCache.contains cache now item_id); [repeat step |].
  apply respects_bind; [apply _ | apply fetches_get_recommender |].
  intros [r |]; repeat step.
Qed.

Lemma fetches_orderbook_cache_get : respects R OrderbookCache.get.
Proof.
  apply respects_bind; [apply _ | apply respects_gets; apply _ |]. intros cache.
  apply respects_bind; [apply _ | apply respects_gets; apply _ |]. intros now.
  destruct (TTLCache.contains cache now "_"); [repeat step |].
  apply respects_bind; [apply _ | apply fetches_get_orderbooks |].
  intros obs. repeat step.
Qed.

Lemma fetches_good_products_cache_get : respects R GoodProductsCache.get.
Proof.
  apply respects_bind; [apply _ | apply respects_gets; apply _ |]. intros cache.
  apply respects_bind; [apply _ | apply respects_gets; apply _ |]. intros now.
  destruct (TTLCache.contains cache now "_"); [repeat step |].
  apply respects_bind; [apply _ | apply fetches_get_good_products |].
  intros items. repeat step.
Qed.
End Fetches.

Section Cycle.
Context (R : State -> State -> Prop) `{!PreOrder R}.
Hypothesis R_log : forall level r, respects R (log level r).
Hypothesis R_phase : forall p, respects R (phase p).
Hypothesis R_sleep : forall seconds, respects R (sleep seconds).
Hypothesis R_recommender_cache_get :
  forall item_id orderbooks, respects R (RecommenderCache.get item_id orderbooks).
Hypothesis R_orderbook_cache_get : respects R OrderbookCache.get.
Hypothesis R_good_products_cache_get : respects R GoodProductsCache.get.
Hypothesis R_set_recommender_cache : forall c, respects R (set_recommender_cache c).

Lemma cycle_refresh_items (item_ids : list string) (orderbooks : ItemOrderbookDict) :
  respects R (CacheManager.refresh_items item_ids orderbooks).
Proof.
  induction item_ids as [| item_id rest IH]; cbn [CacheManager.refresh_items].
  - apply respects_ret; apply _.
  - apply respects_bind; [apply _ | apply R_recommender_cache_get |].
    intros _. exact IH.
Qed.

Lemma cycle_refresh : respects R CacheManager.refresh.
Proof.
  unfold CacheManager.refresh.
  apply respects_bind; [apply _ | apply R_phase |]. intros _.
  apply respects_bind; [apply _ | apply R_good_products_cache_get |]. intros item_ids.
  apply respects_bind; [apply _ | apply R_phase |]. intros _.
  apply respects_bind; [apply _ | apply R_orderbook_cache_get |]. intros orderbooks.
  apply respects_bind; [apply _ | apply R_phase |]. intros _.
  apply cycle_refresh_items.
Qed.

Lemma cycle_refresh_loop_body : respects R refresh_loop_body.
Proof.
  unfold refresh_loop_body.
  apply respects_bind; [apply _ | apply R_phase |]. intros _.
  apply respects_try_except; [apply _ | apply cycle_refresh |]. intros e.
  apply respects_bind; [apply _ | apply R_log |]. intros _.
  apply respects_bind; [apply _ | apply R_phase |]. intros _.
  apply R_sleep.
Qed.

Lemma cycle_refresh_loop (turns : nat) : respects R (refresh_loop turns).
Proof.
  induction turns as [| turns IH]; cbn [refresh_loop].
  - apply respects_ret; apply _.
  - apply respects_bind; [apply _ | apply cycle_refresh_loop_body |].
    intros _. exact IH.
Qed.

Lemma cycle_cached_recommenders (item_ids : list string) (acc : list Recommender) :
  respects R (CacheManager.cached_recommenders item_ids acc).
Proof.
  revert acc. induction item_ids as [| item_id rest IH]; intros acc;
    cbn [CacheManager.cached_recommenders].
  - apply respects_ret; apply _.
  - apply respects_bind; [apply _ | apply respects_gets; apply _ |]. intros cache.
    apply respects_bind; [apply _ | apply respects_gets; apply _ |]. intros now.
    destruct (TTLCache.contains cache now item_id); [| apply IH].
    apply respects_bind; [apply _ | apply R_set_recommender_cache |]. intros _.
    apply respects_bind; [apply _ | apply respects_lift; apply _ |].
    intros r. apply IH.
Qed.

Lemma cycle_get_recommenders : respects R CacheManager.get_recommenders.
Proof.
  unfold CacheManager.get_recommenders.
  apply respects_bind; [apply _ | apply R_good_products_cache_get |].
  intros item_ids. apply cycle_cached_recommenders.
Qed.
End Cycle.

(* ===================================================================== *)
(** ** The request slot *)
(* ===================================================================== *)

Lemma slot_after_app (held : bool) (evs evs' : list Event) :
  slot_after held (evs ++ evs') =
    match slot_after held evs with
    | Some held' => slot_after held' evs'
    | None => None
    end.
Proof.
  revert held. induction evs as [| ev evs IH]; intros held; cbn; [done |].
  destruct ev; try apply IH; destruct held; try done; apply IH.
Qed.

#[global] Instance slot_discipline_preorder : PreOrder slot_discipline.
Proof.
  split.
  - intros s. exists []. by rewrite app_nil_r.
  - intros s1 s2 s3 (e1 & H1 & P1) (e2 & H2 & P2). exists (e1 ++ e2).
    split; [by rewrite H2, H1, app_assoc |].
    by rewrite slot_after_app, P1.
Qed.

Lemma slot_get (url : string) : respects slot_discipline (DataClient._get url).
Proof.
  intros s. pose proof (get_run url s) as H. cbv zeta in H.
  destruct (outcome _) as [res | e].
  - destruct (status_code res =? DataClient.RATE_LIMIT).
    + destruct (hint_of (retry_after res)); rewrite H; by eexists.
    + rewrite H. by eexists.
  - rewrite H. by eexists.
Qed.

Lemma slot_unused (ev : Event) :
  slot_after false [ev] = Some false -> respects slot_discipline (emit ev).
Proof. intros H s. rewrite emit_run. by exists [ev]. Qed.

Lemma slot_untouched (m : M unit) :
  (forall s, trace (snd (m s)) = trace s) -> respects slot_discipline m.
Proof. intros H s. exists []. by rewrite app_nil_r, H. Qed.

Lemma slot_sleep (seconds : Z) : respects slot_discipline (sleep seconds).
Proof. intros s. rewrite sleep_run. by eexists. Qed.

Lemma slot_recommender_cache_get (item_id : string) (orderbooks : ItemOrderbookDict) :
  respects slot_discipline (RecommenderCache.get item_id orderbooks).
Proof.
  apply fetches_recommender_cache_get; try apply _;
    first [ intros; by apply slot_unused | apply slot_get
          | intros; by apply slot_untouched ].
Qed.

Lemma slot_orderbook_cache_get : respects slot_discipline OrderbookCache.get.
Proof.
  apply fetches_orderbook_cache_get; try apply _;
    first [ intros; by apply slot_unused | apply slot_get
          | intros; by apply slot_untouched ].
Qed.

Lemma slot_good_products_cache_get : respects slot_discipline GoodProductsCache.get.
Proof.
  apply fetches_good_products_cache_get; try apply _;
    first [ intros; by apply slot_unused | apply slot_get
          | intros; by apply slot_untouched ].
Qed.

(** X2. The request slot.  Along any number of turns of the refresh loop,
    and along [get_recommenders], every request is made while holding the
    slot, the slot is never taken twice, it is released after each request
    whatever the request yields, and every sleep (the wait after a 429 and
    the 5 seconds after a failed turn) starts with the slot free. *)
Theorem slot_held_for_requests_only (turns : nat) (s : State) :
  slot_discipline s (snd (refresh_loop turns s)) /\
  slot_discipline s (snd (CacheManager.get_recommenders s)).
Proof.
  split.
  - apply cycle_refresh_loop; try apply _;
      first [ intros; by apply slot_unused | apply slot_sleep
            | apply slot_recommender_cache_get
            | apply slot_orderbook_cache_get
            | apply slot_good_products_cache_get ].
  - apply cycle_get_recommenders; try apply _;
      first [ apply slot_good_products_cache_get
            | intros; by apply slot_untouched ].
Qed.

(* ===================================================================== *)
(** ** Invariants of the caches *)
(* ===================================================================== *)

Lemma find_app {A} (f : A -> bool) (l l' : list A) :
  List.find f (l ++ l') =
    match List.find f l with Some x => Some x | None => List.find f l' end.
Proof.
  induction l as [| x l IH]; cbn; [done |]. by destruct (f x).
Qed.

(** What writing a key does to the links of a cache. *)
Lemma find_None_keys {V} (c : TTLCache.t V) (k : string) :
  TTLCache.find c k = None -> k ∉ keys_of c.
Proof.
  unfold TTLCache.find, keys_of. induction c as [| l c IH]; cbn.
  - intros _. apply not_elem_of_nil.
  - destruct (bool_decide (TTLCache.key l = k)) eqn:E; [discriminate |].
    apply bool_decide_eq_false in E. intros H.
    apply not_elem_of_cons. split; [congruence | by apply IH].
Qed.

Lemma find_Some_elem {V} (c : TTLCache.t V) (k : string) (l : TTLCache.link V) :
  TTLCache.find c k = Some l -> l ∈ c /\ TTLCache.key l = k.
Proof.
  unfold TTLCache.find. induction c as [| l' c IH]; cbn; [discriminate |].
  destruct (bool_decide (TTLCache.key l' = k)) eqn:E.
  - apply bool_decide_eq_true in E. intros [= ->]. split; [by left | done].
  - intros H. destruct (IH H) as [Hin Hk]. split; [by right | done].
Qed.

Lemma remove_keys {V} (c : TTLCache.t V) (k : string) :
  k ∉ keys_of (TTLCache.remove c k).
Proof.
  unfold keys_of, TTLCache.remove. induction c as [| l c IH]; cbn.
  - apply not_elem_of_nil.
  - destruct (bool_decide (TTLCache.key l = k)) eqn:E; cbn; [exact IH |].
    apply bool_decide_eq_false in E.
    apply not_elem_of_cons. split; [congruence | exact IH].
Qed.

Lemma filter_sublist {A} (f : A -> bool) (l : list A) : List.filter f l `sublist_of` l.
Proof.
  induction l as [| x l IH]; cbn; [constructor |].
  destruct (f x); by constructor.
Qed.

Lemma remove_shorter {V} (c : TTLCache.t V) (k : string) :
  k ∈ keys_of c -> (S (length (TTLCache.remove c k)) <= length c)%nat.
Proof.
  unfold keys_of, TTLCache.remove. induction c as [| l c IH]; cbn.
  - intros H. by apply elem_of_nil in H.
  - intros H. destruct (bool_decide (TTLCache.key l = k)) eqn:E; cbn.
    + pose proof (sublist_length _ _
                    (filter_sublist (fun l0 => negb (bool_decide (TTLCache.key l0 = k))) c)).
      lia.
    + apply bool_decide_eq_false in E.
      apply elem_of_cons in H as [H | H]; [congruence |].
      specialize (IH H). lia.
Qed.

Lemma keys_sublist {V} (c c' : TTLCache.t V) :
  c `sublist_of` c' -> keys_of c `sublist_of` keys_of c'.
Proof. apply fmap_sublist. Qed.

Lemma setitem_kept {V} (maxsize : nat) (ttl : Z) (c c' : TTLCache.t V)
    (now : Z) (k : string) (v : V) :
  TTLCache.setitem maxsize ttl c now k v = Ok c' ->
  exists kept,
    c' = kept ++ [TTLCache.Link k v (now + ttl)] /\
    (kept `sublist_of` c) /\ (k ∉ keys_of kept) /\
    ((length c <= maxsize)%nat -> (S (length kept) <= maxsize)%nat).
Proof.
  unfold TTLCache.setitem. intros H.
  destruct (maxsize <? 1)%nat eqn:Hm; [discriminate |].
  apply Nat.ltb_ge in Hm.
  set (live := TTLCache.expire c now) in *.
  assert (live `sublist_of` c) as Hlive by apply filter_sublist.
  inversion H; subst c'; clear H. eexists. split; [reflexivity |].
  destruct (TTLCache.find live k) as [l |] eqn:Hf.
  - split; [| split].
    + etransitivity; [apply filter_sublist | exact Hlive].
    + apply remove_keys.
    + intros Hc. apply find_Some_elem in Hf as [Hin Hk].
      assert (k ∈ keys_of live) as Hkl.
      { unfold keys_of. apply list_elem_of_fmap. eauto. }
      pose proof (remove_shorter live k Hkl).
      pose proof (sublist_length _ _ Hlive). lia.
  - split; [| split].
    + etransitivity; [apply sublist_drop | exact Hlive].
    + intros Hin. apply (find_None_keys _ _ Hf).
      eapply elem_of_sublist; [exact Hin |].
      apply keys_sublist, sublist_drop.
    + intros _. unfold TTLCache.make_room. rewrite length_drop. lia.
Qed.

Lemma setitem_within {V} (maxsize : nat) (ttl : Z) (c c' : TTLCache.t V)
    (now : Z) (k : string) (v : V) :
  TTLCache.setitem maxsize ttl c now k v = Ok c' ->
  (length c <= maxsize)%nat -> NoDup (keys_of c) ->
  (length c' <= maxsize)%nat /\ NoDup (keys_of c').
Proof.
  intros H Hlen Hnd.
  destruct (setitem_kept _ _ _ _ _ _ _ H) as (kept & -> & Hsub & Hk & Hl).
  split.
  - rewrite length_app. cbn. specialize (Hl Hlen). lia.
  - unfold keys_of. rewrite fmap_app. cbn.
    apply NoDup_app. split; [| split].
    + eapply sublist_NoDup; [exact Hnd | apply keys_sublist, Hsub].
    + intros x Hx Hx'. apply list_elem_of_singleton in Hx'. by subst x.
    + apply NoDup_singleton.
Qed.

Lemma setitem_Forall {V} (P : TTLCache.link V -> Prop) (maxsize : nat) (ttl : Z)
    (c c' : TTLCache.t V) (now : Z) (k : string) (v : V) :
  TTLCache.setitem maxsize ttl c now k v = Ok c' ->
  Forall P c -> P (TTLCache.Link k v (now + ttl)) -> Forall P c'.
Proof.
  intros H Hc Hnew.
  destruct (setitem_kept _ _ _ _ _ _ _ H) as (kept & -> & Hsub & _ & _).
  apply Forall_app. split; [| by constructor].
  rewrite Forall_forall in *. intros l Hl. apply Hc.
  eapply elem_of_sublist; eassumption.
Qed.

(** What reading a key does to the links of a cache. *)
Lemma touch_cases {V} (c : TTLCache.t V) (k : string) :
  (TTLCache.find c k = None /\ TTLCache.touch c k = c) \/
  (exists l, TTLCache.find c k = Some l /\
             TTLCache.touch c k = TTLCache.remove c k ++ [l]).
Proof.
  unfold TTLCache.touch. destruct (TTLCache.find c k) as [l |]; eauto.
Qed.

Lemma touch_within {V} (maxsize : nat) (c : TTLCache.t V) (k : string) :
  (length c <= maxsize)%nat -> NoDup (keys_of c) ->
  (length (TTLCache.touch c k) <= maxsize)%nat /\ NoDup (keys_of (TTLCache.touch c k)).
Proof.
  intros Hlen Hnd.
  destruct (touch_cases c k) as [[_ ->] | (l & Hf & ->)]; [done |].
  apply find_Some_elem in Hf as [Hin Hk].
  assert (k ∈ keys_of c) as Hkc by (unfold keys_of; apply list_elem_of_fmap; eauto).
  pose proof (remove_shorter c k Hkc). split.
  - rewrite length_app. cbn. lia.
  - unfold keys_of. rewrite fmap_app. cbn.
    apply NoDup_app. split; [| split].
    + eapply sublist_NoDup; [exact Hnd | apply keys_sublist, filter_sublist].
    + intros x Hx Hx'. apply list_elem_of_singleton in Hx'. subst x.
      rewrite Hk in Hx. by apply (remove_keys c k).
    + apply NoDup_singleton.
Qed.

Lemma touch_Forall {V} (P : TTLCache.link V -> Prop) (c : TTLCache.t V) (k : string) :
  Forall P c -> Forall P (TTLCache.touch c k).
Proof.
  intros Hc. destruct (touch_cases c k) as [[_ ->] | (l & Hf & ->)]; [done |].
  apply find_Some_elem in Hf as [Hin _].
  rewrite Forall_forall in Hc. apply Forall_app. split.
  - apply Forall_forall. intros x Hx. apply Hc.
    eapply elem_of_sublist; [exact Hx | apply filter_sublist].
  - constructor; [by apply Hc | constructor].
Qed.

Lemma keys_find_None {V} (c : TTLCache.t V) (k : string) :
  k ∉ keys_of c -> TTLCache.find c k = None.
Proof.
  intros H. destruct (TTLCache.find c k) as [l |] eqn:E; [| done].
  apply find_Some_elem in E as [Hin Hk]. exfalso. apply H.
  unfold keys_of. apply list_elem_of_fmap. eauto.
Qed.

Lemma remove_absent {V} (c : TTLCache.t V) (k : string) :
  k ∉ keys_of c -> TTLCache.remove c k = c.
Proof.
  unfold keys_of, TTLCache.remove. induction c as [| l c IH]; cbn; [done |].
  intros H. apply not_elem_of_cons in H as [Hl Hc].
  rewrite bool_decide_eq_false_2 by done. cbn. by rewrite IH.
Qed.

Lemma find_remove_other {V} (c : TTLCache.t V) (k k' : string) :
  k' <> k -> TTLCache.find (TTLCache.remove c k) k' = TTLCache.find c k'.
Proof.
  intros Hne. unfold TTLCache.find, TTLCache.remove.
  induction c as [| l c IH]; cbn; [done |].
  destruct (bool_decide (TTLCache.key l = k)) eqn:E; cbn.
  - apply bool_decide_eq_true in E.
    rewrite (bool_decide_eq_false_2 (TTLCache.key l = k')) by congruence.
    exact IH.
  - destruct (bool_decide (TTLCache.key l = k')); [done | exact IH].
Qed.

(** A read moves a link and changes no answer: under every key the
    cache finds the link it found before. *)
Lemma find_touch {V} (c : TTLCache.t V) (k k' : string) :
  TTLCache.find (TTLCache.touch c k) k' = TTLCache.find c k'.
Proof.
  destruct (touch_cases c k) as [[_ ->] | (l & Hf & ->)]; [done |].
  unfold TTLCache.find at 1. rewrite find_app.
  fold (TTLCache.find (TTLCache.remove c k) k').
  destruct (decide (k' = k)) as [-> | Hne].
  - rewrite (keys_find_None _ _ (remove_keys c k)). cbn.
    apply find_Some_elem in Hf as Hl. destruct Hl as [_ Hk].
    by rewrite bool_decide_eq_true_2.
  - rewrite (find_remove_other c k k' Hne).
    destruct (TTLCache.find c k') as [l' |]; [done |]. cbn.
    apply find_Some_elem in Hf as [_ Hk].
    rewrite bool_decide_eq_false_2; [done | congruence].
Qed.

Lemma live_touch {V} (c : TTLCache.t V) (now : Z) (k k' : string) :
  live (TTLCache.touch c k) now k' = live c now k'.
Proof. unfold live. by rewrite find_touch. Qed.

(** A cache whose last link is the only one under a key is left as it is
    by a read of that key; such is the cache after a write or a read of
    the key. *)
Lemma touch_last {V} (kept : TTLCache.t V) (l : TTLCache.link V) :
  TTLCache.key l ∉ keys_of kept ->
  TTLCache.touch (kept ++ [l]) (TTLCache.key l) = kept ++ [l].
Proof.
  intros Hk. unfold TTLCache.touch.
  unfold TTLCache.find. rewrite find_app.
  fold (TTLCache.find kept (TTLCache.key l)).
  rewrite (keys_find_None _ _ Hk). cbn. rewrite bool_decide_eq_true_2 by done.
  unfold TTLCache.remove. rewrite List.filter_app. cbn.
  rewrite bool_decide_eq_true_2 by done. cbn. rewrite app_nil_r.
  f_equal. by apply remove_absent.
Qed.

Lemma touch_touch {V} (c : TTLCache.t V) (k : string) :
  TTLCache.touch (TTLCache.touch c k) k = TTLCache.touch c k.
Proof.
  destruct (touch_cases c k) as [[_ He] | (l & Hf & ->)].
  - by rewrite !He.
  - apply find_Some_elem in Hf as [_ <-]. apply touch_last, remove_keys.
Qed.

Lemma setitem_touch {V} (maxsize : nat) (ttl : Z) (c c' : TTLCache.t V)
    (now : Z) (k : string) (v : V) :
  TTLCache.setitem maxsize ttl c now k v = Ok c' -> TTLCache.touch c' k = c'.
Proof.
  intros H. destruct (setitem_kept _ _ _ _ _ _ _ H) as (kept & -> & _ & Hk & _).
  by apply (touch_last kept (TTLCache.Link k v (now + ttl))).
Qed.

(** A property of the caches alone that each write and each read of the
    program keeps is kept by the three [get]s, hence by the loop. *)
Section Invariant.
Context (I : State -> Prop).
Hypothesis I_caches : forall s s', same_caches s s' -> I s -> I s'.
Hypothesis I_recommender : forall s item_id orderbooks s0 r c',
  construction item_id orderbooks s0 = Some r ->
  TTLCache.setitem RecommenderCache.maxsize RecommenderCache.ttl
    (recommender_cache s) (clock s) item_id r = Ok c' ->
  I s -> I (snd (set_recommender_cache c' s)).
Hypothesis I_orderbooks : forall s orderbooks c',
  TTLCache.setitem OrderbookCache.maxsize OrderbookCache.ttl
    (orderbook_cache s) (clock s) "_" orderbooks = Ok c' ->
  I s -> I (snd (set_orderbook_cache c' s)).
Hypothesis I_good_products : forall s items c',
  TTLCache.setitem GoodProductsCache.maxsize GoodProductsCache.ttl
    (good_products_cache s) (clock s) "_" items = Ok c' ->
  I s -> I (snd (set_good_products_cache c' s)).
Hypothesis I_touch_recommender : forall s item_id, I s -> I (touch_recommender s item_id).
Hypothesis I_touch_orderbooks : forall s, I s -> I (touch_orderbooks s).
Hypothesis I_touch_good_products : forall s, I s -> I (touch_good_products s).

#[local] Instance keeps_preorder : PreOrder (keeps I).
Proof.
  split.
  - intros s H. exact H.
  - intros s1 s2 s3 H1 H2 H. by apply H2, H1.
Qed.

Lemma keeps_same_caches {A} (m : M A) : respects same_caches m -> respects (keeps I) m.
Proof. intros H s HI. by apply (I_caches s). Qed.

Lemma keeps_recommender_cache_get (item_id : string) (orderbooks : ItemOrderbookDict) :
  respects (keeps I) (RecommenderCache.get item_id orderbooks).
Proof.
  intros s HI. unfold RecommenderCache.get.
  rewrite bind_run, gets_run, bind_run, gets_run. cbv iota beta zeta.
  destruct (TTLCache.contains (recommender_cache s) (clock s) item_id).
  - rewrite bind_run. change (set_recommender_cache _ s)
      with (Ok tt, touch_recommender s item_id). cbv iota beta.
    rewrite bind_run. cbv [lift].
    destruct (TTLCache.getitem _ _ _).1; by apply I_touch_recommender.
  - destruct (get_recommender_run item_id orderbooks s) as (s' & E & _).
    pose proof (get_recommender_same_caches item_id orderbooks s) as Hsame.
    rewrite E in Hsame. cbn [snd] in Hsame.
    assert (I s') as HI' by (by apply (I_caches s)).
    rewrite bind_run, E. cbv iota beta.
    destruct (construction item_id orderbooks s) as [r |] eqn:Hc; [| done].
    rewrite bind_run, bind_run, gets_run, bind_run, gets_run. cbv iota beta.
    rewrite bind_run. cbv [lift].
    destruct (TTLCache.setitem _ _ _ _ _ _) as [c' | e] eqn:Hset; [| done].
    cbv iota beta.
    exact (I_recommender s' item_id orderbooks s r c' Hc Hset HI').
Qed.

Lemma keeps_orderbook_cache_get : respects (keeps I) OrderbookCache.get.
Proof.
  intros s HI. unfold OrderbookCache.get.
  rewrite bind_run, gets_run, bind_run, gets_run. cbv iota beta zeta.
  destruct (TTLCache.contains (orderbook_cache s) (clock s) "_").
  { rewrite bind_run. change (set_orderbook_cache _ s)
      with (Ok tt, touch_orderbooks s). by apply I_touch_orderbooks. }
  rewrite bind_run.
  pose proof (get_orderbooks_same_caches s) as Hsame.
  destruct (DataClient.get_orderbooks s) as [[obs | e] s']; cbn [snd] in *;
    [| by apply (I_caches s)].
  assert (I s') as HI' by (by apply (I_caches s)).
  rewrite bind_run, gets_run, bind_run, gets_run. cbv iota beta.
  rewrite bind_run. cbv [lift].
  destruct (TTLCache.setitem _ _ _ _ _ _) as [c' | e] eqn:Hset; [| done].
  cbv iota beta.
  exact (I_orderbooks s' obs c' Hset HI').
Qed.

Lemma keeps_good_products_cache_get : respects (keeps I) GoodProductsCache.get.
Proof.
  intros s HI. unfold GoodProductsCache.get.
  rewrite bind_run, gets_run, bind_run, gets_run. cbv iota beta zeta.
  destruct (TTLCache.contains (good_products_cache s) (clock s) "_").
  { rewrite bind_run. change (set_good_products_cache _ s)
      with (Ok tt, touch_good_products s). by apply I_touch_good_products. }
  rewrite bind_run.
  pose proof (get_good_products_same_caches s) as Hsame.
  destruct (DataClient.get_good_products s) as [[items | e] s']; cbn [snd] in *;
    [| by apply (I_caches s)].
  assert (I s') as HI' by (by apply (I_caches s)).
  rewrite bind_run, gets_run, bind_run, gets_run. cbv iota beta.
  rewrite bind_run. cbv [lift].
  destruct (TTLCache.setitem _ _ _ _ _ _) as [c' | e] eqn:Hset; [| done].
  cbv iota beta.
  exact (I_good_products s' items c' Hset HI').
Qed.

Lemma keeps_refresh_loop (turns : nat) : respects (keeps I) (refresh_loop turns).
Proof.
  apply cycle_refresh_loop; try apply _.
  - intros. apply keeps_same_caches, same_caches_emit.
  - intros. apply keeps_same_caches, same_caches_emit.
  - intros. apply keeps_same_caches. intros s. by rewrite sleep_run.
  - apply keeps_recommender_cache_get.
  - apply keeps_orderbook_cache_get.
  - apply keeps_good_products_cache_get.
Qed.

Lemma keeps_cached_recommenders (item_ids : list string) (acc : list Recommender) :
  respects (keeps I) (CacheManager.cached_recommenders item_ids acc).
Proof.
  revert acc. induction item_ids as [| item_id rest IH]; intros acc s HI;
    cbn [CacheManager.cached_recommenders]; [done |].
  rewrite bind_run, gets_run, bind_run, gets_run. cbv iota beta zeta.
  destruct (TTLCache.contains (recommender_cache s) (clock s) item_id);
    [| by apply IH].
  rewrite bind_run. change (set_recommender_cache _ s)
    with (Ok tt, touch_recommender s item_id). cbv iota beta.
  rewrite bind_run. cbv [lift].
  destruct (TTLCache.getitem _ _ _).1 as [r | e];
    [apply IH |]; by apply I_touch_recommender.
Qed.

Lemma keeps_get_recommenders : respects (keeps I) CacheManager.get_recommenders.
Proof.
  unfold CacheManager.get_recommenders.
  apply respects_bind; [apply _ | apply keeps_good_products_cache_get |].
  intros item_ids. apply keeps_cached_recommenders.
Qed.
End Invariant.

Lemma construction_item_id (item_id : string) (orderbooks : ItemOrderbookDict)
    (s : State) (r : Recommender) :
  construction item_id orderbooks s = Some r -> Recommender_.item_id r = item_id.
Proof.
  unfold construction. destruct (orderbooks !! item_id) as [ob |]; [| done].
  destruct (DataClient.get_past_hour item_id s) as [[h | e] s']; [| done].
  unfold Recommender_.__init__.
  destruct (transformed_past_hour h) as [ph | e]; [| done].
  cbn. by intros [= <-].
Qed.

(** X3. The caches stay within their sizes.  If no cache holds more
    entries than its [maxsize] (2000 recommenders, one snapshot of the
    order books, one list of eligible items) nor two entries under one
    key, this is still so after any number of turns of the refresh loop
    and after [get_recommenders]. *)
Theorem caches_stay_within_capacity (turns : nat) (s : State) :
  within_capacity s ->
  within_capacity (snd (refresh_loop turns s)) /\
  within_capacity (snd (CacheManager.get_recommenders s)).
Proof.
  assert (forall s s', same_caches s s' -> within_capacity s -> within_capacity s')
    as Hsame.
  { intros s1 s2 (H1 & H2 & H3). unfold within_capacity. by rewrite H1, H2, H3. }
  assert (forall s item_id, within_capacity s ->
            within_capacity (touch_recommender s item_id)) as Hrec.
  { intros s1 item_id (L1 & L2 & L3 & N1 & N2 & N3).
    destruct (touch_within _ _ item_id L1 N1). by repeat split. }
  assert (forall s, within_capacity s -> within_capacity (touch_orderbooks s))
    as Hobs.
  { intros s1 (L1 & L2 & L3 & N1 & N2 & N3).
    destruct (touch_within _ _ "_" L2 N2). by repeat split. }
  assert (forall s, within_capacity s -> within_capacity (touch_good_products s))
    as Hgood.
  { intros s1 (L1 & L2 & L3 & N1 & N2 & N3).
    destruct (touch_within _ _ "_" L3 N3). by repeat split. }
  assert (forall s items c',
            TTLCache.setitem GoodProductsCache.maxsize GoodProductsCache.ttl
              (good_products_cache s) (clock s) "_" items = Ok c' ->
            within_capacity s ->
            within_capacity (snd (set_good_products_cache c' s))) as Hset_good.
  { intros s1 items c' Hset (L1 & L2 & L3 & N1 & N2 & N3).
    destruct (setitem_within _ _ _ _ _ _ _ Hset L3 N3). by repeat split. }
  intros HI. split.
  - revert HI.
    apply (keeps_refresh_loop within_capacity);
      [exact Hsame | | | exact Hset_good | exact Hrec | exact Hobs | exact Hgood].
    + intros s1 item_id orderbooks s0 r c' _ Hset (L1 & L2 & L3 & N1 & N2 & N3).
      destruct (setitem_within _ _ _ _ _ _ _ Hset L1 N1). by repeat split.
    + intros s1 orderbooks c' Hset (L1 & L2 & L3 & N1 & N2 & N3).
      destruct (setitem_within _ _ _ _ _ _ _ Hset L2 N2). by repeat split.
  - revert HI.
    apply (keeps_get_recommenders within_capacity);
      [exact Hsame | exact Hset_good | exact Hrec | exact Hgood].
Qed.

(** X3 at work: two turns from the empty caches. *)
Lemma caches_stay_within_capacity_witness :
  within_capacity (snd (refresh_loop 2 (start calm_network))).
Proof.
  apply (caches_stay_within_capacity 2 (start calm_network)).
  unfold within_capacity, RecommenderCache.maxsize. cbn.
  repeat split; first [lia | constructor].
Defined.

(** What [CacheManager.get_recommender] returns: the live value. *)
Lemma live_contains {V} (c : TTLCache.t V) (now : Z) (k : string) :
  TTLCache.contains c now k = bool_decide (is_Some (live c now k)).
Proof.
  unfold TTLCache.contains, live.
  destruct (TTLCache.find c k) as [l |]; [| done].
  by destruct (now <? TTLCache.expires l).
Qed.

Lemma live_getitem {V} (c : TTLCache.t V) (now : Z) (k : string) (v : V) :
  live c now k = Some v -> TTLCache.getitem c now k = (Ok v, TTLCache.touch c k).
Proof.
  unfold TTLCache.getitem, live.
  destruct (TTLCache.find c k) as [l |]; [| done].
  destruct (now <? TTLCache.expires l); [| done]. by intros [= ->].
Qed.

Lemma get_cached_recommender_run (item_id : string) (s : State) :
  CacheManager.get_recommender item_id s =
    (Ok (live (recommender_cache s) (clock s) item_id),
     match live (recommender_cache s) (clock s) item_id with
     | Some _ => touch_recommender s item_id
     | None => s
     end).
Proof.
  unfold CacheManager.get_recommender.
  rewrite bind_run, gets_run, bind_run, gets_run. cbv iota beta zeta.
  rewrite live_contains.
  destruct (live (recommender_cache s) (clock s) item_id) as [r |] eqn:E.
  - by rewrite (live_getitem _ _ _ _ E).
  - done.
Qed.

Lemma live_elem {V} (c : TTLCache.t V) (now : Z) (k : string) (v : V) :
  live c now k = Some v ->
  exists l, l ∈ c /\ TTLCache.key l = k /\ TTLCache.value l = v /\
            now < TTLCache.expires l.
Proof.
  unfold live. destruct (TTLCache.find c k) as [l |] eqn:Hf; [| done].
  destruct (now <? TTLCache.expires l) eqn:E; [| done]. intros [= <-].
  apply find_Some_elem in Hf as [Hin Hk]. apply Z.ltb_lt in E. eauto.
Qed.

(** X4. The cache answers for the item asked.  If every cached
    recommender sits under the identifier it was built for, then after any
    number of turns of the refresh loop [CacheManager.get_recommender]
    does not raise and makes no request; it returns the live recommender
    cached under the identifier, which was built for that identifier, and
    then the one thing it changes is the order of use in the item cache,
    where the link read becomes the most recently used; when it returns
    nothing it changes nothing.  Every cached recommender still sits
    under its identifier afterwards. *)
Theorem served_recommender_is_the_items (turns : nat) (s : State) (item_id : string) :
  keyed_by_item s ->
  let s' := snd (refresh_loop turns s) in
  exists v s'',
    CacheManager.get_recommender item_id s' = (Ok v, s'') /\
    v = live (recommender_cache s') (clock s') item_id /\
    s'' = match v with
          | Some _ => touch_recommender s' item_id
          | None => s'
          end /\
    keyed_by_item s'' /\
    match v with
    | Some r => Recommender_.item_id r = item_id
    | None => True
    end.
Proof.
  intros HI s'.
  assert (forall s0 k, keyed_by_item s0 -> keyed_by_item (touch_recommender s0 k))
    as Htouch by (intros s0 k H; by apply touch_Forall).
  assert (keyed_by_item s') as HI'.
  { revert HI. apply (keeps_refresh_loop keyed_by_item).
    - intros s1 s2 (H1 & _ & _). unfold keyed_by_item. by rewrite H1.
    - intros s1 id orderbooks s0 r c' Hc Hset H. unfold keyed_by_item in *. cbn.
      apply (setitem_Forall _ _ _ _ _ _ _ _ Hset H). cbn.
      by apply construction_item_id in Hc.
    - by intros s1 orderbooks c' _ H.
    - by intros s1 items c' _ H.
    - exact Htouch.
    - by intros s1 H.
    - by intros s1 H. }
  rewrite get_cached_recommender_run. eexists _, _.
  split; [reflexivity |]. split; [reflexivity |]. split; [reflexivity |].
  destruct (live _ _ _) as [r |] eqn:E; [| done].
  split; [by apply Htouch |].
  apply live_elem in E as (l & Hin & Hk & Hv & _).
  unfold keyed_by_item in HI'. rewrite Forall_forall in HI'.
  specialize (HI' l Hin). by rewrite <- Hv, <- Hk.
Qed.

(** X4 at work: after one turn in the calm world the eligible item is
    served, and it is the item asked for. *)
Lemma served_recommender_is_the_items_witness :
  exists r s'',
    CacheManager.get_recommender "ENCHANTED_DIAMOND"
      (snd (refresh_loop 1 (start calm_network))) = (Ok (Some r), s'') /\
    s'' = touch_recommender (snd (refresh_loop 1 (start calm_network)))
            "ENCHANTED_DIAMOND" /\
    Recommender_.item_id r = "ENCHANTED_DIAMOND"%string.
Proof.
  destruct (served_recommender_is_the_items 1 (start calm_network)
              "ENCHANTED_DIAMOND") as (v & s'' & E & Hv & Hs & _ & Hid);
    [constructor |].
  destruct v as [r |]; [| vm_compute in Hv; discriminate Hv].
  exists r, s''. split; [exact E |]. split; [exact Hs | exact Hid].
Defined.

(* ===================================================================== *)
(** ** Hits, misses and the time an entry lives *)
(* ===================================================================== *)

Lemma live_of_entries {V} (c : TTLCache.t V) (now : Z) (k : string) (v : V) (e : Z) :
  entries_of c k = [TTLCache.Link k v e] ->
  live c now k = if now <? e then Some v else None.
Proof. intros H. unfold live. by rewrite find_entries, H. Qed.

Lemma live_None_contains {V} (c : TTLCache.t V) (now : Z) (k : string) :
  live c now k = None -> TTLCache.contains c now k = false.
Proof. intros H. by rewrite live_contains, H. Qed.

Lemma live_Some_contains {V} (c : TTLCache.t V) (now : Z) (k : string) (v : V) :
  live c now k = Some v -> TTLCache.contains c now k = true.
Proof. intros H. by rewrite live_contains, H. Qed.

Lemma contains_live {V} (c : TTLCache.t V) (now : Z) (k : string) :
  TTLCache.contains c now k = true -> is_Some (live c now k).
Proof. rewrite live_contains. apply bool_decide_eq_true. Qed.

(** A hit: the live value; the link read becomes the most recently
    used and nothing else happens. *)
Lemma orderbook_cache_served (s : State) (orderbooks : ItemOrderbookDict) :
  live (orderbook_cache s) (clock s) "_" = Some orderbooks ->
  OrderbookCache.get s = (Ok orderbooks, touch_orderbooks s).
Proof.
  intros H. unfold OrderbookCache.get.
  rewrite bind_run, gets_run, bind_run, gets_run. cbv iota beta zeta.
  rewrite (live_Some_contains _ _ _ _ H).
  by rewrite (live_getitem _ _ _ _ H).
Qed.

Lemma good_products_cache_served (s : State) (items : list string) :
  live (good_products_cache s) (clock s) "_" = Some items ->
  GoodProductsCache.get s = (Ok items, touch_good_products s).
Proof.
  intros H. unfold GoodProductsCache.get.
  rewrite bind_run, gets_run, bind_run, gets_run. cbv iota beta zeta.
  rewrite (live_Some_contains _ _ _ _ H).
  by rewrite (live_getitem _ _ _ _ H).
Qed.

Lemma recommender_cache_served (item_id : string) (orderbooks : ItemOrderbookDict)
    (s : State) (r : Recommender) :
  live (recommender_cache s) (clock s) item_id = Some r ->
  RecommenderCache.get item_id orderbooks s = (Ok (Some r), touch_recommender s item_id).
Proof.
  intros H. unfold RecommenderCache.get.
  rewrite bind_run, gets_run, bind_run, gets_run. cbv iota beta zeta.
  rewrite (live_Some_contains _ _ _ _ H).
  by rewrite (live_getitem _ _ _ _ H).
Qed.

(** A state whose cache has the key as its most recently used one is left
    as it is by a read. *)
Lemma touch_orderbooks_fixed (s : State) :
  TTLCache.touch (orderbook_cache s) "_" = orderbook_cache s ->
  touch_orderbooks s = s.
Proof. intros H. by apply state_eq. Qed.

Lemma touch_good_products_fixed (s : State) :
  TTLCache.touch (good_products_cache s) "_" = good_products_cache s ->
  touch_good_products s = s.
Proof. intros H. by apply state_eq. Qed.

Lemma touch_recommender_fixed (s : State) (item_id : string) :
  TTLCache.touch (recommender_cache s) item_id = recommender_cache s ->
  touch_recommender s item_id = s.
Proof. intros H. by apply state_eq. Qed.

(** A miss: the result is the fetch's, and a fetched value is stored with
    the cache's time to live, counted from the end of the fetch. *)
Lemma orderbook_cache_stored (s : State) :
  live (orderbook_cache s) (clock s) "_" = None ->
  fst (OrderbookCache.get s) = fst (DataClient.get_orderbooks s) /\
  forall orderbooks, fst (DataClient.get_orderbooks s) = Ok orderbooks ->
    let s' := snd (OrderbookCache.get s) in
    entries_of (orderbook_cache s') "_" =
      [TTLCache.Link "_" orderbooks (clock s' + OrderbookCache.ttl)] /\
    TTLCache.touch (orderbook_cache s') "_" = orderbook_cache s'.
Proof.
  intros Hmiss. apply live_None_contains in Hmiss. unfold OrderbookCache.get.
  rewrite bind_run, gets_run, bind_run, gets_run. cbv iota beta. rewrite Hmiss.
  rewrite bind_run.
  destruct (DataClient.get_orderbooks s) as [[obs | e] s1]; cbn [fst snd];
    [| split; [done | discriminate]].
  rewrite bind_run, gets_run, bind_run, gets_run. cbv iota beta.
  destruct (setitem_entry OrderbookCache.maxsize OrderbookCache.ttl
              (orderbook_cache s1) (clock s1) "_" obs)
    as (c' & Hset & Hent); [unfold OrderbookCache.maxsize; lia |].
  rewrite bind_run. cbv [lift]. rewrite Hset. cbv iota beta. cbn.
  split; [done |]. intros ? [= <-].
  split; [done | by apply (setitem_touch _ _ _ _ _ _ _ Hset)].
Qed.

Lemma good_products_cache_stored (s : State) :
  live (good_products_cache s) (clock s) "_" = None ->
  fst (GoodProductsCache.get s) = fst (DataClient.get_good_products s) /\
  forall items, fst (DataClient.get_good_products s) = Ok items ->
    let s' := snd (GoodProductsCache.get s) in
    entries_of (good_products_cache s') "_" =
      [TTLCache.Link "_" items (clock s' + GoodProductsCache.ttl)] /\
    TTLCache.touch (good_products_cache s') "_" = good_products_cache s'.
Proof.
  intros Hmiss. apply live_None_contains in Hmiss. unfold GoodProductsCache.get.
  rewrite bind_run, gets_run, bind_run, gets_run. cbv iota beta. rewrite Hmiss.
  rewrite bind_run.
  destruct (DataClient.get_good_products s) as [[items | e] s1]; cbn [fst snd];
    [| split; [done | discriminate]].
  rewrite bind_run, gets_run, bind_run, gets_run. cbv iota beta.
  destruct (setitem_entry GoodProductsCache.maxsize GoodProductsCache.ttl
              (good_products_cache s1) (clock s1) "_" items)
    as (c' & Hset & Hent); [unfold GoodProductsCache.maxsize; lia |].
  rewrite bind_run. cbv [lift]. rewrite Hset. cbv iota beta. cbn.
  split; [done |]. intros ? [= <-].
  split; [done | by apply (setitem_touch _ _ _ _ _ _ _ Hset)].
Qed.

Lemma live_cases {V} (c : TTLCache.t V) (now : Z) (k : string) :
  {v | live c now k = Some v} + {live c now k = None}.
Proof. destruct (live c now k) as [v |]; eauto. Qed.

(** The recommender written on a miss is the most recently used link. *)
Lemma recommender_cache_stored (item_id : string) (orderbooks : ItemOrderbookDict)
    (s : State) :
  live (recommender_cache s) (clock s) item_id = None ->
  is_Some (construction item_id orderbooks s) ->
  let s' := snd (RecommenderCache.get item_id orderbooks s) in
  TTLCache.touch (recommender_cache s') item_id = recommender_cache s'.
Proof.
  intros Hmiss [r Hc]. apply live_None_contains in Hmiss.
  unfold RecommenderCache.get.
  rewrite bind_run, gets_run, bind_run, gets_run. cbv iota beta zeta. rewrite Hmiss.
  destruct (get_recommender_run item_id orderbooks s) as (s1 & E & _).
  rewrite bind_run, E, Hc. cbv iota beta.
  rewrite bind_run, bind_run, gets_run, bind_run, gets_run. cbv iota beta.
  destruct (setitem_entry RecommenderCache.maxsize RecommenderCache.ttl
              (recommender_cache s1) (clock s1) item_id r)
    as (c' & Hset & _); [unfold RecommenderCache.maxsize; lia |].
  rewrite bind_run. cbv [lift]. rewrite Hset. cbv iota beta. cbn.
  by apply (setitem_touch _ _ _ _ _ _ _ Hset).
Qed.

(** X5. The two snapshot caches ([OrderbookCache], [GoodProductsCache]).
    A [get] that returns leaves the cache such that a [get] right after it
    returns the same value and changes nothing.  A value fetched on a miss
    is served, without any request, to every [get] made less than 60
    seconds after the fetch ended; from 60 seconds on it is not served any
    more: the answer is again that of a fetch. *)
Theorem snapshot_caches_live_a_minute (s s2 : State) :
  (forall orderbooks s',
     OrderbookCache.get s = (Ok orderbooks, s') ->
     OrderbookCache.get s' = (Ok orderbooks, s') /\
     (live (orderbook_cache s) (clock s) "_" = None ->
      orderbook_cache s2 = orderbook_cache s' ->
      (clock s2 < clock s' + 60 -> OrderbookCache.get s2 = (Ok orderbooks, s2)) /\
      (clock s' + 60 <= clock s2 ->
       fst (OrderbookCache.get s2) = fst (DataClient.get_orderbooks s2)))) /\
  (forall items s',
     GoodProductsCache.get s = (Ok items, s') ->
     GoodProductsCache.get s' = (Ok items, s') /\
     (live (good_products_cache s) (clock s) "_" = None ->
      good_products_cache s2 = good_products_cache s' ->
      (clock s2 < clock s' + 60 -> GoodProductsCache.get s2 = (Ok items, s2)) /\
      (clock s' + 60 <= clock s2 ->
       fst (GoodProductsCache.get s2) = fst (DataClient.get_good_products s2)))).
Proof.
  split.
  - intros obs s' Hget.
    destruct (live_cases (orderbook_cache s) (clock s) "_") as [[v Hv] | Hmiss].
    + rewrite (orderbook_cache_served s v Hv) in Hget.
      inversion Hget; subst v s'. split.
      * rewrite (orderbook_cache_served (touch_orderbooks s) obs)
          by (cbn; by rewrite live_touch).
        f_equal. apply touch_orderbooks_fixed. cbn. apply touch_touch.
      * intros Hmiss. by rewrite Hmiss in Hv.
    + destruct (orderbook_cache_stored s Hmiss) as [Hfst Hent].
      rewrite Hget in Hfst, Hent. cbn [fst snd] in Hfst, Hent.
      destruct (Hent obs (eq_sym Hfst)) as [Hent' Hfix].
      unfold OrderbookCache.ttl in Hent'.
      assert (forall s3, orderbook_cache s3 = orderbook_cache s' ->
                clock s3 < clock s' + 60 ->
                OrderbookCache.get s3 = (Ok obs, s3)) as Hserved.
      { intros s3 Hc Hlt. rewrite (orderbook_cache_served s3 obs).
        - f_equal. apply touch_orderbooks_fixed. by rewrite Hc.
        - rewrite Hc, (live_of_entries _ _ _ _ _ Hent').
          by rewrite (proj2 (Z.ltb_lt _ _) Hlt). }
      split; [apply Hserved; [done | lia] |].
      intros _ Hc. split; [by apply Hserved |].
      intros Hge. apply orderbook_cache_stored.
      rewrite Hc, (live_of_entries _ _ _ _ _ Hent').
      by rewrite (proj2 (Z.ltb_ge _ _) Hge).
  - intros items s' Hget.
    destruct (live_cases (good_products_cache s) (clock s) "_") as [[v Hv] | Hmiss].
    + rewrite (good_products_cache_served s v Hv) in Hget.
      inversion Hget; subst v s'. split.
      * rewrite (good_products_cache_served (touch_good_products s) items)
          by (cbn; by rewrite live_touch).
        f_equal. apply touch_good_products_fixed. cbn. apply touch_touch.
      * intros Hmiss. by rewrite Hmiss in Hv.
    + destruct (good_products_cache_stored s Hmiss) as [Hfst Hent].
      rewrite Hget in Hfst, Hent. cbn [fst snd] in Hfst, Hent.
      destruct (Hent items (eq_sym Hfst)) as [Hent' Hfix].
      unfold GoodProductsCache.ttl in Hent'.
      assert (forall s3, good_products_cache s3 = good_products_cache s' ->
                clock s3 < clock s' + 60 ->
                GoodProductsCache.get s3 = (Ok items, s3)) as Hserved.
      { intros s3 Hc Hlt. rewrite (good_products_cache_served s3 items).
        - f_equal. apply touch_good_products_fixed. by rewrite Hc.
        - rewrite Hc, (live_of_entries _ _ _ _ _ Hent').
          by rewrite (proj2 (Z.ltb_lt _ _) Hlt). }
      split; [apply Hserved; [done | lia] |].
      intros _ Hc. split; [by apply Hserved |].
      intros Hge. apply good_products_cache_stored.
      rewrite Hc, (live_of_entries _ _ _ _ _ Hent').
      by rewrite (proj2 (Z.ltb_ge _ _) Hge).
Qed.

(** X5 at work: the order books fetched in the calm world are served 59
    seconds later. *)
Lemma snapshot_caches_live_a_minute_witness :
  exists orderbooks s',
    OrderbookCache.get (start calm_network) = (Ok orderbooks, s') /\
    OrderbookCache.get (after s' 0 59 []) = (Ok orderbooks, after s' 0 59 []).
Proof.
  destruct (OrderbookCache.get (start calm_network)) as [[obs | e] s1] eqn:E;
    [| vm_compute in E; discriminate].
  exists obs, s1. split; [reflexivity |].
  destruct (snapshot_caches_live_a_minute (start calm_network) (after s1 0 59 []))
    as [H _].
  destruct (H obs s1 E) as [_ H2].
  apply H2; [reflexivity | reflexivity | cbn; lia].
Defined.

(** X6. The item cache.  A [get] that returns a recommender leaves the
    cache such that a [get] for the item right after it, with whatever
    order books, returns the same recommender and changes nothing, and so
    does [CacheManager.get_recommender].  A recommender constructed on a
    miss is served, without any request, to every [get] made less than
    300 seconds after the construction; from 300 seconds on the item is
    constructed anew. *)
Theorem recommender_lives_five_minutes
    (item_id : string) (orderbooks orderbooks2 : ItemOrderbookDict)
    (s s' s2 : State) (r : Recommender) :
  RecommenderCache.get item_id orderbooks s = (Ok (Some r), s') ->
  RecommenderCache.get item_id orderbooks2 s' = (Ok (Some r), s') /\
  CacheManager.get_recommender item_id s' = (Ok (Some r), s') /\
  (live (recommender_cache s) (clock s) item_id = None ->
   recommender_cache s2 = recommender_cache s' ->
   (clock s2 < clock s' + 300 ->
    RecommenderCache.get item_id orderbooks2 s2 = (Ok (Some r), s2)) /\
   (clock s' + 300 <= clock s2 ->
    fst (RecommenderCache.get item_id orderbooks2 s2) =
      Ok (construction item_id orderbooks2 s2))).
Proof.
  intros Hget.
  assert (forall s3,
            live (recommender_cache s3) (clock s3) item_id = Some r ->
            TTLCache.touch (recommender_cache s3) item_id = recommender_cache s3 ->
            RecommenderCache.get item_id orderbooks2 s3 = (Ok (Some r), s3) /\
            CacheManager.get_recommender item_id s3 = (Ok (Some r), s3)) as Hhit.
  { intros s3 Hl Hfix. split.
    - rewrite (recommender_cache_served _ _ _ _ Hl). f_equal.
      by apply touch_recommender_fixed.
    - rewrite get_cached_recommender_run, Hl. f_equal.
      by apply touch_recommender_fixed. }
  destruct (live_cases (recommender_cache s) (clock s) item_id) as [[v Hv] | Hmiss].
  - rewrite (recommender_cache_served item_id orderbooks s v Hv) in Hget.
    inversion Hget; subst v s'.
    destruct (Hhit (touch_recommender s item_id)) as [H1 H2];
      [cbn; by rewrite live_touch | cbn; apply touch_touch |].
    split; [exact H1 |]. split; [exact H2 |].
    intros Hmiss. by rewrite Hmiss in Hv.
  - destruct (recommender_cache_miss item_id orderbooks s
                (live_None_contains _ _ _ Hmiss)) as (s'' & E & _ & _ & Hc).
    pose proof (recommender_cache_stored item_id orderbooks s Hmiss) as Hfix.
    rewrite Hget in E. inversion E as [[Hr Hs]]. subst s''.
    rewrite <- Hr in Hc, Hfix. destruct Hc as [_ Hent].
    rewrite Hget in Hfix. specialize (Hfix ltac:(eauto)). cbn [snd] in Hfix.
    unfold RecommenderCache.ttl in Hent. change (60 * 5) with 300 in Hent.
    assert (forall s3, recommender_cache s3 = recommender_cache s' ->
              clock s3 < clock s' + 300 ->
              live (recommender_cache s3) (clock s3) item_id = Some r) as Hlive.
    { intros s3 Hc Hlt. rewrite Hc, (live_of_entries _ _ _ _ _ Hent).
      by rewrite (proj2 (Z.ltb_lt _ _) Hlt). }
    destruct (Hhit s') as [H1 H2]; [apply Hlive; [done | lia] | done |].
    split; [exact H1 |]. split; [exact H2 |].
    intros _ Hc. split.
    + intros Hlt. apply Hhit; [by apply Hlive | by rewrite Hc].
    + intros Hge.
      destruct (recommender_cache_miss item_id orderbooks2 s2) as (s3 & -> & _);
        [| done].
      apply live_None_contains.
      rewrite Hc, (live_of_entries _ _ _ _ _ Hent).
      by rewrite (proj2 (Z.ltb_ge _ _) Hge).
Qed.

(** X6 at work: the item constructed in the calm world, asked for again
    299 seconds later with no order books at hand. *)
Lemma recommender_lives_five_minutes_witness :
  exists r s',
    RecommenderCache.get "ENCHANTED_DIAMOND"
      {[ "ENCHANTED_DIAMOND"%string := ([order 100], [order 103]) ]}
      (start calm_network) = (Ok (Some r), s') /\
    RecommenderCache.get "ENCHANTED_DIAMOND" ∅ (after s' 0 299 []) =
      (Ok (Some r), after s' 0 299 []).
Proof.
  destruct (RecommenderCache.get "ENCHANTED_DIAMOND"
              {[ "ENCHANTED_DIAMOND"%string := ([order 100], [order 103]) ]}
              (start calm_network)) as [[[r |] | e] s'] eqn:E;
    [| vm_compute in E; discriminate | vm_compute in E; discriminate].
  exists r, s'. split; [reflexivity |].
  destruct (recommender_lives_five_minutes "ENCHANTED_DIAMOND" _ ∅
              (start calm_network) s' (after s' 0 299 []) r E) as (_ & _ & H).
  apply H; [reflexivity | reflexivity | cbn; lia].
Defined.

(* ===================================================================== *)
(** ** Reading the item cache, and turns of the loop on warm caches *)
(* ===================================================================== *)

Lemma read_recommenders_cons (s : State) (item_id : string) (rest : list string) :
  read_recommenders s (item_id :: rest) =
    read_recommenders
      (if TTLCache.contains (recommender_cache s) (clock s) item_id
       then touch_recommender s item_id else s) rest.
Proof. reflexivity. Qed.

(** Looking the items up changes the order of use in the item cache and
    nothing else. *)
Lemma read_recommenders_frame (s : State) (item_ids : list string) :
  let s' := read_recommenders s item_ids in
  network s' = network s /\ requests s' = requests s /\ clock s' = clock s /\
  trace s' = trace s /\
  orderbook_cache s' = orderbook_cache s /\
  good_products_cache s' = good_products_cache s /\
  forall now k, live (recommender_cache s') now k = live (recommender_cache s) now k.
Proof.
  revert s. induction item_ids as [| item_id rest IH]; intros s; [done |].
  cbv zeta. rewrite read_recommenders_cons.
  destruct (TTLCache.contains _ _ _); [| apply IH].
  destruct (IH (touch_recommender s item_id)) as (H1 & H2 & H3 & H4 & H5 & H6 & H7).
  repeat split; try done.
  intros now k. rewrite H7. cbn. apply live_touch.
Qed.

Lemma read_recommenders_after (s : State) (evs : list Event) (item_ids : list string) :
  read_recommenders (after s 0 0 evs) item_ids
    = after (read_recommenders s item_ids) 0 0 evs.
Proof.
  revert s. induction item_ids as [| item_id rest IH]; intros s; [done |].
  rewrite !read_recommenders_cons. cbn [after recommender_cache clock].
  rewrite Z.add_0_r.
  destruct (TTLCache.contains _ _ _); [| apply IH].
  by rewrite <- IH.
Qed.

Lemma omap_live_touch {V} (c : TTLCache.t V) (now : Z) (k : string)
    (keys : list string) :
  omap (live (TTLCache.touch c k) now) keys = omap (live c now) keys.
Proof.
  induction keys as [| k' keys IH]; cbn; [done |].
  by rewrite live_touch, IH.
Qed.

Lemma set_recommender_cache_touch (s : State) (item_id : string) :
  set_recommender_cache (TTLCache.touch (recommender_cache s) item_id) s
    = (Ok tt, touch_recommender s item_id).
Proof. reflexivity. Qed.

Lemma cached_recommenders_run (item_ids : list string) (acc : list Recommender)
    (s : State) :
  CacheManager.cached_recommenders item_ids acc s =
    (Ok (acc ++ omap (live (recommender_cache s) (clock s)) item_ids),
     read_recommenders s item_ids).
Proof.
  revert acc s. induction item_ids as [| item_id rest IH]; intros acc s;
    cbn [CacheManager.cached_recommenders omap list_omap].
  - by rewrite app_nil_r.
  - rewrite read_recommenders_cons.
    rewrite bind_run, gets_run, bind_run, gets_run. cbv iota beta zeta.
    rewrite live_contains.
    destruct (live (recommender_cache s) (clock s) item_id) as [r |] eqn:E.
    + rewrite bool_decide_eq_true_2 by eauto.
      rewrite (live_getitem _ _ _ _ E). cbn [fst snd].
      rewrite bind_run, set_recommender_cache_touch. cbv iota beta.
      rewrite bind_run. cbv [lift]. cbv iota beta. rewrite IH.
      cbn [touch_recommender recommender_cache clock].
      by rewrite omap_live_touch, <- app_assoc.
    + rewrite bool_decide_eq_false_2 by (by intros [? ?]). apply IH.
Qed.

Lemma omap_shorter {A B} (f : A -> option B) (l : list A) :
  (length (omap f l) <= length l)%nat.
Proof.
  induction l as [| x l IH]; cbn; [done |].
  destruct (f x); cbn; lia.
Qed.

Lemma good_products_get_keeps_items (s : State) :
  recommender_cache (snd (GoodProductsCache.get s)) = recommender_cache s.
Proof.
  destruct (live_cases (good_products_cache s) (clock s) "_") as [[v Hv] | Hmiss].
  - by rewrite (good_products_cache_served s v Hv).
  - apply live_None_contains in Hmiss.
    destruct (fst (DataClient.get_good_products s)) as [items | e] eqn:E.
    + destruct (good_products_cache_fetched s items Hmiss E)
        as (s' & -> & _ & Hr & _). exact Hr.
    + destruct (good_products_cache_failed_fetch s e Hmiss E)
        as (s' & -> & Hr & _). exact Hr.
Qed.

(** X7. [get_recommenders] only reads the item cache.  It raises what
    fetching the eligible items raises, and nothing else; otherwise it
    returns, in the order of the eligible items, the cached recommender of
    each eligible item that has a live one, leaving out the others.  No
    item is constructed and no request is made beyond that fetch; in the
    item cache each link read becomes the most recently used, and the
    cache serves afterwards what it served before, under every key and
    at every time. *)
Theorem get_recommenders_reads_the_cache (s : State) :
  let eligible := GoodProductsCache.get s in
  let s' := snd eligible in
  let s'' := snd (CacheManager.get_recommenders s) in
  CacheManager.get_recommenders s =
    match fst eligible with
    | Ok item_ids =>
        (Ok (omap (live (recommender_cache s) (clock s')) item_ids),
         read_recommenders s' item_ids)
    | Raise e => (Raise e, s')
    end /\
  requests s'' = requests s' /\ trace s'' = trace s' /\ clock s'' = clock s' /\
  orderbook_cache s'' = orderbook_cache s' /\
  good_products_cache s'' = good_products_cache s' /\
  (forall now k,
     live (recommender_cache s'') now k = live (recommender_cache s) now k) /\
  match fst (CacheManager.get_recommenders s), fst eligible with
  | Ok recommenders, Ok item_ids => (length recommenders <= length item_ids)%nat
  | Raise e, Raise e' => e = e'
  | _, _ => False
  end.
Proof.
  intros eligible s' s''.
  pose proof (good_products_get_keeps_items s) as Hkeep. fold eligible s' in Hkeep.
  assert (CacheManager.get_recommenders s =
            match fst eligible with
            | Ok item_ids =>
                (Ok (omap (live (recommender_cache s) (clock s')) item_ids),
                 read_recommenders s' item_ids)
            | Raise e => (Raise e, s')
            end) as Hrun.
  { unfold CacheManager.get_recommenders. rewrite bind_run.
    subst s' eligible.
    destruct (GoodProductsCache.get s) as [[item_ids | e] s1]; cbn [fst snd] in *;
      [| done].
    by rewrite cached_recommenders_run, Hkeep. }
  split; [exact Hrun |]. subst s''. rewrite Hrun.
  destruct (fst eligible) as [item_ids | e]; cbn [fst snd].
  - destruct (read_recommenders_frame s' item_ids)
      as (_ & H2 & H3 & H4 & H5 & H6 & H7).
    repeat split; try done.
    + intros now k. by rewrite H7, Hkeep.
    + apply omap_shorter.
  - repeat split; try done. intros now k. by rewrite Hkeep.
Qed.

(** On warm caches nothing is fetched, written or awaited. *)
Lemma after_live {V} (cache : State -> TTLCache.t V) (s : State) (evs : list Event)
    (k : string) :
  cache (after s 0 0 evs) = cache s ->
  live (cache (after s 0 0 evs)) (clock (after s 0 0 evs)) k
    = live (cache s) (clock s) k.
Proof. intros ->. cbn [after clock]. by rewrite Z.add_0_r. Qed.

Lemma refresh_items_served (item_ids : list string) (orderbooks : ItemOrderbookDict)
    (s : State) :
  Forall (fun item_id => is_Some (live (recommender_cache s) (clock s) item_id))
         item_ids ->
  CacheManager.refresh_items item_ids orderbooks s
    = (Ok tt, read_recommenders s item_ids).
Proof.
  revert s. induction item_ids as [| item_id rest IH]; intros s H;
    cbn [CacheManager.refresh_items]; [done |].
  apply Forall_cons in H as [[r Hr] H].
  rewrite read_recommenders_cons, (live_Some_contains _ _ _ _ Hr).
  rewrite bind_run, (recommender_cache_served _ _ _ _ Hr). apply IH.
  eapply Forall_impl; [exact H |]. intros id Hid. cbn. by rewrite live_touch.
Qed.

Lemma serves_same_after (s s' : State) (evs : list Event) :
  serves_same s s' -> serves_same s (after s' 0 0 evs).
Proof. by intros H. Qed.

(** X8. A turn on warm caches.  When the eligible items, the order books
    and the recommender of every eligible item are live in the caches, a
    turn of the refresh loop makes no request, does not sleep, logs
    nothing and takes no time: its events are the four steps of a
    completed cycle.  It writes no value into a cache: the links it reads
    become the most recently used, and each cache serves afterwards what
    it served before, under every key and at every time. *)
Theorem warm_turn_only_reads (s : State) (item_ids : list string)
    (orderbooks : ItemOrderbookDict) :
  live (good_products_cache s) (clock s) "_" = Some item_ids ->
  live (orderbook_cache s) (clock s) "_" = Some orderbooks ->
  Forall (fun item_id => is_Some (live (recommender_cache s) (clock s) item_id))
         item_ids ->
  let s' := read_recommenders (touch_orderbooks (touch_good_products s)) item_ids in
  refresh_loop_body s = (Ok tt, after s' 0 0 completed_turn) /\
  requests s' = requests s /\ clock s' = clock s /\ trace s' = trace s /\
  serves_same s s'.
Proof.
  intros H1 H2 H3 s'.
  assert (forall evs,
            live (good_products_cache (after s 0 0 evs)) (clock (after s 0 0 evs)) "_"
            = live (good_products_cache s) (clock s) "_") as Lg
    by (intros; by apply (after_live good_products_cache)).
  destruct (read_recommenders_frame (touch_orderbooks (touch_good_products s)) item_ids)
    as (F1 & F2 & F3 & F4 & F5 & F6 & F7). fold s' in F1, F2, F3, F4, F5, F6, F7.
  split.
  - unfold refresh_loop_body. rewrite bind_run, phase_run.
    unfold try_except, CacheManager.refresh.
    rewrite bind_run, phase_run, after_after. change (0 + 0) with 0.
    cbn [Nat.add app].
    rewrite bind_run, (good_products_cache_served _ item_ids) by (by rewrite Lg).
    rewrite bind_run, phase_run.
    rewrite bind_run, (orderbook_cache_served _ orderbooks)
      by (cbn; by rewrite !Z.add_0_r).
    rewrite bind_run, phase_run.
    rewrite refresh_items_served.
    2:{ eapply Forall_impl; [exact H3 |]. intros id Hid. cbn.
        by rewrite !Z.add_0_r. }
    f_equal. subst s'.
    etransitivity; [| apply read_recommenders_after].
    f_equal. apply state_eq; cbn; try done; try lia.
    by rewrite <- !app_assoc.
  - split; [exact F2 |]. split; [exact F3 |]. split; [exact F4 |].
    split; [| split].
    + intros now k. by rewrite F7.
    + intros now k. rewrite F5. cbn. apply live_touch.
    + intros now k. rewrite F6. cbn. apply live_touch.
Qed.

(** X8 at work: the calm world after one turn. *)
Lemma warm_turn_only_reads_witness :
  let s := snd (refresh_loop 1 (start calm_network)) in
  exists item_ids s',
    live (good_products_cache s) (clock s) "_" = Some item_ids /\
    item_ids = ["ENCHANTED_DIAMOND"%string] /\
    refresh_loop_body s = (Ok tt, after s' 0 0 completed_turn) /\
    requests s' = requests s /\ clock s' = clock s /\ trace s' = trace s /\
    serves_same s s'.
Proof.
  intros s.
  destruct (live (orderbook_cache s) (clock s) "_") as [obs |] eqn:Eo;
    [| vm_compute in Eo; discriminate].
  exists ["ENCHANTED_DIAMOND"%string]. eexists.
  split; [vm_compute; reflexivity |]. split; [reflexivity |].
  apply (warm_turn_only_reads s ["ENCHANTED_DIAMOND"%string] obs).
  - vm_compute. reflexivity.
  - exact Eo.
  - constructor; [| constructor]. eexists. vm_compute. reflexivity.
Defined.

(* ===================================================================== *)
(** ** The market snapshot: eligible items and order books *)
(* ===================================================================== *)

Lemma get_good_products_run (s : State) :
  DataClient.get_good_products s =
    (res ← fst (DataClient._get DataClient.bazaar_url s);
     products ← DataClient.products_of (body res);
     Ok (map fst (List.filter (fun p => DataClient.is_good (quick_status (snd p)))
                              products)),
     snd (DataClient._get DataClient.bazaar_url s)).
Proof.
  unfold DataClient.get_good_products. rewrite bind_run.
  destruct (DataClient._get _ s) as [[res | e] s1]; cbn [fst snd mbind result_bind];
    [| done].
  rewrite bind_run. cbv [lift].
  by destruct (DataClient.products_of (body res)).
Qed.

(** The dict [get_orderbooks] builds from the products, in order. *)
Lemma get_orderbooks_run (s : State) :
  DataClient.get_orderbooks s =
    (res ← fst (DataClient._get DataClient.bazaar_url s);
     products ← DataClient.products_of (body res);
     Ok (foldl (fun (orderbooks : ItemOrderbookDict) (p : string * Product) =>
                  <[fst p := (sell_summary (snd p), buy_summary (snd p))]> orderbooks)
               ∅ products),
     snd (DataClient._get DataClient.bazaar_url s)).
Proof.
  unfold DataClient.get_orderbooks. rewrite bind_run.
  destruct (DataClient._get _ s) as [[res | e] s1]; cbn [fst snd mbind result_bind];
    [| done].
  rewrite bind_run. cbv [lift].
  by destruct (DataClient.products_of (body res)).
Qed.

Lemma orderbooks_lookup (products : list (string * Product))
    (acc : ItemOrderbookDict) (item_id : string) :
  foldl (fun (orderbooks : ItemOrderbookDict) (p : string * Product) =>
           <[fst p := (sell_summary (snd p), buy_summary (snd p))]> orderbooks)
        acc products !! item_id =
    match List.find (fun p => bool_decide (fst p = item_id)) (rev products) with
    | Some p => Some (sell_summary (snd p), buy_summary (snd p))
    | None => acc !! item_id
    end.
Proof.
  revert acc. induction products as [| p products IH]; intros acc; cbn; [done |].
  rewrite IH, find_app.
  destruct (List.find _ (rev products)) as [q |]; [done |]. cbn.
  destruct (bool_decide (fst p = item_id)) eqn:E.
  - apply bool_decide_eq_true in E. subst item_id. by rewrite lookup_insert_eq.
  - apply bool_decide_eq_false in E. by rewrite lookup_insert_ne.
Qed.

Lemma find_key_None (products : list (string * Product)) (item_id : string) :
  List.find (fun p => bool_decide (fst p = item_id)) products = None <->
  item_id ∉ map fst products.
Proof.
  induction products as [| p products IH]; cbn.
  - split; [intros _; apply not_elem_of_nil | done].
  - destruct (bool_decide (fst p = item_id)) eqn:E.
    + apply bool_decide_eq_true in E. split; [done |].
      intros H. exfalso. apply H. subst. by left.
    + apply bool_decide_eq_false in E. rewrite IH, not_elem_of_cons.
      split; [intros H; split; [congruence | exact H] | intros [_ H]; exact H].
Qed.

Lemma find_key_unique (products : list (string * Product)) (item_id : string)
    (p : Product) :
  NoDup (map fst products) -> (item_id, p) ∈ products ->
  List.find (fun q => bool_decide (fst q = item_id)) products = Some (item_id, p).
Proof.
  induction products as [| q products IH]; cbn; intros Hnd Hin.
  - by apply elem_of_nil in Hin.
  - apply NoDup_cons in Hnd as [Hq Hnd].
    apply elem_of_cons in Hin as [<- | Hin].
    + cbn. by rewrite bool_decide_eq_true_2.
    + destruct (bool_decide (fst q = item_id)) eqn:E; [| by apply IH].
      apply bool_decide_eq_true in E. exfalso. apply Hq. rewrite E.
      change item_id with (fst (item_id, p)).
      apply list_elem_of_In, in_map, list_elem_of_In, Hin.
Qed.

Lemma good_ids_sublist (products : list (string * Product)) :
  map fst (List.filter (fun p => DataClient.is_good (quick_status (snd p))) products)
    `sublist_of` map fst products.
Proof.
  induction products as [| p products IH]; cbn; [constructor |].
  destruct (DataClient.is_good _); cbn; by constructor.
Qed.

Lemma find_rev_key (products : list (string * Product)) (item_id : string) :
  item_id ∈ map fst products ->
  is_Some (List.find (fun p => bool_decide (fst p = item_id)) (rev products)).
Proof.
  intros Hin.
  destruct (List.find _ (rev products)) as [q |] eqn:E; [eauto |].
  exfalso. apply find_key_None in E. apply E.
  rewrite map_rev. apply list_elem_of_In, in_rev. rewrite rev_involutive.
  by apply list_elem_of_In.
Qed.

(** X9. Eligible items have order books.  When the eligible items and the
    order books are read off the same response (both fetched in the same
    state of the world), the eligible items are identifiers of products of
    that response, in the response's order, each with a quick status that
    passes [is_good], and every one of them has an entry in the order
    books: none is skipped for want of order books. *)
Theorem eligible_items_have_order_books
    (s : State) (item_ids : list string) (orderbooks : ItemOrderbookDict) :
  fst (DataClient.get_good_products s) = Ok item_ids ->
  fst (DataClient.get_orderbooks s) = Ok orderbooks ->
  Forall (fun item_id => is_Some (orderbooks !! item_id)) item_ids /\
  exists res products,
    fst (DataClient._get DataClient.bazaar_url s) = Ok res /\
    body res = JsonBazaar products /\
    item_ids `sublist_of` map fst products /\
    Forall (fun item_id =>
              exists p, (item_id, p) ∈ products /\
                        DataClient.is_good (quick_status p) = true) item_ids.
Proof.
  rewrite get_good_products_run, get_orderbooks_run. cbn [fst].
  destruct (fst (DataClient._get DataClient.bazaar_url s)) as [res | e];
    cbn [mbind result_bind]; [| discriminate].
  destruct (body res) as [h | products |] eqn:Hb; cbn [DataClient.products_of];
    cbn [mbind result_bind]; try discriminate.
  intros [= <-] [= <-].
  pose proof (good_ids_sublist products) as Hsub.
  split.
  - apply Forall_forall. intros item_id Hin.
    rewrite orderbooks_lookup.
    destruct (find_rev_key products item_id) as [q ->]; [| eauto].
    eapply elem_of_sublist; eassumption.
  - exists res, products. split; [done |]. split; [done |]. split; [exact Hsub |].
    apply Forall_forall. intros item_id Hin.
    apply list_elem_of_In, in_map_iff in Hin as ([id p] & <- & Hp).
    apply filter_In in Hp as [Hp Hg]. exists p. split; [| exact Hg].
    by apply list_elem_of_In.
Qed.

(** X9 at work: the calm world's snapshot. *)
Lemma eligible_items_have_order_books_witness :
  exists item_ids orderbooks,
    fst (DataClient.get_good_products (start calm_network)) = Ok item_ids /\
    fst (DataClient.get_orderbooks (start calm_network)) = Ok orderbooks /\
    Forall (fun item_id => is_Some (orderbooks !! item_id)) item_ids.
Proof.
  destruct (fst (DataClient.get_good_products (start calm_network)))
    as [item_ids | e] eqn:E1; [| vm_compute in E1; discriminate].
  destruct (fst (DataClient.get_orderbooks (start calm_network)))
    as [orderbooks | e] eqn:E2; [| vm_compute in E2; discriminate].
  exists item_ids, orderbooks. split; [done |]. split; [done |].
  exact (proj1 (eligible_items_have_order_books _ _ _ E1 E2)).
Defined.

(** X10. The order books swap the snapshot's summaries.  For a response
    whose products have distinct identifiers, [get_orderbooks] returns a
    dict with exactly the products' identifiers as keys; an item's
    buy-order book is its product's [sell_summary] and its sell-order
    book the product's [buy_summary]. *)
Theorem order_books_swap_the_summaries
    (s : State) (res : Response) (products : list (string * Product)) :
  fst (DataClient._get DataClient.bazaar_url s) = Ok res ->
  body res = JsonBazaar products ->
  NoDup (map fst products) ->
  exists orderbooks,
    fst (DataClient.get_orderbooks s) = Ok orderbooks /\
    (forall item_id p, (item_id, p) ∈ products ->
       orderbooks !! item_id = Some (sell_summary p, buy_summary p)) /\
    (forall item_id, item_id ∉ map fst products -> orderbooks !! item_id = None).
Proof.
  intros Hres Hb Hnd. rewrite get_orderbooks_run, Hres. cbn [fst mbind result_bind].
  rewrite Hb. cbn [DataClient.products_of mbind result_bind].
  eexists. split; [reflexivity |]. split.
  - intros item_id p Hin. rewrite orderbooks_lookup.
    rewrite (find_key_unique (rev products) item_id p); [done | |].
    + rewrite map_rev. by apply NoDup_ListNoDup, NoDup_rev, NoDup_ListNoDup.
    + by apply list_elem_of_In, in_rev, list_elem_of_In in Hin.
  - intros item_id Hnot. rewrite orderbooks_lookup.
    assert (List.find (fun p => bool_decide (fst p = item_id)) (rev products) = None)
      as ->; [| apply lookup_empty].
    apply find_key_None. rewrite map_rev. intros Hin. apply Hnot.
    by apply list_elem_of_In, in_rev, list_elem_of_In in Hin.
Qed.

(** X10 at work: the one product of the calm world's snapshot. *)
Lemma order_books_swap_the_summaries_witness :
  exists orderbooks,
    fst (DataClient.get_orderbooks (start calm_network)) = Ok orderbooks /\
    orderbooks !! "ENCHANTED_DIAMOND"%string =
      Some ([order 100; order 101], [order 103; order 105]).
Proof.
  destruct (order_books_swap_the_summaries (start calm_network)
              {| status_code := 200; retry_after := None;
                 body := body_for DataClient.bazaar_url |}
              [("ENCHANTED_DIAMOND"%string, sample_product)])
    as (obs & E & H & _); [reflexivity | reflexivity | |].
  - apply NoDup_singleton.
  - exists obs. split; [exact E |].
    apply (H "ENCHANTED_DIAMOND"%string sample_product). by left.
Defined.

(* ===================================================================== *)
(** ** The derived history, row by row *)
(* ===================================================================== *)

Lemma require_columns_Ok (have want : list string) :
  require_columns have want = Ok tt <-> Forall (fun c => c ∈ have) want.
Proof.
  induction want as [| c want IH]; cbn.
  - split; [constructor | done].
  - destruct (bool_decide (c ∈ have)) eqn:E.
    + apply bool_decide_eq_true in E. rewrite IH. split.
      * by constructor.
      * by inversion 1.
    + apply bool_decide_eq_false in E. split; [discriminate |].
      by inversion 1.
Qed.

Lemma require_columns_Raise (have want : list string) (e : exn) :
  require_columns have want = Raise e ->
  exists c, e = KeyError c /\ c ∈ want /\ c ∉ have.
Proof.
  induction want as [| c want IH]; cbn; [discriminate |].
  destruct (bool_decide (c ∈ have)) eqn:E.
  - intros H. destruct (IH H) as (c' & -> & Hin & Hnot).
    exists c'. split; [done |]. split; [by right | done].
  - apply bool_decide_eq_false in E. intros [= <-].
    exists c. split; [done |]. split; [by left | done].
Qed.

Lemma ffill_rows_length (last : RawRow) (l : list RawRow) :
  length (ffill_rows last l) = length l.
Proof.
  revert last. induction l as [| r l IH]; intros last; cbn; [done |].
  by rewrite IH.
Qed.

Lemma derive_rows_length (prev : option RawRow) (l : list RawRow) :
  length (derive_rows prev l) = length l.
Proof.
  revert prev. induction l as [| r l IH]; intros prev; cbn; [done |].
  by rewrite IH.
Qed.

Lemma ffill_rows_timestamp (last : RawRow) (l : list RawRow) :
  map r_timestamp (ffill_rows last l) = map r_timestamp l.
Proof.
  revert last. induction l as [| r l IH]; intros last; cbn; [done |].
  by rewrite IH.
Qed.

Lemma derive_rows_timestamp (prev : option RawRow) (l : list RawRow) :
  map timestamp (derive_rows prev l) = map r_timestamp l.
Proof.
  revert prev. induction l as [| r l IH]; intros prev; cbn; [done |].
  by rewrite IH.
Qed.

(** X11. The columns a history needs.  [transformed_past_hour] returns
    exactly when the frame has the seven columns timestamp, buy, sell,
    buyVolume, sellVolume, buyMovingWeek and sellMovingWeek, and then with
    one derived row per row of the frame; otherwise it raises a
    [KeyError], and one of the seven is missing. *)
Theorem transformed_past_hour_needs_its_columns (df : RawHistory) :
  match transformed_past_hour df with
  | Ok d =>
      Forall (fun c => c ∈ columns df) history_columns /\
      length d = length (rows df)
  | Raise e =>
      exists key c, e = KeyError key /\ c ∈ history_columns /\ c ∉ columns df
  end.
Proof.
  unfold transformed_past_hour, history_columns.
  destruct (require_columns (columns df) ["timestamp"%string]) as [[] | e] eqn:E1;
    cbn [mbind result_bind].
  - destruct (require_columns (columns df) fill_cols) as [[] | e] eqn:E2;
      cbn [mbind result_bind].
    + apply require_columns_Ok in E1, E2. split.
      * apply Forall_cons. split; [by inversion E1 | exact E2].
      * by rewrite derive_rows_length, ffill_rows_length, sort_values_length.
    + apply require_columns_Raise in E2 as (c & -> & Hin & Hnot).
      exists c, c. split; [done |]. split; [by right | done].
  - apply require_columns_Raise in E1 as (c & -> & Hin & Hnot).
    exists c, c. split; [done |]. split; [| done].
    apply list_elem_of_singleton in Hin. subst c. by left.
Qed.

(** Sorting on a total order chains the result. *)
Lemma chained_cons {A} (le : A -> A -> bool) (a : A) (l : list A) :
  chained le (a :: l) =
    match l with [] => true | b :: _ => le a b && chained le l end.
Proof. by destruct l. Qed.

Lemma insert_sorted_chained {A} (le : A -> A -> bool) (x : A) (l : list A) :
  (forall a b, le a b = false -> le b a = true) ->
  chained le l = true -> chained le (Py.insert_sorted le x l) = true.
Proof.
  intros Htotal. induction l as [| y l IH]; intros Hl; [done |].
  cbn [Py.insert_sorted]. destruct (le x y) eqn:E.
  - rewrite chained_cons, E. exact Hl.
  - rewrite chained_cons in Hl.
    assert (chained le l = true) as Hl'.
    { destruct l; [done |]. by apply andb_true_iff in Hl as [_ Hl]. }
    specialize (IH Hl'). rewrite chained_cons.
    destruct l as [| z l]; cbn [Py.insert_sorted] in *.
    + by rewrite (Htotal _ _ E).
    + apply andb_true_iff in Hl as [Hyz _].
      destruct (le x z); rewrite ?Hyz, ?(Htotal _ _ E); exact IH.
Qed.

Lemma sort_values_chained {A} (le : A -> A -> bool) (l : list A) :
  (forall a b, le a b = false -> le b a = true) ->
  chained le (Py.sort_values le l) = true.
Proof.
  intros Htotal. induction l as [| x l IH]; [done |].
  by apply insert_sorted_chained.
Qed.

Lemma chained_map {A B} (f : A -> B) (le : B -> B -> bool) (l : list A) :
  chained le (map f l) = chained (fun a b => le (f a) (f b)) l.
Proof.
  induction l as [| a l IH]; [done |].
  cbn [map]. rewrite !chained_cons, <- IH. by destruct l.
Qed.

Lemma chained_last (l : list Z) (t : Z) :
  chained Z.leb l = true -> last l = Some t -> Forall (fun x => x <= t) l.
Proof.
  induction l as [| a l IH]; intros Hl Ht; [constructor |].
  rewrite chained_cons in Hl. destruct l as [| b l].
  - cbn in Ht. inversion Ht. subst. constructor; [lia | constructor].
  - apply andb_true_iff in Hl as [Hab Hl]. apply Z.leb_le in Hab.
    specialize (IH Hl Ht). constructor; [| exact IH].
    inversion IH; subst. lia.
Qed.

Lemma sorted_timestamps (l : list RawRow) :
  chained Z.leb (map r_timestamp (Py.sort_values by_timestamp l)) = true.
Proof.
  rewrite chained_map. apply sort_values_chained.
  intros a b H. unfold by_timestamp in *.
  apply Z.leb_gt in H. apply Z.leb_le. lia.
Qed.

(** X12. The derived history is in time order.  Whatever the order of the
    rows in the frame, the derived rows carry the same timestamps, each as
    often as in the frame, in ascending order. *)
Theorem derived_history_in_time_order (df : RawHistory) (d : list DerivedRow) :
  transformed_past_hour df = Ok d ->
  map timestamp d ≡ₚ map r_timestamp (rows df) /\
  chained Z.leb (map timestamp d) = true /\
  forall i j ti tj,
    (i <= j)%nat -> map timestamp d !! i = Some ti -> map timestamp d !! j = Some tj ->
    ti <= tj.
Proof.
  intros H. apply transformed_past_hour_Ok in H. subst d.
  rewrite derive_rows_timestamp, ffill_rows_timestamp.
  pose proof (sorted_timestamps (rows df)) as Hs.
  split; [by rewrite sort_values_perm |]. split; [exact Hs |].
  set (l := map r_timestamp _) in *. clearbody l. clear df.
  induction l as [| a l IH]; intros i j ti tj Hij Hi Hj; [done |].
  rewrite chained_cons in Hs.
  assert (chained Z.leb l = true) as Hl
    by (destruct l; [done | by apply andb_true_iff in Hs as [_ Hs]]).
  destruct i as [| i], j as [| j]; cbn in Hi, Hj; try lia.
  - inversion Hi; inversion Hj. lia.
  - inversion Hi; subst a. destruct l as [| b l]; [done |].
    apply andb_true_iff in Hs as [Hab _]. apply Z.leb_le in Hab.
    specialize (IH Hl 0%nat j b tj). cbn in IH.
    assert (b <= tj) by (apply IH; [lia | done | done]). lia.
  - apply (IH Hl i j); [lia | done | done].
Qed.

(** X12 at work: three rows that arrive latest first. *)
Lemma derived_history_in_time_order_witness :
  exists d,
    transformed_past_hour shuffled_history = Ok d /\
    map timestamp d ≡ₚ [40; 20; 0] /\
    chained Z.leb (map timestamp d) = true.
Proof.
  eexists. split; [reflexivity |].
  destruct (derived_history_in_time_order shuffled_history _ eq_refl) as (H1 & H2 & _).
  split; [exact H1 | exact H2].
Defined.

(* ===================================================================== *)
(** ** Floats: signs *)
(* ===================================================================== *)

Lemma SFcompare_refl (x : spec_float) :
  x <> S754_nan -> SFcompare x x = Some Eq.
Proof.
  destruct x as [[] | [] | | [] m e]; cbn; try done;
    by rewrite Z.compare_refl, Pcompare_refl.
Qed.

Lemma is_nan_SF (x : float) :
  PrimFloat.is_nan x = match Prim2SF x with S754_nan => true | _ => false end.
Proof.
  unfold PrimFloat.is_nan. rewrite eqb_spec. unfold SFeqb.
  destruct (Prim2SF x) as [s | s | | s m e] eqn:E; [| | done |];
    by rewrite SFcompare_refl.
Qed.

Lemma not_negative_SF (x : float) :
  not_negative x = true <-> SF_not_negative (Prim2SF x).
Proof.
  unfold not_negative. rewrite leb_spec. unfold SFleb.
  change (Prim2SF 0) with (S754_zero false).
  destruct (Prim2SF x) as [s | [] | | [] m e]; cbn; split;
    first [done | by inversion 1 | constructor].
Qed.

Lemma nan_or_not_negative_SF (x : float) :
  nan_or_not_negative x = true <->
  Prim2SF x = S754_nan \/ SF_not_negative (Prim2SF x).
Proof.
  unfold nan_or_not_negative. rewrite orb_true_iff, not_negative_SF, is_nan_SF.
  destruct (Prim2SF x); split; intros [H | H]; try done; eauto.
Qed.

Lemma not_negative_nan_or (x : float) :
  not_negative x = true -> nan_or_not_negative x = true.
Proof. unfold nan_or_not_negative. intros ->. apply orb_true_r. Qed.

Lemma shr_record_of_loc_m (m : Z) (l : location) : shr_m (shr_record_of_loc m l) = m.
Proof. by destruct l as [| []]. Qed.

Lemma shr_fexp_m_nonneg (m e : Z) (l : location) :
  0 <= m -> 0 <= shr_m (fst (shr_fexp prec emax m e l)).
Proof.
  intros Hm. unfold shr_fexp, shr.
  destruct (fexp prec emax (Zdigits2 m + e) - e) as [| p | p]; cbn [fst];
    rewrite ?shr_record_of_loc_m; try exact Hm.
  rewrite iter_pos_shr_1_m by (by rewrite shr_record_of_loc_m).
  rewrite shr_record_of_loc_m. apply Z.div_pos; [exact Hm |].
  apply Z.pow_pos_nonneg; lia.
Qed.

(** Rounding keeps the sign. *)
Lemma binary_round_aux_signed (s : bool) (m e : Z) (l : location) :
  0 <= m -> SF_signed s (binary_round_aux prec emax s m e l).
Proof.
  intros Hm. unfold binary_round_aux.
  pose proof (shr_fexp_m_nonneg m e l Hm) as H1.
  destruct (shr_fexp prec emax m e l) as [mrs' e']. cbn [fst] in H1.
  pose proof (round_nearest_even_bounds (shr_m mrs') (loc_of_shr_record mrs')) as Hr.
  pose proof (shr_fexp_m_nonneg
                (round_nearest_even (shr_m mrs') (loc_of_shr_record mrs')) e' loc_Exact)
    as H2.
  destruct (shr_fexp prec emax _ e' loc_Exact) as [mrs'' e'']. cbn [fst] in H2.
  specialize (H2 ltac:(lia)).
  destruct (shr_m mrs'') as [| p | p]; [constructor | | lia].
  destruct (e'' <=? emax - prec); constructor.
Qed.

Lemma binary_round_signed (s : bool) (m : positive) (e : Z) :
  SF_signed s (binary_round prec emax s m e).
Proof.
  unfold binary_round. destruct (shl_align _ _ _) as [mz ez].
  by apply binary_round_aux_signed.
Qed.

Lemma SF_signed_not_negative (x : spec_float) :
  SF_signed false x -> SF_not_negative x.
Proof. destruct 1; constructor. Qed.

(** Sums and quotients of floats that are at least zero. *)
Lemma SFadd_not_negative (x y : spec_float) :
  SF_not_negative x -> SF_not_negative y -> SF_not_negative (SF64add x y).
Proof.
  intros Hx Hy.
  destruct Hx as [sx | mx ex |]; destruct Hy as [sy | my ey |]; cbn;
    try (destruct sx); try (destruct sy); try constructor.
  unfold binary_normalize.
  destruct (_ + _) as [| p | p] eqn:E; [constructor | | lia].
  apply SF_signed_not_negative, binary_round_signed.
Qed.

Lemma SFdiv_core_nonneg (m1 m2 : positive) (e1 e2 : Z) :
  0 <= fst (fst (SFdiv_core_binary prec emax (Z.pos m1) e1 (Z.pos m2) e2)).
Proof.
  unfold SFdiv_core_binary.
  set (s := _ - _ - Z.min _ _).
  set (m' := match s with Z.pos _ => Z.shiftl (Z.pos m1) s | 0 => Z.pos m1
             | Z.neg _ => 0 end).
  assert (0 <= m') as Hm'.
  { unfold m'. destruct s as [| p | p]; try lia.
    rewrite Z.shiftl_mul_pow2 by lia.
    apply Z.mul_nonneg_nonneg; [lia | apply Z.pow_nonneg; lia]. }
  pose proof (Z.div_eucl_eq m' (Z.pos m2) ltac:(lia)) as Heq.
  pose proof (Z.mod_pos_bound m' (Z.pos m2) ltac:(lia)) as Hr.
  unfold Z.modulo in Hr.
  destruct (Z.div_eucl m' (Z.pos m2)) as [q r]. cbn [fst].
  nia.
Qed.

Lemma SFdiv_not_negative (x y : spec_float) :
  SF_not_negative x -> SF_signed false y ->
  SF64div x y = S754_nan \/ SF_not_negative (SF64div x y).
Proof.
  intros Hx Hy.
  destruct Hx as [sx | mx ex |]; destruct Hy as [| my ey |]; cbn;
    try (destruct sx); eauto using SF_not_negative.
  right.
  pose proof (SFdiv_core_nonneg mx my ex ey) as H.
  destruct (SFdiv_core_binary _ _ _ _ _ _) as [[mz ez] lz]. cbn [fst] in H.
  by apply SF_signed_not_negative, binary_round_aux_signed.
Qed.

Lemma SFadd_signed (x y : spec_float) :
  SF_signed false x -> SF_not_negative y -> SF_signed false (SF64add x y).
Proof.
  intros Hx Hy.
  destruct Hx as [| mx ex |]; destruct Hy as [sy | my ey |]; cbn;
    try (destruct sy); try constructor.
  unfold binary_normalize.
  destruct (_ + _) as [| p | p] eqn:E; [constructor | | lia].
  apply binary_round_signed.
Qed.

(** A finite positive number over a sum that is not zero. *)
Lemma SFdiv_signed (mx : positive) (ex : Z) (y : spec_float) :
  SF_signed false y -> (forall s, y <> S754_zero s) ->
  SF_signed false (SF64div (S754_finite false mx ex) y).
Proof.
  intros Hy Hnz. destruct Hy as [| my ey |]; cbn.
  - by destruct (Hnz false).
  - pose proof (SFdiv_core_nonneg mx my ex ey) as H.
    destruct (SFdiv_core_binary _ _ _ _ _ _) as [[mz ez] lz]. cbn [fst] in H.
    by apply binary_round_aux_signed.
  - constructor.
Qed.

Lemma add_not_negative (x y : float) :
  not_negative x = true -> not_negative y = true -> not_negative (x + y) = true.
Proof.
  rewrite !not_negative_SF, add_spec. apply SFadd_not_negative.
Qed.

Lemma div_not_negative (x y : float) :
  not_negative x = true -> SF_signed false (Prim2SF y) ->
  nan_or_not_negative (x / y) = true.
Proof.
  rewrite !not_negative_SF, nan_or_not_negative_SF, div_spec.
  apply SFdiv_not_negative.
Qed.

Lemma nan_propagates_add (x y : float) :
  PrimFloat.is_nan x = true \/ PrimFloat.is_nan y = true ->
  PrimFloat.is_nan (x + y) = true.
Proof.
  rewrite !is_nan_SF, add_spec.
  destruct (Prim2SF x) as [[] | [] | | [] ? ?], (Prim2SF y) as [[] | [] | | [] ? ?];
    cbn; intros [H | H]; done.
Qed.

Lemma nan_propagates_div (x y : float) :
  PrimFloat.is_nan x = true \/ PrimFloat.is_nan y = true ->
  PrimFloat.is_nan (x / y) = true.
Proof.
  rewrite !is_nan_SF, div_spec.
  destruct (Prim2SF x) as [[] | [] | | [] ? ?], (Prim2SF y) as [[] | [] | | [] ? ?];
    cbn; intros [H | H]; done.
Qed.

Lemma add_nan_or_not_negative (x y : float) :
  nan_or_not_negative x = true -> nan_or_not_negative y = true ->
  nan_or_not_negative (x + y) = true.
Proof.
  unfold nan_or_not_negative. rewrite !orb_true_iff.
  intros [Hx | Hx] [Hy | Hy];
    first [ left; apply nan_propagates_add; by eauto
          | right; by apply add_not_negative ].
Qed.

Lemma div_nan_or_not_negative (x y : float) :
  nan_or_not_negative x = true -> SF_signed false (Prim2SF y) ->
  nan_or_not_negative (x / y) = true.
Proof.
  unfold nan_or_not_negative at 1. rewrite orb_true_iff.
  intros [Hx | Hx] Hy; [| by apply div_not_negative].
  unfold nan_or_not_negative. rewrite nan_propagates_div; [done | by left].
Qed.

Lemma abs_nan_or_not_negative (x : float) :
  nan_or_not_negative (PrimFloat.abs x) = true.
Proof.
  rewrite nan_or_not_negative_SF, abs_spec.
  destruct (Prim2SF x); cbn; eauto using SF_not_negative.
Qed.

Lemma abs_is_nan (x : float) :
  PrimFloat.is_nan (PrimFloat.abs x) = PrimFloat.is_nan x.
Proof. rewrite !is_nan_SF, abs_spec. by destruct (Prim2SF x). Qed.

(** The mantissa of a float has at most 53 bits, and exactly 53 above the
    least exponent. *)
Lemma bounded_mantissa (m : positive) (e : Z) :
  bounded prec emax m e = true ->
  Z.pos m < 2 ^ 53 /\ -1074 <= e /\ (-1074 < e -> 2 ^ 52 <= Z.pos m).
Proof.
  unfold bounded, canonical_mantissa, fexp, emin, prec, emax. intros H.
  apply andb_true_iff in H as [H _]. apply Z.eqb_eq in H.
  pose proof (digits2_pos_bounds m) as [Blo Bhi].
  set (d := Z.pos (digits2_pos m)) in *.
  assert (d <= 53) as Hd by lia.
  split; [| split].
  - assert (2 ^ d <= 2 ^ 53) by (apply Z.pow_le_mono_r; lia). lia.
  - lia.
  - intros He. assert (d = 53) as Hd' by lia. rewrite Hd' in Blo. exact Blo.
Qed.

Lemma shl_align_value (m : positive) (e e' : Z) :
  e' <= e -> Z.pos (fst (shl_align m e e')) = Z.pos m * 2 ^ (e - e').
Proof.
  intros H. unfold shl_align.
  destruct (e' - e) as [| d | d] eqn:E; cbn [fst]; try lia.
  - replace (e - e') with 0 by lia. lia.
  - rewrite iter_xO_value. f_equal. f_equal. lia.
Qed.

(** The larger of two floats of one sign, aligned on the smaller
    exponent, has the larger mantissa. *)
Lemma aligned_le (ma mb : positive) (ea eb : Z) :
  bounded prec emax ma ea = true -> bounded prec emax mb eb = true ->
  match ea ?= eb with
  | Lt => True
  | Eq => (ma ?= mb)%positive <> Gt
  | Gt => False
  end ->
  Z.pos (fst (shl_align ma ea (Z.min eb ea))) <=
  Z.pos (fst (shl_align mb eb (Z.min eb ea))).
Proof.
  intros Ha Hb Hc.
  apply bounded_mantissa in Ha as (Ha1 & Ha2 & Ha3).
  apply bounded_mantissa in Hb as (Hb1 & Hb2 & Hb3).
  rewrite !shl_align_value by lia.
  destruct (Z.compare_spec ea eb) as [He | He | He]; [| | done].
  - subst eb. rewrite Z.min_id, Z.sub_diag. change (2 ^ 0) with 1.
    change (ma <= mb)%positive in Hc. lia.
  - rewrite Z.min_r by lia. rewrite Z.sub_diag.
    assert (2 ^ 1 <= 2 ^ (eb - ea)) as Hp by (apply Z.pow_le_mono_r; lia).
    specialize (Hb3 ltac:(lia)).
    change (2 ^ 0) with 1. change (2 ^ 1) with 2 in Hp.
    change (2 ^ 52) with 4503599627370496 in *.
    change (2 ^ 53) with 9007199254740992 in *. nia.
Qed.

Lemma binary_normalize_not_negative (z e : Z) :
  0 <= z -> SF_not_negative (binary_normalize prec emax z e false).
Proof.
  intros Hz. unfold binary_normalize. destruct z as [| p | p]; [constructor | | lia].
  apply SF_signed_not_negative, binary_round_signed.
Qed.

(** The difference of two ordered floats is at least zero, or NaN (the
    difference of two equal infinities). *)
Lemma SFsub_of_le (a b : spec_float) :
  valid_binary a = true -> valid_binary b = true -> SFleb a b = true ->
  SF64sub b a = S754_nan \/ SF_not_negative (SF64sub b a).
Proof.
  intros Va Vb Hle. unfold SFleb in Hle.
  destruct a as [sa | sa | | sa ma ea], b as [sb | sb | | sb mb eb];
    try discriminate Hle;
    try solve [ cbn in Hle |- *; try (destruct sa); try (destruct sb);
                try discriminate Hle; eauto using SF_not_negative ].
  right. apply binary_normalize_not_negative.
  cbn [SFcompare] in Hle. cbn [valid_binary] in Va, Vb.
  change (Pos.compare_cont Eq ma mb) with (ma ?= mb)%positive in Hle.
  destruct sa, sb; cbn [cond_Zopp]; try discriminate Hle; [| lia |].
  - (* both negative: the mantissa of [a] is the larger *)
    pose proof (aligned_le mb ma eb ea Vb Va) as H.
    rewrite Z.min_comm, Z.compare_antisym, (Pos.compare_antisym ma mb) in H.
    destruct (ea ?= eb); cbn [CompOpp] in *; try discriminate Hle;
      [destruct (ma ?= mb)%positive; cbn [CompOpp] in *; try discriminate Hle |];
      specialize (H ltac:(done)); lia.
  - pose proof (aligned_le ma mb ea eb Va Vb) as H.
    destruct (ea ?= eb); try discriminate Hle;
      [destruct (ma ?= mb)%positive; try discriminate Hle |];
      specialize (H ltac:(done)); lia.
Qed.

Lemma sub_of_le (a b : float) :
  (a <=? b)%float = true -> nan_or_not_negative (b - a) = true.
Proof.
  rewrite leb_spec, nan_or_not_negative_SF, sub_spec.
  apply SFsub_of_le; apply Prim2SF_valid.
Qed.

(* ===================================================================== *)
(** ** Floats: the integer part of a row count times a constant *)
(* ===================================================================== *)

(** Rounding a long positive mantissa to 53 bits: the result is the
    truncated mantissa or the next one. *)
Lemma binary_round_aux_between (mx : positive) (ex : Z) (k : positive) :
  Z.pos (digits2_pos mx) = 53 + Z.pos k ->
  -1074 <= ex + Z.pos k -> ex + Z.pos k + 1 <= 971 ->
  exists m e,
    binary_round_aux prec emax false (Z.pos mx) ex loc_Exact = S754_finite false m e /\
    ((e = ex + Z.pos k /\
      Z.pos mx / 2 ^ Z.pos k <= Z.pos m <= Z.pos mx / 2 ^ Z.pos k + 1) \/
     (e = ex + Z.pos k + 1 /\
      Z.pos mx / 2 ^ Z.pos k <= 2 * Z.pos m <= Z.pos mx / 2 ^ Z.pos k + 1)).
Proof.
  intros Hd Hlo Hhi.
  pose proof (digits2_pos_bounds mx) as [Blo Bhi]. rewrite Hd in Blo, Bhi.
  assert (0 < 2 ^ Z.pos k) as Hk by (apply Z.pow_pos_nonneg; lia).
  set (q := Z.pos mx / 2 ^ Z.pos k).
  assert (2 ^ 52 <= q < 2 ^ 53) as Hq.
  { unfold q. split.
    - apply Z.div_le_lower_bound; [lia |].
      replace (53 + Z.pos k - 1) with (Z.pos k + 52) in Blo by lia.
      rewrite Z.pow_add_r in Blo by lia. lia.
    - apply Z.div_lt_upper_bound; [lia |].
      replace (53 + Z.pos k) with (Z.pos k + 53) in Bhi by lia.
      rewrite Z.pow_add_r in Bhi by lia. lia. }
  unfold binary_round_aux.
  assert (shr_fexp prec emax (Z.pos mx) ex loc_Exact
          = (iter_pos shr_1 k (Build_shr_record (Z.pos mx) false false),
             ex + Z.pos k)) as ->.
  { unfold shr_fexp, shr_record_of_loc, fexp, emin, Zdigits2. rewrite Hd.
    replace (Z.max (53 + Z.pos k + ex - prec) (3 - emax - prec) - ex)
      with (Z.pos k) by (unfold prec, emax; lia).
    reflexivity. }
  set (mrs := iter_pos shr_1 k _).
  assert (shr_m mrs = q) as Hm
    by (unfold mrs; rewrite iter_pos_shr_1_m by (cbn; lia); reflexivity).
  pose proof (round_nearest_even_bounds (shr_m mrs) (loc_of_shr_record mrs)) as Hr.
  set (m' := round_nearest_even (shr_m mrs) (loc_of_shr_record mrs)) in *.
  rewrite Hm in Hr.
  destruct m' as [| pm | pm] eqn:Em; try lia.
  destruct (Z.eq_dec (Z.pos pm) (2 ^ 53)) as [Hc | Hc].
  - assert (Z.pos (digits2_pos pm) = 54) as Hd'
      by (apply digits2_pos_unique; rewrite Hc; cbn; lia).
    assert (shr_fexp prec emax (Z.pos pm) (ex + Z.pos k) loc_Exact
            = (shr_1 (Build_shr_record (Z.pos pm) false false),
               ex + Z.pos k + 1)) as ->.
    { unfold shr_fexp, shr_record_of_loc, fexp, emin, Zdigits2. rewrite Hd'.
      replace (Z.max (54 + (ex + Z.pos k) - prec) (3 - emax - prec) - (ex + Z.pos k))
        with 1 by (unfold prec, emax; lia).
      reflexivity. }
    rewrite shr_1_m by (cbn; lia). cbn [shr_m]. rewrite Hc.
    change (2 ^ 53 / 2) with (Z.pos 4503599627370496).
    destruct (ex + Z.pos k + 1 <=? emax - prec) eqn:E;
      [| apply Z.leb_gt in E; unfold emax, prec in E; lia].
    eexists _, _. split; [reflexivity |]. right. split; [done |]. fold q.
    change (2 ^ 53) with 9007199254740992 in Hc. lia.
  - assert (Z.pos (digits2_pos pm) = 53) as Hd'
      by (apply digits2_pos_unique; cbn in *; lia).
    assert (shr_fexp prec emax (Z.pos pm) (ex + Z.pos k) loc_Exact
            = (Build_shr_record (Z.pos pm) false false, ex + Z.pos k)) as ->.
    { unfold shr_fexp, shr_record_of_loc, fexp, emin, Zdigits2. rewrite Hd'.
      replace (Z.max (53 + (ex + Z.pos k) - prec) (3 - emax - prec) - (ex + Z.pos k))
        with 0 by (unfold prec, emax; lia).
      reflexivity. }
    cbn [shr_m].
    destruct (ex + Z.pos k <=? emax - prec) eqn:E;
      [| apply Z.leb_gt in E; unfold emax, prec in E; lia].
    eexists _, _. split; [reflexivity |]. left. split; [done |]. fold q. lia.
Qed.

(** The rounded product of a row count below 2^53 and a constant of
    mantissa [mc] and exponent [ec]: a mantissa [r] within one of the
    truncated product, at exponent [j - t], where [2^t] scales the count
    to 53 bits. *)
Lemma rounded_product (n : Z) (c : float) (mc : positive) (ec : Z) :
  1 <= n < 2 ^ 53 ->
  Prim2SF c = S754_finite false mc ec ->
  2 ^ 52 <= Z.pos mc < 2 ^ 53 -> -100 <= ec <= 0 ->
  exists (t r j s k : Z) (m2 : positive),
    0 <= t <= 52 /\ 2 ^ 52 <= n * 2 ^ t < 2 ^ 53 /\
    (k = 52 \/ k = 53) /\ (s = 0 \/ s = 1) /\
    2 ^ (52 + k) <= n * 2 ^ t * Z.pos mc < 2 ^ (53 + k) /\
    j = ec + k + s /\
    n * 2 ^ t * Z.pos mc / 2 ^ k <= r <= n * 2 ^ t * Z.pos mc / 2 ^ k + 1 /\
    r = 2 ^ s * Z.pos m2 /\
    Prim2SF (Py.of_Z n * c)%float = S754_finite false m2 (j - t).
Proof.
  intros Hn Hc Hmc Hec.
  destruct (of_Z_exact n Hn) as (m & t & Hp & Ht & Hm & Hb).
  assert (Prim2SF (Py.of_Z n * c)%float =
          binary_round_aux prec emax false (Z.pos (m * mc)) (- t + ec) loc_Exact)
    as Hx by (rewrite mul_spec, Hp, Hc; reflexivity).
  change (2 ^ 52) with 4503599627370496 in *.
  change (2 ^ 53) with 9007199254740992 in *.
  assert (2 ^ 104 <= Z.pos (m * mc) < 2 ^ 106) as Hprod.
  { rewrite Pos2Z.inj_mul.
    change (2 ^ 104) with (4503599627370496 * 4503599627370496).
    change (2 ^ 106) with (9007199254740992 * 9007199254740992). nia. }
  destruct (Z_lt_le_dec (Z.pos (m * mc)) (2 ^ 105)) as [Hlt | Hge].
  - destruct (binary_round_aux_between (m * mc) (- t + ec) 52)
      as (m2 & e2 & Hr & Hcase); [apply digits_105; lia | lia | lia |].
    rewrite Hr in Hx. rewrite Pos2Z.inj_mul, Hm in Hcase, Hlt, Hprod.
    destruct Hcase as [[He Hle] | [He Hle]].
    + exists t, (Z.pos m2), (ec + 52 + 0), 0, 52, m2.
      repeat split; try lia; try tauto. rewrite Hx. f_equal. lia.
    + exists t, (2 * Z.pos m2), (ec + 52 + 1), 1, 52, m2.
      repeat split; try lia; try tauto. rewrite Hx. f_equal. lia.
  - destruct (binary_round_aux_between (m * mc) (- t + ec) 53)
      as (m2 & e2 & Hr & Hcase); [apply digits_106; lia | lia | lia |].
    rewrite Hr in Hx. rewrite Pos2Z.inj_mul, Hm in Hcase, Hge, Hprod.
    destruct Hcase as [[He Hle] | [He Hle]].
    + exists t, (Z.pos m2), (ec + 53 + 0), 0, 53, m2.
      repeat split; try lia; try tauto. rewrite Hx. f_equal. lia.
    + exists t, (2 * Z.pos m2), (ec + 53 + 1), 1, 53, m2.
      repeat split; try lia; try tauto. rewrite Hx. f_equal. lia.
Qed.

Lemma div_between (a D d : Z) : 0 < D -> D * d <= a < D * (d + 1) -> a / D = d.
Proof.
  intros HD H. symmetry. apply Z.div_unique with (a - D * d); lia.
Qed.

(** The scale of a row count below 2^50 is at least 8. *)
Lemma scale_of_count (n t : Z) :
  1 <= n < 2 ^ 50 -> 0 <= t -> 2 ^ 52 <= n * 2 ^ t -> 8 <= 2 ^ t.
Proof.
  intros Hn Ht Hb.
  destruct (Z_lt_le_dec t 3) as [H | H].
  - assert (2 ^ t <= 2 ^ 2) by (apply Z.pow_le_mono_r; lia).
    change (2 ^ 2) with 4 in *. change (2 ^ 50) with 1125899906842624 in *.
    change (2 ^ 52) with 4503599627370496 in *. nia.
  - change 8 with (2 ^ 3). apply Z.pow_le_mono_r; lia.
Qed.

(** Evaluate the powers of two with a closed exponent. *)
Ltac eval_closed_pows :=
  repeat match goal with
  | |- context [2 ^ ?e] =>
      let v := eval vm_compute in (2 ^ e) in
      lazymatch v with Z.pos _ => change (2 ^ e) with v end
  | H : context [2 ^ ?e] |- _ =>
      let v := eval vm_compute in (2 ^ e) in
      lazymatch v with Z.pos _ => change (2 ^ e) with v in H end
  end.

(** [int(float(n) * c)] is the integer part of [n * num / den] for a
    constant [c], of mantissa [mc] and exponent [ec], that is [num / den]
    rounded. *)
Ltac integer_part mc ec num den :=
  let t := fresh "t" in let r := fresh "r" in let j := fresh "j" in
  let s := fresh "s" in let k := fresh "k" in let m2 := fresh "m2" in
  let Ht := fresh "Ht" in let Hb := fresh "Hb" in let Hk := fresh "Hk" in
  let Hs := fresh "Hs" in let Hp := fresh "Hp" in let Hj := fresh "Hj" in
  let Hr := fresh "Hr" in let Hr2 := fresh "Hr2" in let Hx := fresh "Hx" in
  let HT := fresh "HT" in let Hd := fresh "Hd" in let Hq := fresh "Hq" in
  let T := fresh "T" in let d := fresh "d" in let q := fresh "q" in
  let B := fresh "B" in let HA := fresh "HA" in
  lazymatch goal with
  | Hn : 1 <= ?n < 2 ^ 50 |- Py.int (Py.of_Z ?n * ?c)%float = Ok _ =>
      destruct (rounded_product n c mc ec)
        as (t & r & j & s & k & m2 & Ht & Hb & Hk & Hs & Hp & Hj & Hr & Hr2 & Hx);
      [ change (2 ^ 50) with 1125899906842624 in Hn;
        change (2 ^ 53) with 9007199254740992; lia
      | reflexivity | cbn; lia | lia | ];
      pose proof (scale_of_count n t Hn ltac:(lia) ltac:(lia)) as HT;
      rewrite (int_of_finite _ _ _ _ Hx) by lia;
      f_equal;
      set (T := 2 ^ t) in *;
      set (d := num * n / den);
      assert (den * d <= num * n < den * d + den) as Hd
        by (unfold d; Z.div_mod_to_equations; lia);
      assert (den * (T * d) <= num * (n * T) <= den * (T * d) + den * T - T) as HA
        by nia;
      set (B := n * T) in *;
      set (q := B * Z.pos mc / 2 ^ k) in *;
      destruct Hk; destruct Hs; subst k s j;
      eval_closed_pows;
      (assert (0 < T) as HT0 by lia);
      match goal with
      | q0 := _ / ?P |- _ =>
          assert (P * q0 <= B * Z.pos mc < P * q0 + P) as Hq
            by (unfold q0; Z.div_mod_to_equations; lia)
      end;
      clearbody q d B;
      unfold scaled;
      match goal with
      | |- context [0 <=? ?jj] =>
          let b := eval vm_compute in (0 <=? jj) in change (0 <=? jj) with b
      end;
      cbv iota;
      match goal with
      | |- context [- ?jj] =>
          let v := eval vm_compute in (- jj) in change (- jj) with v
      | |- context [2 ^ ?jj] =>
          let v := eval vm_compute in jj in change jj with v
      end;
      eval_closed_pows;
      rewrite ?Z.div_div by lia;
      (apply div_between; [lia |]); lia
  end.

Lemma int_part_001 (n : Z) :
  1 <= n < 2 ^ 50 -> Py.int (Py.of_Z n * 0.01)%float = Ok (1 * n / 100).
Proof. intros Hn. integer_part 5764607523034235%positive (-59) 1 100. Qed.

Lemma int_part_050 (n : Z) :
  1 <= n < 2 ^ 50 -> Py.int (Py.of_Z n * 0.5)%float = Ok (1 * n / 2).
Proof. intros Hn. integer_part 4503599627370496%positive (-53) 1 2. Qed.

Lemma int_part_075 (n : Z) :
  1 <= n < 2 ^ 50 -> Py.int (Py.of_Z n * 0.75)%float = Ok (3 * n / 4).
Proof. intros Hn. integer_part 6755399441055744%positive (-53) 3 4. Qed.

Lemma int_part_020 (n : Z) :
  1 <= n < 2 ^ 50 -> Py.int (Py.of_Z n * 0.2)%float = Ok (1 * n / 5).
Proof. intros Hn. integer_part 7205759403792794%positive (-55) 1 5. Qed.

(* ===================================================================== *)
(** ** Forward fill and interval volumes *)
(* ===================================================================== *)

Lemma map_lookup {A B} (f : A -> B) (l : list A) (i : nat) (x : A) :
  l !! i = Some x -> map f l !! i = Some (f x).
Proof.
  revert i. induction l as [| y l IH]; intros [| i] H; cbn in *; try done.
  - by inversion H.
  - by apply IH.
Qed.

Lemma ffill_rows_raw (c : Column) (f : RawRow -> float) (last : RawRow)
    (l : list RawRow) :
  raw_of c = Some f ->
  map f (ffill_rows last l) = Py.ffill_from (f last) (map f l).
Proof.
  intros Hc. revert last. induction l as [| r l IH]; intros last; cbn; [done |].
  rewrite IH. by destruct c; inversion Hc; subst f.
Qed.

Lemma derive_rows_raw (c : Column) (f : RawRow -> float) (prev : option RawRow)
    (l : list RawRow) :
  raw_of c = Some f -> column c (derive_rows prev l) = map f l.
Proof.
  intros Hc. revert prev. induction l as [| r l IH]; intros prev; cbn; [done |].
  f_equal; [| apply IH]. by destruct c; inversion Hc; subst f.
Qed.

Lemma raw_of_no_row (c : Column) (f : RawRow -> float) :
  raw_of c = Some f -> f no_row = nan.
Proof. by destruct c; intros [= <-]. Qed.

Lemma ffill_from_length (last : float) (col : list float) :
  length (Py.ffill_from last col) = length col.
Proof.
  revert last. induction col as [| x col IH]; intros last; cbn; [done |].
  by rewrite IH.
Qed.

(** A value that is present stays; one that is missing is the one before. *)
Lemma ffill_from_present (last : float) (col : list float) (i : nat) (x : float) :
  col !! i = Some x -> PrimFloat.is_nan x = false ->
  Py.ffill_from last col !! i = Some x.
Proof.
  revert last i. induction col as [| y col IH]; intros last [| i] Hi Hx;
    cbn in *; try done.
  - inversion Hi; subst y. by rewrite Hx.
  - by apply IH.
Qed.

Lemma ffill_from_missing (last : float) (col : list float) (i : nat) (x y : float) :
  col !! S i = Some x -> PrimFloat.is_nan x = true ->
  Py.ffill_from last col !! i = Some y ->
  Py.ffill_from last col !! S i = Some y.
Proof.
  revert last i. induction col as [| z col IH]; intros last [| i] Hi Hx Hy;
    cbn in *; try done.
  - destruct col as [| w col]; [done |]. cbn in *.
    inversion Hi; subst w. rewrite Hx. exact Hy.
  - by apply (IH _ i).
Qed.

Lemma ffill_from_filled (last : float) (col : list float) :
  PrimFloat.is_nan last = false ->
  Forall (fun y => PrimFloat.is_nan y = false) (Py.ffill_from last col).
Proof.
  revert last. induction col as [| x col IH]; intros last Hl; cbn; [constructor |].
  destruct (PrimFloat.is_nan x) eqn:E; (constructor; [done | by apply IH]).
Qed.

Lemma ffill_from_persists (last : float) (col : list float) (i j : nat) (x : float) :
  (i <= j < length col)%nat ->
  Py.ffill_from last col !! i = Some x -> PrimFloat.is_nan x = false ->
  exists y, Py.ffill_from last col !! j = Some y /\ PrimFloat.is_nan y = false.
Proof.
  revert last i j. induction col as [| z col IH]; intros last i j Hij Hi Hx;
    cbn in *; [lia |].
  destruct j as [| j].
  - assert (i = 0)%nat as -> by lia. eauto.
  - destruct i as [| i]; cbn in *.
    + inversion Hi as [Hz]. rewrite Hz.
      pose proof (ffill_from_filled x col Hx) as Hall.
      destruct (lookup_lt_is_Some_2 (Py.ffill_from x col) j) as [y Hy];
        [rewrite ffill_from_length; lia |].
      exists y. split; [exact Hy |].
      rewrite Forall_forall in Hall. apply Hall.
      by apply list_elem_of_lookup_2 in Hy.
    + apply (IH _ i j); [lia | done | done].
Qed.

(** X13. Forward fill.  Each of the six columns that come from the
    service's buy, sell, buyVolume, sellVolume, buyMovingWeek and
    sellMovingWeek is that field in time order, filled forward: a row
    whose field is present keeps it, a row whose field is missing takes
    the value of the row before it, and once a row has a value every
    later row has one. *)
Theorem filled_columns_carry_values_forward
    (df : RawHistory) (d : list DerivedRow) (c : Column) (f : RawRow -> float) :
  transformed_past_hour df = Ok d ->
  raw_of c = Some f ->
  let sorted := Py.sort_values by_timestamp (rows df) in
  column c d = Py.ffill (map f sorted) /\
  (forall i r, sorted !! i = Some r -> PrimFloat.is_nan (f r) = false ->
     column c d !! i = Some (f r)) /\
  (forall i r y, sorted !! S i = Some r -> PrimFloat.is_nan (f r) = true ->
     column c d !! i = Some y -> column c d !! S i = Some y) /\
  (forall i j x, (i <= j < length d)%nat ->
     column c d !! i = Some x -> PrimFloat.is_nan x = false ->
     exists y, column c d !! j = Some y /\ PrimFloat.is_nan y = false).
Proof.
  intros H Hc sorted. apply transformed_past_hour_Ok in H. subst d. fold sorted.
  assert (column c (derive_rows None (ffill_rows no_row sorted))
          = Py.ffill (map f sorted)) as Hcol.
  { rewrite (derive_rows_raw c f) by done.
    rewrite (ffill_rows_raw c f) by done.
    by rewrite (raw_of_no_row c f). }
  rewrite derive_rows_length, ffill_rows_length, Hcol. unfold Py.ffill.
  split; [done |]. split; [| split].
  - intros i r Hi Hx. apply ffill_from_present; [| done].
    by apply map_lookup.
  - intros i r y Hi Hx Hy. apply (ffill_from_missing _ _ _ (f r)); [| done | done].
    by apply map_lookup.
  - intros i j x Hij. apply ffill_from_persists. by rewrite length_map.
Qed.

(** X13 at work: the middle row of the shuffled history has no prices. *)
Lemma filled_columns_carry_values_forward_witness :
  exists d,
    transformed_past_hour shuffled_history = Ok d /\
    column col_sell_order_price d = [1800; 1800; 1810]%float.
Proof.
  eexists. split; [reflexivity |].
  etransitivity;
    [ apply (filled_columns_carry_values_forward shuffled_history _
               col_sell_order_price r_buy eq_refl eq_refl) |].
  reflexivity.
Defined.

Lemma derive_rows_head_volumes (l : list RawRow) (r : DerivedRow) :
  head (derive_rows None l) = Some r ->
  PrimFloat.is_nan (insta_buy_volume r) = true /\
  PrimFloat.is_nan (insta_sell_volume r) = true.
Proof. destruct l as [| x l]; cbn; [done |]. by intros [= <-]. Qed.

Lemma derive_rows_next_volumes (prev : option RawRow) (l : list RawRow) (i : nat)
    (a b : DerivedRow) :
  derive_rows prev l !! i = Some a -> derive_rows prev l !! S i = Some b ->
  insta_buy_volume b =
    PrimFloat.abs (insta_buy_volume_week b - insta_buy_volume_week a) /\
  insta_sell_volume b =
    PrimFloat.abs (insta_sell_volume_week b - insta_sell_volume_week a).
Proof.
  revert prev i. induction l as [| x l IH]; intros prev i Ha Hb; [done |].
  destruct i as [| i]; cbn in Ha, Hb.
  - destruct l as [| y l]; [done |]. cbn in Hb.
    inversion Ha; inversion Hb; subst a b. done.
  - by apply (IH (Some x) i).
Qed.

Lemma derive_rows_volume_signs (prev : option RawRow) (l : list RawRow) :
  Forall (fun r => nan_or_not_negative (insta_buy_volume r) = true /\
                   nan_or_not_negative (insta_sell_volume r) = true)
         (derive_rows prev l).
Proof.
  revert prev. induction l as [| x l IH]; intros prev; cbn; [constructor |].
  constructor; [| apply IH]. cbn.
  destruct prev; [split; apply abs_nan_or_not_negative | done].
Qed.

(** X14. Interval volumes.  The first row of the derived history has no
    interval volume (NaN); in every later row each interval volume is the
    absolute value of the change of the weekly volume since the row
    before; no interval volume is negative. *)
Theorem interval_volumes_are_absolute_changes (df : RawHistory) (d : list DerivedRow) :
  transformed_past_hour df = Ok d ->
  (forall r, head d = Some r ->
     PrimFloat.is_nan (insta_buy_volume r) = true /\
     PrimFloat.is_nan (insta_sell_volume r) = true) /\
  (forall i a b, d !! i = Some a -> d !! S i = Some b ->
     insta_buy_volume b =
       PrimFloat.abs (insta_buy_volume_week b - insta_buy_volume_week a) /\
     insta_sell_volume b =
       PrimFloat.abs (insta_sell_volume_week b - insta_sell_volume_week a)) /\
  Forall (fun r => nan_or_not_negative (insta_buy_volume r) = true /\
                   nan_or_not_negative (insta_sell_volume r) = true) d.
Proof.
  intros H. apply transformed_past_hour_Ok in H. subst d.
  split; [apply derive_rows_head_volumes |].
  split; [apply derive_rows_next_volumes | apply derive_rows_volume_signs].
Qed.

(** X14 at work: the weekly volumes of the shuffled history go from 5000
    to 5030 and from 6000 to 6010 between the first and the last row. *)
Lemma interval_volumes_are_absolute_changes_witness :
  exists d,
    transformed_past_hour shuffled_history = Ok d /\
    Forall (fun r => nan_or_not_negative (insta_buy_volume r) = true /\
                     nan_or_not_negative (insta_sell_volume r) = true) d /\
    column col_insta_buy_volume d = [nan; 0; 30]%float.
Proof.
  eexists. split; [reflexivity |]. split; [| reflexivity].
  apply (interval_volumes_are_absolute_changes shuffled_history). reflexivity.
Defined.

(* ===================================================================== *)
(** ** The latest snapshot *)
(* ===================================================================== *)

Lemma iloc_last_row {A} (l : list A) :
  Py.iloc l (-1) = match last l with Some x => Ok x | None => Raise IndexError end.
Proof.
  unfold Py.iloc. change (-1 <? 0) with true. cbv iota.
  destruct l as [| x l] using rev_ind; [done |].
  rewrite last_snoc, length_app. cbn [length].
  destruct (0 <=? -1 + Z.of_nat (length l + 1)) eqn:E0; [| apply Z.leb_gt in E0; lia].
  destruct (-1 + Z.of_nat (length l + 1) <? Z.of_nat (length l + 1)) eqn:E1;
    [| apply Z.ltb_ge in E1; lia].
  cbn [andb].
  replace (Z.to_nat (-1 + Z.of_nat (length l + 1))) with (length l) by lia.
  by rewrite list_lookup_middle.
Qed.

Lemma last_map {A B} (f : A -> B) (l : list A) : last (map f l) = f <$> last l.
Proof.
  destruct l as [| x l] using rev_ind; [done |].
  rewrite map_app. cbn [map]. by rewrite !last_snoc.
Qed.

Lemma init_past_hour (item_id : string) (h : RawHistory) (buy sell : list OrderRow)
    (self : Recommender) :
  Recommender_.__init__ item_id h buy sell = Ok self ->
  transformed_past_hour h = Ok (Recommender_.past_hour self) /\
  _buy_ob self = transformed_order_book buy /\
  _sell_ob self = transformed_order_book sell /\
  Recommender_.item_id self = item_id.
Proof.
  unfold Recommender_.__init__.
  destruct (transformed_past_hour h) as [ph | e]; [| discriminate].
  by intros [= <-].
Qed.

(** X15. The latest snapshot.  For a recommender constructed from a
    history with at least one row, the accessors [timestamp], [margin],
    [buy_order_price], [sell_order_price], [buy_order_volume] and
    [sell_order_volume] return the fields of one row of the derived
    history, the last one; its timestamp is the greatest timestamp of the
    frame, whatever the order of the frame's rows, and the margin returned
    is (sell_order_price - buy_order_price) * (1 - 0.01125) of the prices
    returned. *)
Theorem latest_snapshot_is_the_most_recent
    (item_id : string) (h : RawHistory) (buy sell : list OrderRow)
    (self : Recommender) :
  Recommender_.__init__ item_id h buy sell = Ok self ->
  rows h <> [] ->
  exists row,
    last (Recommender_.past_hour self) = Some row /\
    Recommender_.timestamp self = Ok (timestamp row) /\
    Recommender_.margin self = Ok (margin row) /\
    Recommender_.buy_order_price self = Ok (buy_order_price row) /\
    Recommender_.sell_order_price self = Ok (sell_order_price row) /\
    Recommender_.buy_order_volume self = Ok (buy_order_volume row) /\
    Recommender_.sell_order_volume self = Ok (sell_order_volume row) /\
    margin row = ((sell_order_price row - buy_order_price row) * (1 - 0.01125))%float /\
    Forall (fun r => r_timestamp r <= timestamp row) (rows h) /\
    timestamp row ∈ map r_timestamp (rows h).
Proof.
  intros Hinit Hrows. apply init_past_hour in Hinit as (Hph & _).
  set (d := Recommender_.past_hour self) in *.
  pose proof (transformed_past_hour_Ok _ _ Hph) as Hd.
  assert (length d = length (rows h)) as Hlen
    by (rewrite Hd; by rewrite derive_rows_length, ffill_rows_length, sort_values_length).
  destruct (last d) as [row |] eqn:Hlast.
  2:{ apply last_None in Hlast. rewrite Hlast in Hlen.
      destruct (rows h); [done | discriminate]. }
  exists row. split; [done |].
  unfold Recommender_.timestamp, Recommender_.margin, Recommender_.buy_order_price,
    Recommender_.sell_order_price, Recommender_.buy_order_volume,
    Recommender_.sell_order_volume, column.
  fold d. rewrite !iloc_last_row, !last_map, Hlast. cbn [fmap option_fmap option_map].
  do 6 (split; [done |]).
  assert (map timestamp d ≡ₚ map r_timestamp (rows h)) as Hperm.
  { rewrite Hd, derive_rows_timestamp, ffill_rows_timestamp.
    by rewrite sort_values_perm. }
  assert (last (map timestamp d) = Some (timestamp row)) as Hlt
    by (by rewrite last_map, Hlast).
  split; [| split].
  - pose proof (derive_rows_margin None
                  (ffill_rows no_row (Py.sort_values by_timestamp (rows h)))) as Hm.
    rewrite <- Hd in Hm. rewrite Forall_forall in Hm. apply Hm.
    by apply last_Some_elem_of.
  - assert (chained Z.leb (map timestamp d) = true) as Hs.
    { rewrite Hd, derive_rows_timestamp, ffill_rows_timestamp.
      apply sorted_timestamps. }
    pose proof (chained_last _ _ Hs Hlt) as Hall.
    rewrite Forall_forall in Hall. apply Forall_forall. intros r Hr.
    apply (Hall (r_timestamp r)). rewrite Hperm.
    by apply list_elem_of_In, in_map, list_elem_of_In.
  - rewrite <- Hperm. by apply last_Some_elem_of.
Qed.

(** X15 at work: the shuffled history's latest row is the one stamped 40. *)
Lemma latest_snapshot_is_the_most_recent_witness :
  exists self row,
    Recommender_.__init__ "ITEM" shuffled_history [] [] = Ok self /\
    last (Recommender_.past_hour self) = Some row /\
    Recommender_.timestamp self = Ok (timestamp row) /\
    Forall (fun r => r_timestamp r <= timestamp row) (rows shuffled_history).
Proof.
  eexists.
  destruct (latest_snapshot_is_the_most_recent "ITEM" shuffled_history [] [] _ eq_refl)
    as (row & H1 & H2 & _ & _ & _ & _ & _ & _ & H3 & _); [discriminate |].
  exists row. split; [reflexivity |]. split; [exact H1 |]. split; [exact H2 | exact H3].
Defined.

(** X16. A history without rows.  From a frame that has the seven columns
    and no row the constructor returns a recommender (so the item is
    cached); on it the six latest-snapshot accessors and
    [profit_half_life] raise an [IndexError], the two hourly volumes and
    [profit_per_hour] are NaN, and [minutes_per_flip] is infinite. *)
Theorem history_without_rows
    (item_id : string) (h : RawHistory) (buy sell : list OrderRow) :
  rows h = [] ->
  Forall (fun c => c ∈ columns h) history_columns ->
  exists self,
    Recommender_.__init__ item_id h buy sell = Ok self /\
    Recommender_.past_hour self = [] /\
    Recommender_.timestamp self = Raise IndexError /\
    Recommender_.margin self = Raise IndexError /\
    Recommender_.buy_order_price self = Raise IndexError /\
    Recommender_.sell_order_price self = Raise IndexError /\
    Recommender_.buy_order_volume self = Raise IndexError /\
    Recommender_.sell_order_volume self = Raise IndexError /\
    Recommender_.profit_half_life self = Raise IndexError /\
    PrimFloat.is_nan (Recommender_.insta_buy_volume self) = true /\
    PrimFloat.is_nan (Recommender_.insta_sell_volume self) = true /\
    PrimFloat.is_nan (Recommender_.profit_per_hour self) = true /\
    Recommender_.minutes_per_flip self = infinity.
Proof.
  intros Hrows Hcols. unfold Recommender_.__init__, transformed_past_hour.
  unfold history_columns in Hcols. apply Forall_cons in Hcols as [Ht Hf].
  assert (require_columns (columns h) ["timestamp"%string] = Ok tt) as ->
    by (apply require_columns_Ok; by constructor).
  assert (require_columns (columns h) fill_cols = Ok tt) as ->
    by (by apply require_columns_Ok).
  rewrite Hrows. cbn [mbind result_bind].
  eexists. split; [reflexivity |]. repeat split; reflexivity.
Qed.

(** X16 at work: the steady history's columns with no row. *)
Lemma history_without_rows_witness :
  exists self,
    Recommender_.__init__ "ITEM" (flat_history 0 1800 1000 5000) [] [] = Ok self /\
    Recommender_.profit_half_life self = Raise IndexError.
Proof.
  destruct (history_without_rows "ITEM" (flat_history 0 1800 1000 5000) [] [])
    as (self & H & _ & _ & _ & _ & _ & _ & _ & H' & _); [reflexivity | |].
  - unfold flat_history, history_columns. cbn [columns].
    apply Forall_forall. by intros c Hc.
  - exists self. split; [exact H | exact H'].
Defined.

(* ===================================================================== *)
(** ** Signs of the scores *)
(* ===================================================================== *)

Lemma SF_signed_false_not_negative (x : float) :
  SF_signed false (Prim2SF x) -> not_negative x = true.
Proof. intros H. by apply not_negative_SF, SF_signed_not_negative. Qed.

Lemma dropna_not_negative (col : list float) :
  Forall (fun x => nan_or_not_negative x = true) col ->
  Forall (fun x => not_negative x = true) (Py.dropna col).
Proof.
  unfold Py.dropna, nan_or_not_negative.
  induction 1 as [| x col Hx _ IH]; cbn; [constructor |].
  destruct (PrimFloat.is_nan x); cbn in *; [exact IH | by constructor].
Qed.

(** A sum of floats that are at least zero has its sign bit clear. *)
Lemma fsum_signed (col : list float) :
  Forall (fun x => not_negative x = true) col ->
  SF_signed false (Prim2SF (Py.fsum col)).
Proof.
  unfold Py.fsum.
  assert (SF_signed false (Prim2SF 0)) as Hacc by constructor.
  revert Hacc. generalize 0%float as acc.
  induction col as [| x col IH]; intros acc Hacc Hall; cbn; [exact Hacc |].
  inversion Hall as [| ? ? Hx Hcol]; subst.
  apply IH; [| exact Hcol]. rewrite add_spec.
  apply SFadd_signed; [exact Hacc | by apply not_negative_SF].
Qed.

Lemma sum_signed (col : list float) :
  Forall (fun x => nan_or_not_negative x = true) col ->
  SF_signed false (Prim2SF (Py.sum col)).
Proof. intros H. by apply fsum_signed, dropna_not_negative. Qed.

Lemma eqb_zero_SF (x : float) :
  PrimFloat.eqb x 0 = false -> forall s, Prim2SF x <> S754_zero s.
Proof.
  rewrite eqb_spec. intros H s Hx. rewrite Hx in H. by destruct s.
Qed.

Lemma wait_mins_signed (x : float) :
  SF_signed false (Prim2SF x) ->
  SF_signed false (Prim2SF (Recommender_.wait_mins x)).
Proof.
  intros Hx. unfold Recommender_.wait_mins, Py.neb.
  destruct (PrimFloat.eqb x 0) eqn:E; cbn [negb]; [constructor |].
  rewrite div_spec. apply SFdiv_signed; [exact Hx | by apply eqb_zero_SF].
Qed.

(** X17. [minutes_per_flip] is at least zero.  For every recommender the
    constructor returns, [minutes_per_flip] is not negative and not NaN
    (it may be infinite): the interval volumes it sums are absolute
    values, a sum that is zero gives an infinite wait and one that is not
    divides 60. *)
Theorem minutes_per_flip_is_not_negative
    (item_id : string) (h : RawHistory) (buy sell : list OrderRow)
    (self : Recommender) :
  Recommender_.__init__ item_id h buy sell = Ok self ->
  not_negative (Recommender_.minutes_per_flip self) = true /\
  PrimFloat.is_nan (Recommender_.minutes_per_flip self) = false.
Proof.
  intros Hinit. apply init_past_hour in Hinit as (Hph & _).
  apply transformed_past_hour_Ok in Hph.
  pose proof (derive_rows_volume_signs None
                (ffill_rows no_row (Py.sort_values by_timestamp (rows h)))) as Hv.
  rewrite <- Hph in Hv.
  assert (SF_signed false (Prim2SF (Recommender_.minutes_per_flip self))) as Hs.
  { unfold Recommender_.minutes_per_flip. rewrite add_spec.
    apply SFadd_signed; [| apply SF_signed_not_negative];
      apply wait_mins_signed, sum_signed; unfold column; apply Forall_map;
      (eapply Forall_impl; [exact Hv |]); by intros r [H1 H2]. }
  split; [by apply SF_signed_false_not_negative |].
  rewrite is_nan_SF. by destruct Hs.
Qed.

(** X17 at work: the shuffled history. *)
Lemma minutes_per_flip_is_not_negative_witness :
  exists self,
    Recommender_.__init__ "ITEM" shuffled_history [] [] = Ok self /\
    not_negative (Recommender_.minutes_per_flip self) = true.
Proof.
  eexists. split; [reflexivity |].
  apply (minutes_per_flip_is_not_negative "ITEM" shuffled_history [] []).
  reflexivity.
Defined.

Lemma ltb_leb (x y : float) : (x <? y)%float = true -> (x <=? y)%float = true.
Proof.
  rewrite ltb_spec, leb_spec. unfold SFltb, SFleb.
  by destruct (SFcompare _ _) as [[] |].
Qed.

Lemma eqb_zero_leb (x : float) : PrimFloat.eqb x 0 = true -> (0 <=? x)%float = true.
Proof. intros H. by apply eqb_zero_cases in H as [-> | ->]. Qed.

(** X18. [profit_half_life] is at least zero.  Whenever it returns, the
    result is not negative and not NaN; it raises only what
    [weighted_rate_of_change] raises: the division of -0.5 by the rate is
    reached only when the rate is not at least zero, so it never divides
    by zero. *)
Theorem profit_half_life_is_not_negative (self : Recommender) :
  match Recommender_.profit_half_life self with
  | Ok x => not_negative x = true /\ PrimFloat.is_nan x = false
  | Raise e =>
      weighted_rate_of_change (Recommender_.past_hour self) col_margin
        positions_pct_default weights_default recent_window_default = Raise e
  end.
Proof.
  unfold Recommender_.profit_half_life.
  destruct (weighted_rate_of_change _ _ _ _ _) as [rate | e];
    cbn [mbind result_bind]; [| done].
  destruct (0 <=? rate)%float eqn:E; [done |].
  unfold Recommender_.truediv.
  destruct (PrimFloat.eqb rate 0) eqn:Ez.
  { apply eqb_zero_leb in Ez. congruence. }
  cbn [mbind result_bind]. unfold Py.max.
  destruct (0 <? -0.5 / rate)%float eqn:El; [| done].
  assert (not_negative (-0.5 / rate) = true) as Hn by (by apply ltb_leb).
  split; [exact Hn |].
  apply not_negative_SF in Hn. rewrite is_nan_SF. by destruct Hn.
Qed.

(* ===================================================================== *)
(** ** The order books in price order *)
(* ===================================================================== *)

Lemma SFcompare_antisym (a b : spec_float) (c : comparison) :
  SFcompare a b = Some c -> SFcompare b a = Some (CompOpp c).
Proof.
  destruct a as [sa | sa | | sa ma ea], b as [sb | sb | | sb mb eb]; cbn;
    try discriminate; try (destruct sa); try (destruct sb);
    try (intros [= <-]; reflexivity).
  - intros [= <-]. f_equal. rewrite (Z.compare_antisym ea eb).
    change (Pos.compare_cont Eq mb ma) with (mb ?= ma)%positive.
    change (Pos.compare_cont Eq ma mb) with (ma ?= mb)%positive.
    rewrite (Pos.compare_antisym ma mb).
    by destruct (ea ?= eb), (ma ?= mb)%positive.
  - intros [= <-]. f_equal. rewrite (Z.compare_antisym ea eb).
    change (Pos.compare_cont Eq mb ma) with (mb ?= ma)%positive.
    change (Pos.compare_cont Eq ma mb) with (ma ?= mb)%positive.
    rewrite (Pos.compare_antisym ma mb).
    by destruct (ea ?= eb), (ma ?= mb)%positive.
Qed.

Lemma leb_total (a b : float) :
  PrimFloat.is_nan a = false -> PrimFloat.is_nan b = false ->
  (a <=? b)%float = false -> (b <=? a)%float = true.
Proof.
  rewrite !is_nan_SF, !leb_spec. unfold SFleb. intros Ha Hb.
  destruct (SFcompare (Prim2SF a) (Prim2SF b)) as [c |] eqn:E.
  - rewrite (SFcompare_antisym _ _ _ E). by destruct c.
  - by destruct (Prim2SF a) as [[] | [] | | [] ? ?],
                (Prim2SF b) as [[] | [] | | [] ? ?].
Qed.

Lemma float_le_total (ascending : bool) (a b : float) :
  Py.float_le ascending a b = false -> Py.float_le ascending b a = true.
Proof.
  unfold Py.float_le.
  destruct (PrimFloat.is_nan b) eqn:Hb; [done |].
  destruct (PrimFloat.is_nan a) eqn:Ha; [done |].
  destruct ascending; by apply leb_total.
Qed.

Lemma nan_propagates_sub (x y : float) :
  PrimFloat.is_nan x = true \/ PrimFloat.is_nan y = true ->
  PrimFloat.is_nan (x - y) = true.
Proof.
  rewrite !is_nan_SF, sub_spec.
  destruct (Prim2SF x) as [[] | [] | | [] ? ?], (Prim2SF y) as [[] | [] | | [] ? ?];
    cbn; intros [H | H]; done.
Qed.

(** The amount by which a price out-bids the one below it. *)
Lemma float_le_sub (a b : float) :
  Py.float_le true a b = true -> nan_or_not_negative (b - a) = true.
Proof.
  unfold Py.float_le.
  destruct (PrimFloat.is_nan b) eqn:Hb.
  - intros _. unfold nan_or_not_negative.
    rewrite nan_propagates_sub; [done | by left].
  - destruct (PrimFloat.is_nan a); [done |]. apply sub_of_le.
Qed.

Lemma zip_out_bid_rows (l : list OrderRow) (ds : list float) :
  length ds = length l ->
  map ob_row (zip_with (fun r d => {| ob_row := r; out_bid_price := d |}) l ds) = l.
Proof.
  revert ds. induction l as [| r l IH]; intros [| d ds] H; cbn in *; try done.
  f_equal. apply IH. lia.
Qed.

Lemma with_out_bid_rows (l : list OrderRow) : map ob_row (with_out_bid l) = l.
Proof.
  unfold with_out_bid. apply zip_out_bid_rows.
  by rewrite diff_length, length_map.
Qed.

Lemma diff_from_next (prev : float) (col : list float) (i : nat) (x y : float) :
  col !! i = Some x -> col !! S i = Some y ->
  Py.diff_from prev col !! S i = Some (y - x)%float.
Proof.
  revert prev i. induction col as [| z col IH]; intros prev [| i] Hx Hy;
    cbn in *; try done.
  - inversion Hx; subst z. destruct col as [| w col]; [done |]. cbn in *.
    by inversion Hy.
  - by apply IH.
Qed.

Lemma diff_next (col : list float) (i : nat) (x y : float) :
  col !! i = Some x -> col !! S i = Some y ->
  Py.diff col !! S i = Some (y - x)%float.
Proof.
  destruct col as [| z col]; [done |]. intros Hx Hy. cbn [Py.diff].
  destruct i as [| i]; cbn in *.
  - inversion Hx; subst z. destruct col as [| w col]; [done |]. cbn in *.
    by inversion Hy.
  - by apply diff_from_next.
Qed.

Lemma diff_from_signs (prev : float) (col : list float) :
  chained (Py.float_le true) (prev :: col) = true ->
  Forall (fun d => nan_or_not_negative d = true) (Py.diff_from prev col).
Proof.
  revert prev. induction col as [| x col IH]; intros prev H; cbn; [constructor |].
  rewrite chained_cons in H. apply andb_true_iff in H as [H1 H2].
  constructor; [by apply float_le_sub | by apply IH].
Qed.

Lemma diff_signs (col : list float) :
  chained (Py.float_le true) col = true ->
  Forall (fun d => nan_or_not_negative d = true) (Py.diff col).
Proof.
  destruct col as [| x col]; cbn [Py.diff]; [constructor |]. intros H.
  constructor; [done | by apply diff_from_signs].
Qed.

Lemma map_lookup_Some {A B} (f : A -> B) (l : list A) (i : nat) (y : B) :
  map f l !! i = Some y -> exists x, l !! i = Some x /\ y = f x.
Proof.
  revert i. induction l as [| z l IH]; intros [| i] H; cbn in *; try done.
  - inversion H. eauto.
  - by apply IH.
Qed.

Lemma sorted_prices (book : list OrderRow) :
  chained (Py.float_le true)
          (map pricePerUnit (Py.sort_values (by_price true) book)) = true.
Proof.
  rewrite chained_map. apply sort_values_chained.
  intros a b. apply float_le_total.
Qed.

Lemma out_bid_signs (book : list OrderRow) :
  Forall (fun d => nan_or_not_negative d = true)
         (map out_bid_price (transformed_order_book book)).
Proof.
  rewrite transformed_order_book_sorted, with_out_bid_deltas.
  apply diff_signs, sorted_prices.
Qed.

(** X19. An order book after the transformation.  The rows are those of
    the input, in ascending order of price (a row without a price last);
    the first row has no out-bid amount (NaN); the out-bid amount of every
    other row is its price minus the price of the row before it; no
    out-bid amount is negative. *)
Theorem order_book_in_price_order (book : list OrderRow) :
  let rows := transformed_order_book book in
  map ob_row rows ≡ₚ book /\
  chained (by_price true) (map ob_row rows) = true /\
  (forall r, head rows = Some r -> PrimFloat.is_nan (out_bid_price r) = true) /\
  (forall i a b, rows !! i = Some a -> rows !! S i = Some b ->
     out_bid_price b = (pricePerUnit (ob_row b) - pricePerUnit (ob_row a))%float) /\
  Forall (fun r => nan_or_not_negative (out_bid_price r) = true) rows.
Proof.
  intros rows. subst rows. rewrite transformed_order_book_sorted.
  set (sorted := Py.sort_values (by_price true) book).
  split; [| split; [| split; [| split]]].
  - rewrite with_out_bid_rows. apply sort_values_perm.
  - rewrite with_out_bid_rows. apply sort_values_chained.
    intros a b. apply float_le_total.
  - intros r Hr.
    assert (head (map out_bid_price (with_out_bid sorted)) = Some (out_bid_price r))
      as H by (destruct (with_out_bid sorted); [done | by inversion Hr]).
    rewrite with_out_bid_deltas in H.
    destruct (map pricePerUnit sorted); [done |]. cbn in H. by inversion H.
  - intros i a b Ha Hb.
    assert (map ob_row (with_out_bid sorted) !! i = Some (ob_row a)) as Ra
      by (by apply map_lookup).
    assert (map ob_row (with_out_bid sorted) !! S i = Some (ob_row b)) as Rb
      by (by apply map_lookup).
    rewrite with_out_bid_rows in Ra, Rb.
    pose proof (diff_next (map pricePerUnit sorted) i _ _
                  (map_lookup pricePerUnit _ _ _ Ra)
                  (map_lookup pricePerUnit _ _ _ Rb)) as Hd.
    rewrite <- with_out_bid_deltas in Hd.
    rewrite (map_lookup out_bid_price _ _ _ Hb) in Hd. by inversion Hd.
  - pose proof (out_bid_signs book) as H.
    rewrite transformed_order_book_sorted in H. fold sorted in H.
    by apply Forall_map in H.
Qed.

(* ===================================================================== *)
(** ** Competitiveness: its sign, and sides of one order or none *)
(* ===================================================================== *)

Lemma of_Z_signed (n : Z) :
  0 <= n < 2 ^ 53 -> SF_signed false (Prim2SF (Py.of_Z n)).
Proof.
  intros Hn. destruct (Z.eq_dec n 0) as [-> | Hne]; [constructor |].
  destruct (of_Z_exact n) as (m & t & -> & _); [lia | constructor].
Qed.

Lemma nlargest_not_negative (n : Z) (col : list float) :
  Forall (fun x => nan_or_not_negative x = true) col ->
  Forall (fun x => not_negative x = true) (Py.nlargest n col) /\
  (length (Py.nlargest n col) <= length col)%nat.
Proof.
  intros H. unfold Py.nlargest. destruct (n <=? 0); [split; [constructor | cbn; lia] |].
  split.
  - apply Forall_take. rewrite sort_values_perm. by apply dropna_not_negative.
  - rewrite length_take, sort_values_length. unfold Py.dropna.
    pose proof (sublist_length _ _
                  (filter_sublist (fun x => negb (PrimFloat.is_nan x)) col)). lia.
Qed.

Lemma dropna_id (col : list float) :
  Forall (fun x => not_negative x = true) col -> Py.dropna col = col.
Proof.
  unfold Py.dropna. induction 1 as [| x col Hx _ IH]; cbn; [done |].
  apply not_negative_SF in Hx.
  assert (PrimFloat.is_nan x = false) as -> by (rewrite is_nan_SF; by destruct Hx).
  cbn. by rewrite IH.
Qed.

Lemma mean_not_negative (col : list float) :
  Forall (fun x => not_negative x = true) col ->
  Z.of_nat (length col) < 2 ^ 53 ->
  nan_or_not_negative (Py.mean col) = true.
Proof.
  intros H Hlen. unfold Py.mean. rewrite (dropna_id _ H).
  destruct col as [| x col]; [done |].
  apply div_not_negative.
  - by apply SF_signed_false_not_negative, fsum_signed.
  - apply of_Z_signed. lia.
Qed.

Lemma reordered_out_bid_signs (ascending : bool) (book : list OrderRow) :
  Forall (fun x => nan_or_not_negative x = true)
         (map out_bid_price
              (Py.sort_values (by_row_price ascending)
                 (with_out_bid (Py.sort_values (by_price true) book)))).
Proof.
  pose proof (out_bid_signs book) as H.
  rewrite transformed_order_book_sorted in H.
  apply Forall_map in H. apply Forall_map. by rewrite sort_values_perm.
Qed.

Lemma side_factor_not_negative (ascending : bool) (book : list OrderRow) (v : float) :
  Z.of_nat (length book) < 2 ^ 53 ->
  side_factor_ascending_deltas ascending book = Ok v ->
  nan_or_not_negative v = true.
Proof.
  intros Hlen. unfold side_factor_ascending_deltas.
  pose proof (reordered_out_bid_signs ascending book) as Hcol.
  set (col := map out_bid_price _) in *.
  assert (length col = length book) as Hl.
  { unfold col.
    by rewrite length_map, sort_values_length, with_out_bid_length, sort_values_length. }
  destruct book as [| r book]; [by intros [= <-] |].
  destruct (top_count _) as [top | e]; cbn [mbind result_bind]; [| discriminate].
  intros [= <-].
  destruct (nlargest_not_negative top col Hcol) as [Hn Hnl].
  apply div_nan_or_not_negative; [| vm_compute; constructor].
  apply mean_not_negative; [exact Hn | lia].
Qed.

Lemma competitiveness_of_books (item_id : string) (h : RawHistory)
    (buy sell : list OrderRow) (self : Recommender) :
  Recommender_.__init__ item_id h buy sell = Ok self ->
  Recommender_.competitiveness self = competitiveness_ascending_deltas buy sell.
Proof.
  intros Hinit. apply init_past_hour in Hinit as (_ & Hb & Hs & _).
  unfold Recommender_.competitiveness, competitiveness_ascending_deltas,
    Recommender_.buy_orderbook, Recommender_.sell_orderbook.
  by rewrite Hb, Hs, !side_factor_of_book.
Qed.

(** X20. Competitiveness is never negative.  For a recommender
    constructed from order books of fewer than 2^53 rows each,
    [competitiveness] returns a float that is NaN or at least zero: the
    out-bid amounts are differences of prices in ascending order. *)
Theorem competitiveness_is_not_negative
    (item_id : string) (h : RawHistory) (buy sell : list OrderRow)
    (self : Recommender) :
  Recommender_.__init__ item_id h buy sell = Ok self ->
  Z.of_nat (length buy) < 2 ^ 53 ->
  Z.of_nat (length sell) < 2 ^ 53 ->
  exists c,
    Recommender_.competitiveness self = Ok c /\ nan_or_not_negative c = true.
Proof.
  intros Hinit Hb Hs. rewrite (competitiveness_of_books _ _ _ _ _ Hinit).
  unfold competitiveness_ascending_deltas.
  destruct (side_factor_returns false buy Hb) as [bo Ebo].
  destruct (side_factor_returns true sell Hs) as [so Eso].
  rewrite Ebo, Eso. cbn [mbind result_bind]. eexists. split; [reflexivity |].
  apply div_nan_or_not_negative; [| vm_compute; constructor].
  apply add_nan_or_not_negative;
    [ apply (side_factor_not_negative false buy)
    | apply (side_factor_not_negative true sell) ]; assumption.
Qed.

(** X20 at work: buy orders at 101 and 100, sell orders at 105 and 103. *)
Lemma competitiveness_is_not_negative_witness :
  exists self c,
    Recommender_.__init__ "ITEM" steady_history
      [order 101; order 100] [order 105; order 103] = Ok self /\
    Recommender_.competitiveness self = Ok c /\ nan_or_not_negative c = true.
Proof.
  eexists.
  destruct (competitiveness_is_not_negative "ITEM" steady_history
              [order 101; order 100] [order 105; order 103] _ eq_refl)
    as (c & H1 & H2); [reflexivity | reflexivity |].
  exists c. split; [reflexivity |]. split; [exact H1 | exact H2].
Defined.

Lemma side_factor_single (ascending : bool) (o : OrderRow) :
  side_factor_ascending_deltas ascending [o] = Ok nan.
Proof. reflexivity. Qed.

(** X21. A side with a single order.  When the buy-order book or the
    sell-order book has exactly one order, that order has no out-bid
    amount, the side's factor is NaN and so is [competitiveness],
    whatever the other side holds. *)
Theorem single_order_side_gives_nan
    (item_id : string) (h : RawHistory) (buy sell : list OrderRow)
    (self : Recommender) (c : float) :
  Recommender_.__init__ item_id h buy sell = Ok self ->
  length buy = 1%nat \/ length sell = 1%nat ->
  Recommender_.competitiveness self = Ok c ->
  PrimFloat.is_nan c = true.
Proof.
  intros Hinit Hone. rewrite (competitiveness_of_books _ _ _ _ _ Hinit).
  unfold competitiveness_ascending_deltas.
  destruct Hone as [Hone | Hone].
  - destruct buy as [| o [| ? ?]]; try discriminate Hone.
    rewrite side_factor_single. cbn [mbind result_bind].
    destruct (side_factor_ascending_deltas true sell) as [so | e];
      cbn [mbind result_bind]; [| discriminate].
    intros [= <-]. apply nan_propagates_div. left.
    apply nan_propagates_add. by left.
  - destruct sell as [| o [| ? ?]]; try discriminate Hone.
    rewrite side_factor_single.
    destruct (side_factor_ascending_deltas false buy) as [bo | e];
      cbn [mbind result_bind]; [| discriminate].
    intros [= <-]. apply nan_propagates_div. left.
    apply nan_propagates_add. by right.
Qed.

(** X21 at work: one buy order, two sell orders. *)
Lemma single_order_side_gives_nan_witness :
  exists self,
    Recommender_.__init__ "ITEM" steady_history [order 100] [order 103; order 105]
      = Ok self /\
    PrimFloat.is_nan
      (match Recommender_.competitiveness self with Ok c => c | Raise _ => 0%float end)
      = true.
Proof.
  eexists. split; [reflexivity |].
  destruct (Recommender_.competitiveness _) as [c | e] eqn:E;
    [| vm_compute in E; discriminate].
  eapply (single_order_side_gives_nan "ITEM" steady_history
            [order 100] [order 103; order 105]);
    [reflexivity | by left | exact E].
Defined.

Lemma div_by_zero_not_finite (x y : float) :
  PrimFloat.eqb y 0 = true -> PrimFloat.is_finite (x / y) = false.
Proof.
  intros Hy. apply eqb_zero_cases in Hy.
  unfold PrimFloat.is_finite, PrimFloat.is_infinity.
  rewrite is_nan_SF, eqb_spec, abs_spec, div_spec.
  destruct Hy as [-> | ->];
    destruct (Prim2SF x) as [[] | [] | | [] ? ?]; reflexivity.
Qed.

Lemma mean_of_no_number (col : list float) :
  Recommender_.mean_is_float64 col = false -> Py.mean col = nan.
Proof.
  unfold Recommender_.mean_is_float64, Py.mean.
  by destruct (Py.dropna col).
Qed.

Lemma nan_times (x : float) : PrimFloat.is_nan (nan * x) = true.
Proof.
  rewrite is_nan_SF, mul_spec. change (Prim2SF nan) with S754_nan.
  by destruct (Prim2SF x).
Qed.

(** X22. An item without orders.  When both order books are empty,
    [competitiveness] is the Python float 0.0 and [score] divides the
    profit per hour by zero, so it never returns a finite float.  When the
    profit per hour is a numpy [float64] the quotient is an infinity or
    NaN.  When it is a Python float, which is when none of the last six
    margins is a number and both interval volumes sum to zero, it is NaN
    and the division raises [ZeroDivisionError]. *)
Theorem no_orders_no_finite_score
    (item_id : string) (h : RawHistory) (self : Recommender) :
  Recommender_.__init__ item_id h [] [] = Ok self ->
  Recommender_.competitiveness self = Ok 0%float /\
  Recommender_.competitiveness_is_float64 self = false /\
  match Recommender_.score self with
  | Ok x =>
      PrimFloat.is_finite x = false /\
      Recommender_.profit_per_hour_is_float64 self = true
  | Raise e =>
      e = ZeroDivisionError /\
      Recommender_.profit_per_hour_is_float64 self = false /\
      Py.dropna (Py.tail 6 (column col_margin (Recommender_.past_hour self))) = [] /\
      PrimFloat.is_nan (Recommender_.profit_per_hour self) = true
  end.
Proof.
  intros Hinit.
  assert (Recommender_.competitiveness self = Ok 0%float) as Hc
    by (by rewrite (competitiveness_of_books _ _ _ _ _ Hinit)).
  assert (Recommender_.competitiveness_is_float64 self = false) as Ht.
  { unfold Recommender_.__init__ in Hinit.
    destruct (transformed_past_hour h) as [ph | e]; [| discriminate].
    by inversion Hinit. }
  split; [exact Hc |]. split; [exact Ht |].
  unfold Recommender_.score. rewrite Hc, Ht, orb_false_r.
  cbn [mbind result_bind]. cbv zeta.
  destruct (Recommender_.profit_per_hour_is_float64 self) eqn:Ep.
  - split; [| done]. by apply div_by_zero_not_finite.
  - unfold Recommender_.truediv.
    change (PrimFloat.eqb (0 * Recommender_.competitiveness_factor) 0)%float with true.
    cbv iota. split; [done |]. split; [done |].
    unfold Recommender_.profit_per_hour_is_float64 in Ep. cbv zeta in Ep.
    apply orb_false_iff in Ep as [Em _].
    split.
    + unfold Recommender_.mean_is_float64 in Em.
      by destruct (Py.dropna _).
    + unfold Recommender_.profit_per_hour. cbv zeta.
      rewrite (mean_of_no_number _ Em). apply nan_times.
Qed.

(** X22 at work: without orders the steady history scores NaN, and the
    history without rows raises. *)
Lemma no_orders_no_finite_score_witness :
  (exists self x,
     Recommender_.__init__ "ITEM" steady_history [] [] = Ok self /\
     Recommender_.score self = Ok x /\ PrimFloat.is_finite x = false) /\
  (exists self,
     Recommender_.__init__ "ITEM" (flat_history 0 1800 1000 5000) [] [] = Ok self /\
     Recommender_.score self = Raise ZeroDivisionError).
Proof.
  split.
  - eexists.
    pose proof (no_orders_no_finite_score "ITEM" steady_history _ eq_refl)
      as (_ & _ & H).
    destruct (Recommender_.score _) as [x | e] eqn:E;
      [| vm_compute in E; discriminate].
    exists x. split; [reflexivity |]. split; [exact E | exact (proj1 H)].
  - eexists.
    pose proof (no_orders_no_finite_score "ITEM" (flat_history 0 1800 1000 5000)
                  _ eq_refl) as (_ & _ & H).
    destruct (Recommender_.score _) as [x | e] eqn:E;
      [vm_compute in E; discriminate |].
    split; [reflexivity |]. rewrite E. f_equal. exact (proj1 H).
Defined.

(* ===================================================================== *)
(** ** The sampled positions and the top fifth, exactly *)
(* ===================================================================== *)

Lemma int_part_of_none (c : float) :
  PrimFloat.is_finite c = true -> Py.int (Py.of_Z 0 * c)%float = Ok 0.
Proof.
  intros Hc. unfold Py.int. rewrite mul_spec.
  change (Prim2SF (Py.of_Z 0)) with (S754_zero false).
  unfold PrimFloat.is_finite, PrimFloat.is_infinity in Hc.
  rewrite is_nan_SF, eqb_spec, abs_spec in Hc.
  by destruct (Prim2SF c) as [[] | [] | | [] ? ?].
Qed.

(** X23. The sampled positions.  For a history of [n] rows, [n] below
    2^50, the positions [int(n * pct)] that [weighted_rate_of_change]
    samples with its default percentages 0.01, 0.5 and 0.75 are exactly the
    integer quotients [n // 100], [n // 2] and [3 * n // 4]: the rounding of
    the percentages and of the products never moves a position. *)
Theorem default_positions_are_exact (n : Z) :
  0 <= n < 2 ^ 50 ->
  positions_of n positions_pct_default = Ok [n / 100; n / 2; 3 * n / 4].
Proof.
  intros Hn. unfold positions_of, positions_pct_default. cbn [rmapM].
  destruct (Z.eq_dec n 0) as [-> | Hne].
  - by rewrite !int_part_of_none.
  - rewrite int_part_001, int_part_050, int_part_075 by lia.
    cbn [mbind result_bind]. by rewrite !Z.mul_1_l.
Qed.

(** X23 at work: an hour of one-minute snapshots. *)
Lemma default_positions_are_exact_witness :
  0 <= 60 < 2 ^ 50 /\
  positions_of 60 positions_pct_default = Ok [60 / 100; 60 / 2; 3 * 60 / 4].
Proof.
  split; [by vm_compute |].
  apply (default_positions_are_exact 60). by vm_compute.
Defined.

(** X24. The top fifth.  For an order book of [n] rows, [n] below 2^50,
    [out_bid_factor] averages the [max(1, n // 5)] largest out-bid amounts
    of the book sorted for the side and divides by 0.1: [int(n * 0.2)] is
    exactly [n // 5], and a book of fewer than five rows uses one amount. *)
Theorem out_bid_factor_uses_the_top_fifth (df : list OutBidRow) (ascending : bool) :
  Z.of_nat (length df) < 2 ^ 50 ->
  out_bid_factor df ascending
  = Ok (Py.mean (Py.nlargest (Z.max 1 (Z.of_nat (length df) / 5))
                   (map out_bid_price (Py.sort_values (by_row_price ascending) df)))
        / base_out_bid)%float.
Proof.
  intros Hn. unfold out_bid_factor. rewrite sort_values_length.
  set (n := Z.of_nat (length df)) in *.
  assert (Py.int (Py.of_Z n * 0.2)%float = Ok (n / 5)) as ->.
  { destruct (Z.eq_dec n 0) as [-> | Hne]; [by rewrite int_part_of_none |].
    rewrite int_part_020 by lia. by rewrite Z.mul_1_l. }
  cbn [mbind result_bind]. do 3 f_equal. f_equal.
  assert (0 <= n / 5) as Hp by (apply Z.div_pos; lia).
  clearbody n. revert Hp. generalize (n / 5). intros p Hp.
  destruct (p =? 0) eqn:E; [apply Z.eqb_eq in E | apply Z.eqb_neq in E]; lia.
Qed.

(** X24 at work: a book of two rows uses its largest amount. *)
Lemma out_bid_factor_uses_the_top_fifth_witness :
  out_bid_factor (transformed_order_book [order 103; order 105]) true
  = Ok (Py.mean (Py.nlargest (Z.max 1 (2 / 5))
                   (map out_bid_price
                      (Py.sort_values (by_row_price true)
                         (transformed_order_book [order 103; order 105]))))
        / base_out_bid)%float.
Proof.
  apply (out_bid_factor_uses_the_top_fifth
           (transformed_order_book [order 103; order 105]) true).
  by vm_compute.
Defined.

(* ===================================================================== *)
(** ** Floats: the same number, and the order of the prices *)
(* ===================================================================== *)

Lemma SFeqb_same (a b : spec_float) :
  SFeqb a b = true -> SF_same a b.
Proof.
  unfold SFeqb, SF_same.
  destruct a as [sa | sa | | sa ma ea], b as [sb | sb | | sb mb eb]; cbn;
    try discriminate; try (destruct sa); try (destruct sb); try discriminate;
    eauto.
  - destruct (Z.compare_spec ea eb) as [-> | |]; try discriminate.
    change (Pos.compare_cont Eq ma mb) with (ma ?= mb)%positive.
    destruct (Pos.compare_spec ma mb) as [-> | |]; try discriminate. eauto.
  - destruct (Z.compare_spec ea eb) as [-> | |]; try discriminate.
    change (Pos.compare_cont Eq ma mb) with (ma ?= mb)%positive.
    destruct (Pos.compare_spec ma mb) as [-> | |]; try discriminate. eauto.
Qed.

Lemma same_number_SF (x y : float) :
  same_number x y = true <-> SF_same (Prim2SF x) (Prim2SF y).
Proof.
  unfold same_number. rewrite !is_nan_SF, eqb_spec. split.
  - intros H. apply orb_true_iff in H as [H | H]; [| by apply SFeqb_same].
    left. by destruct (Prim2SF x), (Prim2SF y).
  - intros [-> | (s & s' & -> & ->)]; [| done].
    destruct (Prim2SF y) as [s | s | | s m e] eqn:E; [| | done |];
      apply orb_true_iff; right; unfold SFeqb; by rewrite SFcompare_refl.
Qed.

Lemma SF_same_sym (a b : spec_float) : SF_same a b -> SF_same b a.
Proof. intros [-> | (s & s' & -> & ->)]; [by left | right; eauto]. Qed.

Lemma SF_same_trans (a b c : spec_float) : SF_same a b -> SF_same b c -> SF_same a c.
Proof.
  intros [-> | (s & s' & -> & ->)]; [done |].
  intros [<- | (t & t' & [= <-] & ->)]; right; eauto.
Qed.

Lemma same_number_refl (x : float) : same_number x x = true.
Proof. apply same_number_SF. by left. Qed.

Lemma same_number_sym (x y : float) : same_number x y = true -> same_number y x = true.
Proof. rewrite !same_number_SF. apply SF_same_sym. Qed.

Lemma same_number_trans (x y z : float) :
  same_number x y = true -> same_number y z = true -> same_number x z = true.
Proof. rewrite !same_number_SF. apply SF_same_trans. Qed.

(** Being one of the numbers equivalent to [z] does not tell two
    equivalent floats apart. *)
Lemma same_number_cong (x y z : float) :
  same_number x y = true -> same_number z x = same_number z y.
Proof.
  intros H.
  destruct (same_number z x) eqn:E1, (same_number z y) eqn:E2; try done.
  - by rewrite (same_number_trans _ _ _ E1 H) in E2.
  - apply same_number_sym in H. by rewrite (same_number_trans _ _ _ E2 H) in E1.
Qed.

Lemma same_number_is_nan (x y : float) :
  same_number x y = true -> PrimFloat.is_nan x = PrimFloat.is_nan y.
Proof.
  rewrite same_number_SF, !is_nan_SF.
  by intros [-> | (s & s' & -> & ->)].
Qed.

(** Comparisons, differences and absolute values do not tell two zeros
    apart. *)
Lemma SFcompare_same (a a' b b' : spec_float) :
  SF_same a a' -> SF_same b b' -> SFcompare a b = SFcompare a' b'.
Proof.
  intros [-> | (s & s' & -> & ->)] [-> | (t & t' & -> & ->)]; try done;
    first [by destruct a' | by destruct b'].
Qed.

Lemma leb_same (x x' y y' : float) :
  same_number x x' = true -> same_number y y' = true ->
  (x <=? y)%float = (x' <=? y')%float.
Proof.
  rewrite !same_number_SF, !leb_spec. unfold SFleb. intros Hx Hy.
  by rewrite (SFcompare_same _ _ _ _ Hx Hy).
Qed.

Lemma float_le_same (ascending : bool) (x x' y y' : float) :
  same_number x x' = true -> same_number y y' = true ->
  Py.float_le ascending x y = Py.float_le ascending x' y'.
Proof.
  intros Hx Hy. unfold Py.float_le.
  rewrite (same_number_is_nan _ _ Hx), (same_number_is_nan _ _ Hy).
  by rewrite (leb_same _ _ _ _ Hx Hy), (leb_same _ _ _ _ Hy Hx).
Qed.

Lemma SFsub_same (a a' b b' : spec_float) :
  SF_same a a' -> SF_same b b' -> SF_same (SF64sub a b) (SF64sub a' b').
Proof.
  intros [-> | (s & s' & -> & ->)] [-> | (t & t' & -> & ->)].
  - by left.
  - destruct a' as [[] | [] | | sa ma ea], t, t'; cbn; first [by left | right; eauto].
  - destruct b' as [[] | [] | | sb mb eb], s, s'; cbn; first [by left | right; eauto].
  - destruct s, s', t, t'; cbn; right; eauto.
Qed.

Lemma sub_same (x x' y y' : float) :
  same_number x x' = true -> same_number y y' = true ->
  same_number (x - y) (x' - y') = true.
Proof. rewrite !same_number_SF, !sub_spec. apply SFsub_same. Qed.

Lemma abs_same (x y : float) :
  same_number x y = true -> PrimFloat.abs x = PrimFloat.abs y.
Proof.
  rewrite same_number_SF. intros H. apply Prim2SF_inj. rewrite !abs_spec.
  by destruct H as [-> | (s & s' & -> & ->)].
Qed.

(** The distance between two prices does not depend on which is taken
    from which. *)
Lemma binary_round_aux_abs (s : bool) (m e : Z) (l : location) :
  SFabs (binary_round_aux prec emax s m e l)
  = SFabs (binary_round_aux prec emax false m e l).
Proof.
  unfold binary_round_aux.
  destruct (shr_fexp prec emax m e l) as [mrs' e'].
  destruct (shr_fexp prec emax _ e' loc_Exact) as [mrs'' e''].
  destruct (shr_m mrs''); [done | | done].
  by destruct (e'' <=? emax - prec).
Qed.

Lemma binary_normalize_abs (z e : Z) :
  SFabs (binary_normalize prec emax (- z) e false)
  = SFabs (binary_normalize prec emax z e false).
Proof.
  destruct z as [| p | p];
    [done | change (- Z.pos p) with (Z.neg p) | change (- Z.neg p) with (Z.pos p)];
    cbn [binary_normalize]; unfold binary_round;
    destruct (shl_align _ _ _) as [mz ez]; cbv iota;
    by rewrite (binary_round_aux_abs true).
Qed.

Lemma SFabs_sub_swap (a b : spec_float) :
  SFabs (SF64sub a b) = SFabs (SF64sub b a).
Proof.
  destruct a as [[] | [] | | sa ma ea], b as [[] | [] | | sb mb eb]; try done.
  unfold SF64sub, SFsub. rewrite (Z.min_comm eb ea).
  set (ez := Z.min ea eb).
  rewrite <- binary_normalize_abs. f_equal. f_equal. lia.
Qed.

Lemma abs_sub_swap (x y : float) : PrimFloat.abs (x - y) = PrimFloat.abs (y - x).
Proof.
  apply Prim2SF_inj. rewrite !abs_spec, !sub_spec. apply SFabs_sub_swap.
Qed.

(** The absolute value of a float that is NaN or at least zero denotes
    the same number. *)
Lemma abs_same_number (x : float) :
  nan_or_not_negative x = true -> same_number (PrimFloat.abs x) x = true.
Proof.
  rewrite nan_or_not_negative_SF, same_number_SF, abs_spec.
  intros [-> | H]; [by left |].
  destruct H; cbn; [right; eauto | by left | by left].
Qed.

(** Adding a zero to a sum whose sign bit is clear changes nothing. *)
Lemma add_zero (acc z : float) :
  SF_signed false (Prim2SF acc) -> PrimFloat.eqb z 0 = true -> (acc + z)%float = acc.
Proof.
  intros Hacc Hz. apply Prim2SF_inj. rewrite add_spec.
  apply eqb_zero_cases in Hz as [-> | ->].
  - change (Prim2SF 0) with (S754_zero false). by destruct Hacc.
  - change (Prim2SF (-0)) with (S754_zero true). by destruct Hacc.
Qed.

Lemma same_number_cases (x y : float) :
  same_number x y = true ->
  x = y \/ (PrimFloat.eqb x 0 = true /\ PrimFloat.eqb y 0 = true).
Proof.
  rewrite same_number_SF. intros [H | (s & s' & Hx & Hy)].
  - left. by apply Prim2SF_inj.
  - right. rewrite !eqb_spec, Hx, Hy. by destruct s, s'.
Qed.

(** The order of the floats is transitive. *)
Lemma SFleb_trans (a b c : spec_float) :
  SFleb a b = true -> SFleb b c = true -> SFleb a c = true.
Proof.
  unfold SFleb.
  destruct a as [sa | sa | | sa ma ea], b as [sb | sb | | sb mb eb],
           c as [sc | sc | | sc mc ec]; cbn;
    try discriminate; try (destruct sa); try (destruct sb); try (destruct sc);
    try discriminate; try reflexivity;
    change (Pos.compare_cont Eq ma mb) with (ma ?= mb)%positive;
    change (Pos.compare_cont Eq mb mc) with (mb ?= mc)%positive;
    change (Pos.compare_cont Eq ma mc) with (ma ?= mc)%positive;
    destruct (Z.compare_spec ea eb), (Z.compare_spec eb ec),
             (Z.compare_spec ea ec); try discriminate; try reflexivity;
      try lia; subst;
    destruct (Pos.compare_spec ma mb), (Pos.compare_spec mb mc),
             (Pos.compare_spec ma mc); try discriminate; try reflexivity;
      try lia.
Qed.

Lemma leb_trans (x y z : float) :
  (x <=? y)%float = true -> (y <=? z)%float = true -> (x <=? z)%float = true.
Proof. rewrite !leb_spec. apply SFleb_trans. Qed.

Lemma leb_is_nan (x y : float) :
  (x <=? y)%float = true ->
  PrimFloat.is_nan x = false /\ PrimFloat.is_nan y = false.
Proof.
  rewrite leb_spec, !is_nan_SF. unfold SFleb.
  by destruct (Prim2SF x) as [[] | [] | | [] ? ?], (Prim2SF y) as [[] | [] | | [] ? ?].
Qed.

Lemma leb_antisym (x y : float) :
  (x <=? y)%float = true -> (y <=? x)%float = true -> same_number x y = true.
Proof.
  unfold same_number. rewrite !leb_spec, eqb_spec. unfold SFleb, SFeqb.
  destruct (SFcompare (Prim2SF x) (Prim2SF y)) as [c |] eqn:E; [| done].
  rewrite (SFcompare_antisym _ _ _ E).
  destruct c; cbn; try done. intros _ _. apply orb_true_r.
Qed.

Lemma float_le_trans (ascending : bool) (x y z : float) :
  Py.float_le ascending x y = true -> Py.float_le ascending y z = true ->
  Py.float_le ascending x z = true.
Proof.
  unfold Py.float_le.
  destruct (PrimFloat.is_nan z) eqn:Hz; [done |].
  destruct (PrimFloat.is_nan y) eqn:Hy; [done |].
  destruct (PrimFloat.is_nan x) eqn:Hx; [done |].
  destruct ascending; intros H1 H2; eapply leb_trans; eassumption.
Qed.

Lemma float_le_antisym (ascending : bool) (x y : float) :
  Py.float_le ascending x y = true -> Py.float_le ascending y x = true ->
  same_number x y = true.
Proof.
  unfold Py.float_le.
  destruct (PrimFloat.is_nan y) eqn:Hy, (PrimFloat.is_nan x) eqn:Hx; try done.
  - intros _ _. unfold same_number. by rewrite Hx, Hy.
  - destruct ascending; intros H1 H2; [by apply leb_antisym |].
    by apply same_number_sym, leb_antisym.
Qed.

(* ===================================================================== *)
(** ** Sorted lists with the same entries *)
(* ===================================================================== *)

Lemma count_of_cons {A} (eqv : A -> A -> bool) (z x : A) (l : list A) :
  count_of eqv z (x :: l) = ((if eqv z x then 1 else 0) + count_of eqv z l)%nat.
Proof. unfold count_of. cbn. by destruct (eqv z x). Qed.

Lemma count_of_app {A} (eqv : A -> A -> bool) (z : A) (l l' : list A) :
  count_of eqv z (l ++ l') = (count_of eqv z l + count_of eqv z l')%nat.
Proof. unfold count_of. by rewrite List.filter_app, length_app. Qed.

Lemma count_of_perm {A} (eqv : A -> A -> bool) (z : A) (l l' : list A) :
  l ≡ₚ l' -> count_of eqv z l = count_of eqv z l'.
Proof.
  induction 1 as [| x l l' _ IH | x y l | l l' l'' _ IH1 _ IH2].
  - done.
  - by rewrite !count_of_cons, IH.
  - rewrite !count_of_cons. lia.
  - by rewrite IH1.
Qed.

Lemma count_of_elem {A} (eqv : A -> A -> bool) (z : A) (l : list A) :
  (0 < count_of eqv z l)%nat -> exists y, y ∈ l /\ eqv z y = true.
Proof.
  induction l as [| x l IH]; [cbn; lia |].
  rewrite count_of_cons. destruct (eqv z x) eqn:E.
  - intros _. exists x. split; [by left | done].
  - intros H. destruct IH as (y & Hy & Hz); [lia |].
    exists y. split; [by right | done].
Qed.

Lemma count_of_none {A} (eqv : A -> A -> bool) (z : A) (l : list A) :
  Forall (fun x => eqv z x = false) l -> count_of eqv z l = 0%nat.
Proof.
  induction 1 as [| x l Hx _ IH]; [done |]. by rewrite count_of_cons, Hx, IH.
Qed.

Section Sorted.
Context {A : Type} (le eqv : A -> A -> bool).
Hypothesis eqv_refl : forall x, eqv x x = true.
Hypothesis eqv_cong : forall x y z, eqv x y = true -> eqv z x = eqv z y.
Hypothesis le_trans :
  forall x y z, le x y = true -> le y z = true -> le x z = true.
Hypothesis le_antisym :
  forall x y, le x y = true -> le y x = true -> eqv x y = true.
Hypothesis le_eqv : forall x y z, eqv x y = true -> le z y = true -> le z x = true.

Lemma eqv_sym (x y : A) : eqv x y = true -> eqv y x = true.
Proof. intros H. by rewrite (eqv_cong x y y H). Qed.

Lemma count_of_Forall2 (z : A) (l l' : list A) :
  Forall2 (fun x y => eqv x y = true) l l' -> count_of eqv z l = count_of eqv z l'.
Proof.
  induction 1 as [| x y l l' Hxy _ IH]; [done |].
  by rewrite !count_of_cons, IH, (eqv_cong x y z Hxy).
Qed.

Lemma chained_tail (x : A) (l : list A) :
  chained le (x :: l) = true -> chained le l = true.
Proof.
  rewrite chained_cons. destruct l as [| y l]; [done |].
  by intros [_ H]%andb_true_iff.
Qed.

Lemma chained_head (x : A) (l : list A) :
  chained le (x :: l) = true -> Forall (fun y => le x y = true) l.
Proof.
  revert x. induction l as [| y l IH]; intros x H; [constructor |].
  rewrite chained_cons in H. apply andb_true_iff in H as [Hxy Hl].
  constructor; [exact Hxy |].
  eapply Forall_impl; [apply IH, Hl |]. intros z Hz. cbn in Hz. eauto.
Qed.

(** Two sorted lists with the same entries, up to the equivalence, are
    equivalent entry by entry. *)
Lemma sorted_unique (l1 l2 : list A) :
  chained le l1 = true -> chained le l2 = true ->
  (forall z, count_of eqv z l1 = count_of eqv z l2) ->
  Forall2 (fun x y => eqv x y = true) l1 l2.
Proof.
  revert l2. induction l1 as [| x l1 IH]; intros [| y l2] H1 H2 Hc.
  - constructor.
  - specialize (Hc y). rewrite count_of_cons, eqv_refl in Hc. cbn in Hc. lia.
  - specialize (Hc x). rewrite count_of_cons, eqv_refl in Hc. cbn in Hc. lia.
  - assert (eqv x y = true) as Hxy.
    { destruct (count_of_elem eqv x (y :: l2)) as (y' & Hy' & Hxy');
        [rewrite <- Hc, count_of_cons, eqv_refl; lia |].
      destruct (count_of_elem eqv y (x :: l1)) as (x' & Hx' & Hyx');
        [rewrite Hc, count_of_cons, eqv_refl; lia |].
      apply elem_of_cons in Hy' as [-> | Hy']; [done |].
      apply elem_of_cons in Hx' as [-> | Hx']; [by apply eqv_sym |].
      pose proof (chained_head _ _ H1) as F1.
      pose proof (chained_head _ _ H2) as F2.
      rewrite Forall_forall in F1. rewrite Forall_forall in F2.
      apply le_antisym.
      - apply (le_eqv y x' x Hyx'). by apply F1.
      - apply (le_eqv x y' y Hxy'). by apply F2. }
    constructor; [exact Hxy |].
    apply IH; [by apply chained_tail in H1 | by apply chained_tail in H2 |].
    intros z. specialize (Hc z). rewrite !count_of_cons in Hc.
    rewrite (eqv_cong x y z Hxy) in Hc. lia.
Qed.
End Sorted.

Lemma chained_snoc {A} (le : A -> A -> bool) (l : list A) (x : A) :
  chained le l = true -> (forall y, last l = Some y -> le y x = true) ->
  chained le (l ++ [x]) = true.
Proof.
  induction l as [| a l IH]; intros Hl Hx; [done |].
  destruct l as [| b l].
  - cbn. rewrite Hx; [done | done].
  - change ((a :: b :: l) ++ [x]) with (a :: b :: (l ++ [x])).
    rewrite chained_cons in Hl. apply andb_true_iff in Hl as [Hab Hl].
    rewrite chained_cons, Hab. apply IH; [exact Hl |].
    intros y Hy. by apply Hx.
Qed.

Lemma chained_rev {A} (le : A -> A -> bool) (l : list A) :
  chained le l = true -> chained (fun a b => le b a) (rev l) = true.
Proof.
  induction l as [| a l IH]; intros Hl; [done |].
  cbn [rev]. apply chained_snoc.
  - apply IH. destruct l; [done |]. rewrite chained_cons in Hl.
    by apply andb_true_iff in Hl as [_ Hl].
  - intros y Hy. destruct l as [| b l]; [done |].
    rewrite chained_cons in Hl. apply andb_true_iff in Hl as [Hab _].
    cbn [rev] in Hy. rewrite last_snoc in Hy. by inversion Hy; subst.
Qed.

Lemma chained_ext {A} (le le' : A -> A -> bool) (l : list A) :
  (forall a b, a ∈ l -> b ∈ l -> le a b = le' a b) ->
  chained le l = chained le' l.
Proof.
  induction l as [| a l IH]; intros H; [done |].
  rewrite !chained_cons. destruct l as [| b l]; [done |].
  rewrite (H a b) by (repeat constructor). f_equal.
  apply IH. intros x y Hx Hy. apply H; by right.
Qed.

Lemma insert_sorted_map {A B} (f : A -> B) (le : B -> B -> bool) (x : A) (l : list A) :
  map f (Py.insert_sorted (fun a b => le (f a) (f b)) x l)
  = Py.insert_sorted le (f x) (map f l).
Proof.
  induction l as [| y l IH]; cbn; [done |].
  destruct (le (f x) (f y)); cbn; [done | by rewrite IH].
Qed.

(** Sorting rows on a key sorts the keys. *)
Lemma sort_values_map {A B} (f : A -> B) (le : B -> B -> bool) (l : list A) :
  map f (Py.sort_values (fun a b => le (f a) (f b)) l) = Py.sort_values le (map f l).
Proof.
  unfold Py.sort_values. induction l as [| x l IH]; cbn [foldr map]; [done |].
  by rewrite insert_sorted_map, IH.
Qed.

(* ===================================================================== *)
(** ** The out-bid amounts of a side, in either order of its prices *)
(* ===================================================================== *)

Lemma float_sorted_unique (ascending : bool) (l1 l2 : list float) :
  chained (Py.float_le ascending) l1 = true ->
  chained (Py.float_le ascending) l2 = true ->
  (forall z, count_of same_number z l1 = count_of same_number z l2) ->
  Forall2 (fun x y => same_number x y = true) l1 l2.
Proof.
  apply sorted_unique.
  - apply same_number_refl.
  - intros x y z. apply same_number_cong.
  - apply float_le_trans.
  - apply float_le_antisym.
  - intros x y z Hxy Hz.
    by rewrite (float_le_same ascending z z x y (same_number_refl z) Hxy).
Qed.

Lemma same_number_nan (z x : float) :
  PrimFloat.is_nan z = false -> PrimFloat.is_nan x = true -> same_number z x = false.
Proof.
  intros Hz Hx. destruct (same_number z x) eqn:E; [| done].
  apply same_number_is_nan in E. congruence.
Qed.

Lemma count_of_nans (z : float) (l : list float) :
  PrimFloat.is_nan z = false -> Forall (fun x => PrimFloat.is_nan x = true) l ->
  count_of same_number z l = 0%nat.
Proof.
  intros Hz Hl. apply count_of_none.
  eapply Forall_impl; [exact Hl |]. intros x Hx. by apply same_number_nan.
Qed.

Lemma count_of_dropna (z : float) (l : list float) :
  count_of same_number z (Py.dropna l)
  = if PrimFloat.is_nan z then 0%nat else count_of same_number z l.
Proof.
  unfold Py.dropna. induction l as [| x l IH]; cbn [List.filter].
  - by destruct (PrimFloat.is_nan z).
  - destruct (PrimFloat.is_nan x) eqn:Hx; cbn [negb].
    + rewrite IH. destruct (PrimFloat.is_nan z) eqn:Hz; [done |].
      by rewrite count_of_cons, (same_number_nan z x Hz Hx).
    + rewrite !count_of_cons, IH.
      destruct (PrimFloat.is_nan z) eqn:Hz; [| done].
      destruct (same_number z x) eqn:E; [| done].
      apply same_number_is_nan in E. congruence.
Qed.

(** In a sorted column the entries that are not numbers come last. *)
Lemma chained_after_nan (ascending : bool) (x : float) (l : list float) :
  chained (Py.float_le ascending) (x :: l) = true -> PrimFloat.is_nan x = true ->
  Forall (fun y => PrimFloat.is_nan y = true) l.
Proof.
  revert x. induction l as [| y l IH]; intros x H Hx; [constructor |].
  rewrite chained_cons in H. apply andb_true_iff in H as [Hxy Hl].
  assert (PrimFloat.is_nan y = true) as Hy.
  { unfold Py.float_le in Hxy. destruct (PrimFloat.is_nan y); [done |].
    by rewrite Hx in Hxy. }
  constructor; [exact Hy | by apply (IH y)].
Qed.

Lemma filter_all {A} (f : A -> bool) (l : list A) :
  Forall (fun x => f x = true) l -> List.filter f l = l.
Proof. induction 1 as [| x l Hx _ IH]; cbn; [done |]. by rewrite Hx, IH. Qed.

Lemma filter_none {A} (f : A -> bool) (l : list A) :
  Forall (fun x => f x = false) l -> List.filter f l = [].
Proof. induction 1 as [| x l Hx _ IH]; cbn; [done |]. by rewrite Hx. Qed.

Lemma nan_last (ascending : bool) (l : list float) :
  chained (Py.float_le ascending) l = true ->
  l = Py.dropna l ++ List.filter PrimFloat.is_nan l.
Proof.
  unfold Py.dropna. induction l as [| x l IH]; intros H; [done |].
  cbn [List.filter]. destruct (PrimFloat.is_nan x) eqn:Hx; cbn [negb].
  - pose proof (chained_after_nan _ _ _ H Hx) as Hl.
    rewrite (filter_all PrimFloat.is_nan l Hl).
    rewrite filter_none; [done |].
    eapply Forall_impl; [exact Hl |]. intros y Hy. cbn. by rewrite Hy.
  - cbn [app]. f_equal. apply IH.
    destruct l; [done |]. rewrite chained_cons in H.
    by apply andb_true_iff in H as [_ H].
Qed.

Lemma dropna_numbers (l : list float) :
  Forall (fun x => PrimFloat.is_nan x = false) (Py.dropna l).
Proof.
  unfold Py.dropna. induction l as [| x l IH]; cbn; [constructor |].
  destruct (PrimFloat.is_nan x) eqn:Hx; cbn; [exact IH | by constructor].
Qed.

Lemma filter_nans (l : list float) :
  Forall (fun x => PrimFloat.is_nan x = true) (List.filter PrimFloat.is_nan l).
Proof.
  induction l as [| x l IH]; cbn; [constructor |].
  destruct (PrimFloat.is_nan x) eqn:Hx; [by constructor | exact IH].
Qed.

Lemma chained_prefix {A} (le : A -> A -> bool) (l l' : list A) :
  chained le (l ++ l') = true -> chained le l = true.
Proof.
  induction l as [| a l IH]; intros H; [done |].
  destruct l as [| b l]; [done |].
  change ((a :: b :: l) ++ l') with (a :: b :: (l ++ l')) in H.
  rewrite chained_cons in H. apply andb_true_iff in H as [Hab H].
  rewrite chained_cons, Hab. by apply IH.
Qed.

Lemma chained_app_nans (ascending : bool) (l n : list float) :
  chained (Py.float_le ascending) l = true ->
  Forall (fun x => PrimFloat.is_nan x = true) n ->
  chained (Py.float_le ascending) (l ++ n) = true.
Proof.
  intros Hl Hn. revert l Hl. induction Hn as [| x n Hx _ IH]; intros l Hl.
  - by rewrite app_nil_r.
  - rewrite (cons_middle x l n), app_assoc. apply IH.
    apply chained_snoc; [exact Hl |]. intros y _.
    unfold Py.float_le. by rewrite Hx.
Qed.

(** The numbers of a column in ascending order, read backwards, are in
    descending order. *)
Lemma descending_of_ascending (s n : list float) :
  chained (Py.float_le true) s = true ->
  Forall (fun x => PrimFloat.is_nan x = false) s ->
  Forall (fun x => PrimFloat.is_nan x = true) n ->
  chained (Py.float_le false) (rev s ++ n) = true.
Proof.
  intros Hs Hnum Hn. apply chained_app_nans; [| exact Hn].
  rewrite (chained_ext _ (fun a b => Py.float_le true b a)).
  - by apply chained_rev.
  - intros a b Ha Hb. rewrite Forall_forall in Hnum.
    apply list_elem_of_In, in_rev, list_elem_of_In in Ha, Hb.
    unfold Py.float_le. by rewrite (Hnum a Ha), (Hnum b Hb).
Qed.

(** Differences of columns that hold the same numbers. *)
Lemma diff_from_same (p p' : float) (l l' : list float) :
  same_number p p' = true ->
  Forall2 (fun x y => same_number x y = true) l l' ->
  Forall2 (fun x y => same_number x y = true) (Py.diff_from p l) (Py.diff_from p' l').
Proof.
  intros Hp H. revert p p' Hp.
  induction H as [| x y l l' Hxy _ IH]; intros p p' Hp; cbn; [constructor |].
  constructor; [by apply sub_same | by apply IH].
Qed.

Lemma diff_same (l l' : list float) :
  Forall2 (fun x y => same_number x y = true) l l' ->
  Forall2 (fun x y => same_number x y = true) (Py.diff l) (Py.diff l').
Proof.
  destruct 1 as [| x y l l' Hxy H]; cbn [Py.diff]; [constructor |].
  constructor; [apply same_number_refl | by apply diff_from_same].
Qed.

Lemma map_abs_same (l l' : list float) :
  Forall2 (fun x y => same_number x y = true) l l' ->
  map PrimFloat.abs l = map PrimFloat.abs l'.
Proof.
  induction 1 as [| x y l l' Hxy _ IH]; cbn; [done |].
  by rewrite (abs_same x y Hxy), IH.
Qed.

Lemma map_abs_signs (l : list float) :
  Forall (fun d => nan_or_not_negative d = true) l ->
  Forall2 (fun x y => same_number x y = true) (map PrimFloat.abs l) l.
Proof.
  induction 1 as [| x l Hx _ IH]; cbn; constructor;
    [by apply abs_same_number | exact IH].
Qed.

Lemma diff_from_app (p : float) (l l' : list float) :
  Py.diff_from p (l ++ l') = Py.diff_from p l ++ Py.diff_from (default p (last l)) l'.
Proof.
  revert p. induction l as [| x l IH]; intros p; [done |].
  cbn [app Py.diff_from]. rewrite IH.
  assert (default x (last l) = default p (last (x :: l))) as ->; [| done].
  destruct l as [| y l]; [done |]. rewrite last_cons_cons.
  destruct (last (y :: l)) eqn:E; [done |]. by apply last_None in E.
Qed.

Lemma diff_from_nans (p : float) (n : list float) :
  Forall (fun x => PrimFloat.is_nan x = true) n ->
  Forall (fun x => PrimFloat.is_nan x = true) (Py.diff_from p n).
Proof.
  intros H. revert p. induction H as [| x n Hx _ IH]; intros p; cbn;
    constructor; [apply nan_propagates_sub; by left | apply IH].
Qed.

Lemma gaps_app_nans (s n : list float) :
  Forall (fun x => PrimFloat.is_nan x = true) n ->
  exists tail,
    gaps (s ++ n) = gaps s ++ tail /\
    Forall (fun x => PrimFloat.is_nan x = true) tail.
Proof.
  intros Hn. destruct s as [| x s].
  - destruct Hn as [| y n Hy Hn]; cbn; [by exists [] |].
    eexists. split; [reflexivity | by apply diff_from_nans].
  - cbn [app gaps]. rewrite diff_from_app. eexists. split; [reflexivity |].
    by apply diff_from_nans.
Qed.

Lemma map_abs_nans (n : list float) :
  Forall (fun x => PrimFloat.is_nan x = true) n ->
  Forall (fun x => PrimFloat.is_nan x = true) (map PrimFloat.abs n).
Proof.
  induction 1 as [| x n Hx _ IH]; cbn; constructor; [| exact IH].
  by rewrite abs_is_nan.
Qed.

Lemma diff_gaps (l : list float) :
  Py.diff l = match l with [] => [] | _ => nan :: gaps l end.
Proof. by destruct l. Qed.

Lemma count_of_diff (z : float) (l : list float) :
  PrimFloat.is_nan z = false ->
  count_of same_number z (Py.diff l) = count_of same_number z (gaps l) /\
  count_of same_number z (map PrimFloat.abs (Py.diff l))
  = count_of same_number z (map PrimFloat.abs (gaps l)).
Proof.
  intros Hz. destruct l as [| x l]; [done |]. cbn [Py.diff gaps map].
  rewrite !count_of_cons.
  rewrite (same_number_nan z nan Hz) by done.
  by rewrite (same_number_nan z (PrimFloat.abs nan) Hz) by done.
Qed.

(** Read backwards, a column has the same distances between consecutive
    entries, backwards. *)
Lemma gaps_rev (s : list float) :
  map PrimFloat.abs (gaps (rev s)) = rev (map PrimFloat.abs (gaps s)).
Proof.
  induction s as [| x t IH]; [done |].
  destruct t as [| h t']; [done |].
  cbn [rev] in *. 
  destruct (rev t' ++ [h]) as [| y r] eqn:E; [by destruct (rev t') |].
  change ((y :: r) ++ [x]) with (y :: (r ++ [x])). cbn [gaps] in *.
  rewrite diff_from_app. cbn [Py.diff_from]. rewrite map_app. cbn [map].
  rewrite IH. cbn [Py.diff_from map rev]. f_equal.
  assert (default y (last r) = h) as ->.
  { assert (last (y :: r) = Some h) as Hl by (rewrite <- E; apply last_snoc).
    destruct r as [| w r]; [by inversion Hl |].
    rewrite last_cons_cons in Hl. by rewrite Hl. }
  by rewrite abs_sub_swap.
Qed.

Lemma gaps_signs (s : list float) :
  chained (Py.float_le true) s = true ->
  Forall (fun d => nan_or_not_negative d = true) (gaps s).
Proof. destruct s as [| x s]; [constructor | apply diff_from_signs]. Qed.

(** The differences of a column in ascending order are the distances
    between its consecutive numbers. *)
Lemma ascending_gap_counts (pa : list float) (z : float) :
  chained (Py.float_le true) pa = true -> PrimFloat.is_nan z = false ->
  count_of same_number z (Py.diff pa) = count_of same_number z (gaps (Py.dropna pa)).
Proof.
  intros Hs Hz. rewrite (proj1 (count_of_diff z pa Hz)).
  rewrite (nan_last true pa Hs) at 1.
  destruct (gaps_app_nans (Py.dropna pa) (List.filter PrimFloat.is_nan pa)
              (filter_nans pa)) as (tail & -> & Ht).
  rewrite count_of_app, (count_of_nans z tail Hz Ht). lia.
Qed.

(** So are the absolute differences of the column sorted either way. *)
Lemma sorted_gap_counts (ascending : bool) (pa q : list float) (z : float) :
  chained (Py.float_le true) pa = true ->
  chained (Py.float_le ascending) q = true -> q ≡ₚ pa ->
  PrimFloat.is_nan z = false ->
  count_of same_number z (map PrimFloat.abs (Py.diff q))
  = count_of same_number z (gaps (Py.dropna pa)).
Proof.
  intros Ha Hq Hperm Hz.
  pose proof (nan_last true pa Ha) as Hpa.
  set (sa := Py.dropna pa) in *. set (na := List.filter PrimFloat.is_nan pa) in *.
  assert (Forall (fun x => PrimFloat.is_nan x = true) na) as Hna
    by apply filter_nans.
  assert (chained (Py.float_le true) sa = true) as Hsa
    by (apply (chained_prefix _ sa na); by rewrite <- Hpa).
  set (q' := if ascending then sa ++ na else rev sa ++ na).
  assert (chained (Py.float_le ascending) q' = true) as Hq'.
  { subst q'. destruct ascending; [by rewrite <- Hpa |].
    apply descending_of_ascending; [done | apply dropna_numbers | done]. }
  assert (q' ≡ₚ pa) as Hperm'.
  { transitivity (sa ++ na); [| by rewrite <- Hpa].
    subst q'. destruct ascending; [done |].
    apply Permutation_app_tail. symmetry. apply Permutation_rev. }
  assert (Forall2 (fun x y => same_number x y = true) q q') as HF.
  { apply (float_sorted_unique ascending); [done | done |].
    intros z'. apply count_of_perm. by rewrite Hperm, Hperm'. }
  rewrite (map_abs_same _ _ (diff_same _ _ HF)).
  rewrite (proj2 (count_of_diff z q' Hz)).
  assert (count_of same_number z (map PrimFloat.abs (gaps q'))
          = count_of same_number z (map PrimFloat.abs (gaps sa))) as ->.
  { subst q'. destruct ascending.
    - destruct (gaps_app_nans sa na Hna) as (tail & -> & Ht).
      rewrite map_app, count_of_app.
      rewrite (count_of_nans z _ Hz (map_abs_nans _ Ht)). lia.
    - destruct (gaps_app_nans (rev sa) na Hna) as (tail & -> & Ht).
      rewrite map_app, count_of_app.
      rewrite (count_of_nans z _ Hz (map_abs_nans _ Ht)), gaps_rev.
      rewrite (count_of_perm same_number z _ (map PrimFloat.abs (gaps sa)));
        [lia | symmetry; apply Permutation_rev]. }
  apply count_of_Forall2; [intros x y w; apply same_number_cong |].
  by apply map_abs_signs, gaps_signs.
Qed.

(** Sums and means of columns that hold the same numbers, none negative. *)
Lemma fsum_same (l l' : list float) :
  Forall2 (fun x y => same_number x y = true) l l' ->
  Forall (fun x => not_negative x = true) l ->
  Forall (fun x => not_negative x = true) l' ->
  Py.fsum l = Py.fsum l'.
Proof.
  unfold Py.fsum.
  assert (SF_signed false (Prim2SF 0)) as Hacc by constructor.
  revert Hacc. generalize 0%float as acc.
  intros acc Hacc H. revert acc Hacc.
  induction H as [| x y l l' Hxy _ IH]; intros acc Hacc Hl Hl'; [done |].
  inversion Hl as [| ? ? Hx Hl1]; inversion Hl' as [| ? ? Hy Hl1']; subst.
  cbn [fold_left].
  assert ((acc + x)%float = (acc + y)%float) as E.
  { destruct (same_number_cases x y Hxy) as [-> | [Zx Zy]]; [done |].
    by rewrite (add_zero acc x Hacc Zx), (add_zero acc y Hacc Zy). }
  rewrite E. apply IH; [| done | done].
  rewrite add_spec. apply SFadd_signed; [exact Hacc | by apply not_negative_SF].
Qed.

Lemma mean_same (l l' : list float) :
  Forall2 (fun x y => same_number x y = true) l l' ->
  Forall (fun x => not_negative x = true) l ->
  Forall (fun x => not_negative x = true) l' ->
  Py.mean l = Py.mean l'.
Proof.
  intros H Hl Hl'. unfold Py.mean. rewrite (dropna_id l Hl), (dropna_id l' Hl').
  pose proof (fsum_same l l' H Hl Hl') as Hsum.
  pose proof (Forall2_length _ _ _ H) as Hlen.
  destruct H; [done |]. by rewrite Hsum, Hlen.
Qed.

(** The mean of the largest entries depends on the numbers the column
    holds only. *)
Lemma nlargest_mean_counts (n : Z) (col col' : list float) :
  (forall z, PrimFloat.is_nan z = false ->
             count_of same_number z col = count_of same_number z col') ->
  Forall (fun x => nan_or_not_negative x = true) col ->
  Forall (fun x => nan_or_not_negative x = true) col' ->
  Py.mean (Py.nlargest n col) = Py.mean (Py.nlargest n col').
Proof.
  intros Hc Hs Hs'.
  pose proof (proj1 (nlargest_not_negative n col Hs)) as Hn.
  pose proof (proj1 (nlargest_not_negative n col' Hs')) as Hn'.
  apply mean_same; [| exact Hn | exact Hn'].
  unfold Py.nlargest. destruct (n <=? 0); [constructor |].
  apply Forall2_take. apply (float_sorted_unique false).
  - apply sort_values_chained. intros a b. apply float_le_total.
  - apply sort_values_chained. intros a b. apply float_le_total.
  - intros z.
    rewrite !(count_of_perm same_number z _ _ (sort_values_perm _ _)).
    rewrite !count_of_dropna. destruct (PrimFloat.is_nan z) eqn:Hz; [done |].
    by apply Hc.
Qed.

(** What the code computes for a side is what the spec words. *)
Lemma side_factor_is_spec (ascending : bool) (book : list OrderRow) :
  side_factor_ascending_deltas ascending book = side_factor_spec ascending book.
Proof.
  unfold side_factor_ascending_deltas, side_factor_spec.
  destruct book as [| r book]; [done |]. set (bk := r :: book).
  destruct (top_count (length bk)) as [top | e]; cbn [mbind result_bind]; [| done].
  f_equal. f_equal. apply nlargest_mean_counts.
  - intros z Hz.
    pose proof (sort_values_map pricePerUnit (Py.float_le true) bk) as Ea.
    pose proof (sort_values_map pricePerUnit (Py.float_le ascending) bk) as Eq.
    change (fun a b => Py.float_le true (pricePerUnit a) (pricePerUnit b))
      with (by_price true) in Ea.
    change (fun a b => Py.float_le ascending (pricePerUnit a) (pricePerUnit b))
      with (by_price ascending) in Eq.
    rewrite (count_of_perm same_number z _ _
               (Permutation_map out_bid_price (sort_values_perm _ _))).
    rewrite with_out_bid_deltas. unfold out_bid_amounts. rewrite Ea, Eq.
    assert (forall asc, chained (Py.float_le asc)
                          (Py.sort_values (Py.float_le asc) (map pricePerUnit bk))
                        = true) as Hsorted
      by (intros asc; apply sort_values_chained; intros a b; apply float_le_total).
    rewrite (ascending_gap_counts _ z (Hsorted true) Hz).
    symmetry. apply (sorted_gap_counts ascending); [done | done | | done].
    by rewrite !sort_values_perm.
  - apply reordered_out_bid_signs.
  - unfold out_bid_amounts. apply Forall_map, Forall_forall. intros d _.
    apply abs_nan_or_not_negative.
Qed.

(** C3. Competitiveness is what the spec words.  For every pair of
    order-book sides, [competitiveness] is computed as the spec says: each
    side is sorted by price (buy side descending, sell side ascending),
    the out-bid amounts are the distances between consecutive prices, the
    side's factor is the mean of the top 20% largest amounts (at least one
    row) over the baseline 0.1, an empty side counts 0, and
    competitiveness is the mean of the two factors.  The code takes the
    differences once, on the prices in ascending order, before it sorts
    each side: the distances are the same numbers either way.  It returns
    a float for sides of fewer than 2^53 rows. *)
Theorem competitiveness_follows_the_spec
    (item_id : string) (past_hour : RawHistory)
    (buy_book sell_book : list OrderRow) (self : Recommender) :
  Recommender_.__init__ item_id past_hour buy_book sell_book = Ok self ->
  Recommender_.competitiveness self = competitiveness_spec buy_book sell_book /\
  (Z.of_nat (length buy_book) < 2 ^ 53 ->
   Z.of_nat (length sell_book) < 2 ^ 53 ->
   exists v, Recommender_.competitiveness self = Ok v).
Proof.
  intros Hinit. rewrite (competitiveness_of_books _ _ _ _ _ Hinit).
  unfold competitiveness_ascending_deltas, competitiveness_spec.
  split; [by rewrite !side_factor_is_spec |].
  intros Hb Hs.
  destruct (side_factor_returns false buy_book Hb) as [bo ->].
  destruct (side_factor_returns true sell_book Hs) as [so ->].
  cbn [mbind result_bind]. eauto.
Qed.

(** C3 at work: buy orders at 100 and 101, sell orders at 103 and 105;
    the factors are 10 and 20. *)
Lemma competitiveness_follows_the_spec_witness :
  exists self,
    Recommender_.__init__ "ITEM" steady_history [order 100; order 101]
      [order 103; order 105] = Ok self /\
    Recommender_.competitiveness self = Ok 15%float /\
    competitiveness_spec [order 100; order 101] [order 103; order 105] = Ok 15%float.
Proof.
  eexists. split; [reflexivity |].
  pose proof (competitiveness_follows_the_spec "ITEM" steady_history
                [order 100; order 101] [order 103; order 105] _ eq_refl) as [H _].
  split; [rewrite H |]; vm_compute; reflexivity.
Defined.
